(** * The enrichment pipeline of [src/app/page.tsx]

    A shallow embedding of the pure core of the page component: the
    delimited-text parser ([parseCSV], [parseCSVLine]), the depth-bounded
    search [deepExtractEnrichedData], the artifact locator
    [extractArtifactFiles], the record normalizer and summary coercion of
    [handleEnrich], and the filter-and-sort of [getFilteredData].

    Strings are sequences of code units; the model uses [string], so it
    covers the code units below 256.  JSON numbers are kept abstract (see
    [JSNumber]). *)

From Stdlib Require Import List String Ascii Bool Arith ZArith Lia.
From Stdlib Require Import Permutation Sorted Decimal DecimalString RelationClasses.
From Stdlib Require OrderedTypeEx.
From Equations Require Import Equations.
Import ListNotations.

Local Open Scope string_scope.
Local Open Scope list_scope.

Set Warnings "-register-all".

Infix "+++" := String.append (at level 60, right associativity).

(** ** Runtime primitives on strings *)

Module JS.

(** The straight double quote, code unit 34. *)
Definition dquote : ascii := "034"%char.
Definition squote : ascii := "039"%char.
Definition comma : ascii := ","%char.
Definition LF : ascii := "010"%char.
Definition CR : ascii := "013"%char.

(** [WhiteSpace] and [LineTerminator] code units below 256, the set
    [String.prototype.trim] strips. *)
Definition is_space (c : ascii) : bool :=
  match nat_of_ascii c with
  | 9 | 10 | 11 | 12 | 13 | 32 | 160 => true
  | _ => false
  end.

Fixpoint trimStart (s : string) : string :=
  match s with
  | String c s' => if is_space c then trimStart s' else s
  | EmptyString => EmptyString
  end.

(** [trimEnd] drops a character when it is a space and everything after
    it has been dropped. *)
Fixpoint trimEnd (s : string) : string :=
  match s with
  | String c s' =>
      match trimEnd s' with
      | EmptyString => if is_space c then EmptyString else String c EmptyString
      | t => String c t
      end
  | EmptyString => EmptyString
  end.

Definition trim (s : string) : string := trimEnd (trimStart s).

(** Truthiness of a string: every string but the empty one. *)
Definition truthy (s : string) : bool :=
  match s with EmptyString => false | _ => true end.

(** [s.split(',')]. *)
Fixpoint split_on (sep : ascii) (s : string) : list string :=
  match s with
  | EmptyString => [EmptyString]
  | String c s' =>
      if Ascii.eqb c sep then EmptyString :: split_on sep s'
      else match split_on sep s' with
           | l :: ls => String c l :: ls
           | [] => [String c EmptyString]
           end
  end.

(** [s.split(/\r?\n/)]: a line feed, with the carriage return before it
    when there is one, separates; a lone carriage return does not. *)
Fixpoint split_lines (s : string) : list string :=
  match s with
  | EmptyString => [EmptyString]
  | String c s' =>
      if Ascii.eqb c LF then EmptyString :: split_lines s'
      else
        match s' with
        | String c' s'' =>
            if Ascii.eqb c CR && Ascii.eqb c' LF
            then EmptyString :: split_lines s''
            else match split_lines s' with
                 | l :: ls => String c l :: ls
                 | [] => [String c EmptyString]
                 end
        | EmptyString => [String c EmptyString]
        end
  end.

(** [toLowerCase] on code units below 256: the letters A-Z and the
    Latin-1 capitals 192-222 but 215 move up by 32. *)
Definition lower_char (c : ascii) : ascii :=
  let n := nat_of_ascii c in
  if (((65 <=? n) && (n <=? 90)) ||
      ((192 <=? n) && (n <=? 222) && negb (n =? 215)))%nat
  then ascii_of_nat (n + 32) else c.

Fixpoint toLowerCase (s : string) : string :=
  match s with
  | EmptyString => EmptyString
  | String c s' => String (lower_char c) (toLowerCase s')
  end.

(** [a < b] on strings: lexicographic on code units. *)
Definition str_lt (a b : string) : bool := String.ltb a b.

(** [arr.findIndex(p)], [-1] when no element satisfies [p]. *)
Fixpoint findIndex_from {A} (p : A -> bool) (l : list A) (i : Z) : Z :=
  match l with
  | [] => (-1)%Z
  | x :: l' => if p x then i else findIndex_from p l' (i + 1)%Z
  end.

Definition findIndex {A} (p : A -> bool) (l : list A) : Z :=
  findIndex_from p l 0%Z.

(** [arr.join(sep)] on strings. *)
Fixpoint join (sep : string) (l : list string) : string :=
  match l with
  | [] => EmptyString
  | [x] => x
  | x :: l' => x +++ sep +++ join sep l'
  end.

End JS.

(** ** Regular expressions of the source

    The literals of the source use characters, [.], [?], alternation and
    the anchors; the flag [i] is on in each of them. *)

Module Regex.

Inductive regex : Type :=
| Eps : regex
| Chr : ascii -> regex            (* a pattern character, under [/i] *)
| Dot : regex                     (* [.] *)
| Seq : regex -> regex -> regex
| Alt : regex -> regex -> regex
| Opt : regex -> regex.           (* [r?] *)

(** [Canonicalize] of a non-unicode [/i] pattern, on what it can change
    for a match against an ASCII pattern character: a-z go to A-Z.  A
    code unit above 127 never canonicalizes to an ASCII one. *)
Definition canon (c : ascii) : ascii :=
  let n := nat_of_ascii c in
  if ((97 <=? n) && (n <=? 122))%nat then ascii_of_nat (n - 32) else c.

Definition chr_match (p a : ascii) : bool := Ascii.eqb (canon p) (canon a).

(** [.] matches every code unit but a line terminator. *)
Definition dot_match (a : ascii) : bool :=
  negb (Ascii.eqb a JS.LF || Ascii.eqb a JS.CR).

(** A backtracking matcher in continuation style: [run r s k] tries [r]
    on a prefix of [s] and hands the rest to [k]. *)
Fixpoint run (r : regex) (s : string) (k : string -> bool) : bool :=
  match r with
  | Eps => k s
  | Chr p => match s with
             | String a s' => chr_match p a && k s'
             | EmptyString => false
             end
  | Dot => match s with
           | String a s' => dot_match a && k s'
           | EmptyString => false
           end
  | Seq r1 r2 => run r1 s (fun s' => run r2 s' k)
  | Alt r1 r2 => run r1 s k || run r2 s k
  | Opt r1 => run r1 s k || k s
  end.

Definition is_empty (s : string) : bool :=
  match s with EmptyString => true | _ => false end.

(** [/^(r)$/i.test(s)] *)
Definition test_whole (r : regex) (s : string) : bool := run r s is_empty.

(** [/r/i.test(s)]: a match may start anywhere. *)
Fixpoint test (r : regex) (s : string) : bool :=
  run r s (fun _ => true) ||
  match s with
  | String _ s' => test r s'
  | EmptyString => false
  end.

(** The pattern of a word. *)
Fixpoint lit (w : string) : regex :=
  match w with
  | EmptyString => Eps
  | String c w' => Seq (Chr c) (lit w')
  end.

Fixpoint alts (rs : list regex) : regex :=
  match rs with
  | [] => Eps
  | [r] => r
  | r :: rs' => Alt r (alts rs')
  end.

(** The language of a pattern, as a relation. *)
Inductive matches : regex -> string -> Prop :=
| m_eps : matches Eps EmptyString
| m_chr p a : chr_match p a = true -> matches (Chr p) (String a EmptyString)
| m_dot a : dot_match a = true -> matches Dot (String a EmptyString)
| m_seq r1 r2 s1 s2 : matches r1 s1 -> matches r2 s2 -> matches (Seq r1 r2) (s1 +++ s2)
| m_alt_l r1 r2 s : matches r1 s -> matches (Alt r1 r2) s
| m_alt_r r1 r2 s : matches r2 s -> matches (Alt r1 r2) s
| m_opt_some r s : matches r s -> matches (Opt r) s
| m_opt_none r : matches (Opt r) EmptyString.

End Regex.

(** ** The delimited-text parser: [parseCSV] and [parseCSVLine] *)

Module Csv.
Import JS Regex.

(** [/^(name|full.?name|contact.?name|person)$/i] *)
Definition name_re : regex :=
  alts [ lit "name";
         Seq (lit "full") (Seq (Opt Dot) (lit "name"));
         Seq (lit "contact") (Seq (Opt Dot) (lit "name"));
         lit "person" ].

(** [/^(company|organization|org|company.?name|employer)$/i] *)
Definition company_re : regex :=
  alts [ lit "company";
         lit "organization";
         lit "org";
         Seq (lit "company") (Seq (Opt Dot) (lit "name"));
         lit "employer" ].

Definition is_quote (c : ascii) : bool :=
  Ascii.eqb c dquote || Ascii.eqb c squote.

Fixpoint drop_final_quote (s : string) : string :=
  match s with
  | EmptyString => EmptyString
  | String c EmptyString => if is_quote c then EmptyString else s
  | String c s' => String c (drop_final_quote s')
  end.

(** [h.replace(/^[dq sq]|[dq sq]$/g, '')]: a quote at the very start goes,
    and a quote at the very end of what follows goes. *)
Definition strip_quotes (h : string) : string :=
  match h with
  | String c h' => if is_quote c then drop_final_quote h' else drop_final_quote h
  | EmptyString => EmptyString
  end.

(** The loop of [parseCSVLine]; [line] is what is left to read, the
    other three arguments are the variables of the source. *)
Fixpoint scan (line : string) (result : list string) (current : string)
         (inQuotes : bool) : list string :=
  match line with
  | EmptyString => result ++ [current]
  | String ch rest =>
      if inQuotes then
        if Ascii.eqb ch dquote then
          match rest with
          | String ch' rest' =>
              if Ascii.eqb ch' dquote
              then scan rest' result (current +++ String dquote EmptyString) true
              else scan rest result current false
          | EmptyString => scan rest result current false
          end
        else scan rest result (current +++ String ch EmptyString) true
      else
        if Ascii.eqb ch dquote then scan rest result current true
        else if Ascii.eqb ch comma then scan rest (result ++ [current]) EmptyString false
        else scan rest result (current +++ String ch EmptyString) false
  end.

Definition parseCSVLine (line : string) : list string :=
  scan line [] EmptyString false.

(** A [ParsedRow]: the own properties of the object, in insertion order. *)
Definition ParsedRow : Type := list (string * string).

Fixpoint get (row : ParsedRow) (key : string) : option string :=
  match row with
  | [] => None
  | (k, v) :: row' => if String.eqb k key then Some v else get row' key
  end.

Fixpoint set (row : ParsedRow) (key v : string) : ParsedRow :=
  match row with
  | [] => [(key, v)]
  | (k, w) :: row' =>
      if String.eqb k key then (k, v) :: row' else (k, w) :: set row' key v
  end.

(** [row[h] = v].  The key [__proto__] reaches the setter of
    [Object.prototype], which drops a string: no property is written. *)
Definition assign (row : ParsedRow) (h v : string) : ParsedRow :=
  if String.eqb h "__proto__" then row else set row h v.

Definition field (row : ParsedRow) (key : string) : string :=
  match get row key with Some v => v | None => EmptyString end.

Definition row_name (row : ParsedRow) : string := field row "name".
Definition row_company (row : ParsedRow) : string := field row "company".

(** [idx >= 0 && idx < values.length ? values[idx].trim()
                                     : values[fallback]?.trim() ?? ''] *)
Definition pick (idx : Z) (values : list string) (fallback : nat) : string :=
  if ((0 <=? idx) && (idx <? Z.of_nat (List.length values)))%Z
  then trim (nth (Z.to_nat idx) values EmptyString)
  else match nth_error values fallback with
       | Some v => trim v
       | None => EmptyString
       end.

(** [headers.forEach((h, idx) => { if (idx < values.length) row[h] = values[idx].trim() })] *)
Fixpoint copy_headers (headers : list string) (idx : nat) (values : list string)
         (row : ParsedRow) : ParsedRow :=
  match headers with
  | [] => row
  | h :: hs =>
      copy_headers hs (S idx) values
        (if (idx <? List.length values)%nat
         then assign row h (trim (nth idx values EmptyString))
         else row)
  end.

Definition build_row (nameIdx companyIdx : Z) (headers values : list string) : ParsedRow :=
  copy_headers headers 0 values
    [ ("name", pick nameIdx values 0); ("company", pick companyIdx values 1) ].

(** One turn of the [for] loop over the data lines. *)
Definition data_line (nameIdx companyIdx : Z) (headers : list string)
           (rows : list ParsedRow) (line : string) : list ParsedRow :=
  let values := parseCSVLine line in
  if (List.length values =? 0)%nat then rows
  else
    let row := build_row nameIdx companyIdx headers values in
    if truthy (row_name row) || truthy (row_company row)
    then rows ++ [row] else rows.

Definition non_blank (l : string) : bool := (0 <? String.length (trim l))%nat.

Definition lines_of (text : string) : list string :=
  filter non_blank (split_lines text).

Definition headers_of (headerLine : string) : list string :=
  map (fun h => strip_quotes (trim h)) (split_on comma headerLine).

Definition nameIdx_of (headers : list string) : Z :=
  findIndex (test_whole name_re) headers.

Definition companyIdx_of (headers : list string) : Z :=
  findIndex (test_whole company_re) headers.

Definition parseCSV (text : string) : list ParsedRow :=
  let lines := lines_of text in
  if (List.length lines <? 2)%nat then []
  else
    match lines with
    | headerLine :: dataLines =>
        let headers := headers_of headerLine in
        fold_left (data_line (nameIdx_of headers) (companyIdx_of headers) headers)
                  dataLines []
    | [] => []
    end.

(** The escaping of [exportCSV]: [s.replace(/dq/g, dq dq)] between two
    quotes. *)
Fixpoint escape_quotes (s : string) : string :=
  match s with
  | EmptyString => EmptyString
  | String c s' =>
      if Ascii.eqb c dquote then String dquote (String dquote (escape_quotes s'))
      else String c (escape_quotes s')
  end.

Definition quoted (s : string) : string :=
  String dquote (escape_quotes s +++ String dquote EmptyString).

(** The line of the specification: [dq Acme, Inc. dq dq Global dq dq dq]. *)
Definition acme_line : string :=
  String dquote ("Acme, Inc." +++
    String dquote (String dquote ("Global" +++
      String dquote (String dquote (String dquote EmptyString))))).

Definition acme_field : string :=
  "Acme, Inc." +++ String dquote ("Global" +++ String dquote EmptyString).

End Csv.

(** ** Decoded agent responses

    Numbers are IEEE doubles in the runtime.  The pipeline only tests them
    for truthiness, prints them, reads them from text and rounds one
    percentage, so the model takes a number type with these operations. *)

Class JSNumber (number : Type) : Type := {
  num_truthy : number -> bool;          (* false on [0], [-0] and [NaN] *)
  num_toString : number -> string;      (* [String(n)] *)
  num_ofString : string -> number;      (* [Number(s)] *)
  num_ofNat : nat -> number;            (* a literal or a [length] *)
  num_nan : number;                     (* [NaN] *)
  num_percent : nat -> nat -> number    (* [Math.round(h / n * 100)], [n > 0] *)
}.

Module Json.
Import JS.

Section Shapes.
Context {number : Type} {NUM : JSNumber number}.

(** One level of a value: what [typeof], [Array.isArray] and property
    reads can see.  [V] is the type of the values below it: a tree for a
    decoded JSON text, the addresses of a heap for objects that may
    refer to themselves.  [props] lists the own properties of an object
    in the order of [Object.keys]. *)
Inductive shape (V : Type) : Type :=
| SNull : shape V
| SBool : bool -> shape V
| SNum : number -> shape V
| SStr : string -> shape V
| SArr : list V -> shape V
| SObj : list (string * V) -> shape V.

(** A decoded JSON text. *)
Inductive value : Type :=
| VNull : value
| VBool : bool -> value
| VNum : number -> value
| VStr : string -> value
| VArr : list value -> value
| VObj : list (string * value) -> value.

Definition view_value (v : value) : shape value :=
  match v with
  | VNull => SNull value
  | VBool b => SBool value b
  | VNum n => SNum value n
  | VStr s => SStr value s
  | VArr items => SArr value items
  | VObj props => SObj value props
  end.

Section Reads.
Context {V : Type}.

(** [!!x] *)
Definition truthy (s : shape V) : bool :=
  match s with
  | SNull _ => false
  | SBool _ b => b
  | SNum _ n => num_truthy n
  | SStr _ str => JS.truthy str
  | SArr _ _ | SObj _ _ => true
  end.

(** [typeof x === 'object'] *)
Definition typeof_object (s : shape V) : bool :=
  match s with
  | SNull _ | SArr _ _ | SObj _ _ => true
  | _ => false
  end.

Definition is_null (s : shape V) : bool :=
  match s with SNull _ => true | _ => false end.

(** The key of the element [i] of an array. *)
Definition index_key (i : nat) : string :=
  NilEmpty.string_of_uint (Nat.to_uint i).

Fixpoint indexed (i : nat) (items : list V) : list (string * V) :=
  match items with
  | [] => []
  | x :: items' => (index_key i, x) :: indexed (S i) items'
  end.

(** The own enumerable properties, in the order of [Object.keys]. *)
Definition entries (s : shape V) : list (string * V) :=
  match s with
  | SObj _ props => props
  | SArr _ items => indexed 0 items
  | _ => []
  end.

Definition keys (s : shape V) : list string := map fst (entries s).

Fixpoint assoc (key : string) (props : list (string * V)) : option V :=
  match props with
  | [] => None
  | (k, v) :: props' => if String.eqb k key then Some v else assoc key props'
  end.

(** [x[key]] on a value that is not [null]; [None] is [undefined].
    The source reads fixed names and the keys of [Object.keys], never
    [length] or an inherited property. *)
Definition get_prop (s : shape V) (key : string) : option V :=
  assoc key (entries s).

(** [key in x] *)
Definition has_prop (s : shape V) (key : string) : bool :=
  match get_prop s key with Some _ => true | None => false end.
End Reads.
End Shapes.

Arguments shape : clear implicits.
Arguments value : clear implicits.
Arguments SNull {number V}.
Arguments SBool {number V} _.
Arguments SNum {number V} _.
Arguments SStr {number V} _.
Arguments SArr {number V} _.
Arguments SObj {number V} _.

End Json.

(** ** The deep extraction: [deepExtractEnrichedData] *)

Module Extract.
Import Json.

(** [{ enriched, summary, artifacts }]; [summary] is [None] for [null]. *)
Record ExtractionResult (V : Type) : Type := mkResult {
  enriched : list V;
  summary : option V;
  artifacts : list V
}.
Arguments mkResult {V} _ _ _.
Arguments enriched {V} _.
Arguments summary {V} _.
Arguments artifacts {V} _.

(** [{ enriched: [], summary: null, artifacts: [] }] *)
Definition empty {V : Type} : ExtractionResult V := mkResult [] None [].

Definition wrapperKeys : list string :=
  ["result"; "response"; "data"; "output"; "content"; "message"; "text"].

(** How many levels are left below [depth]: the guard is [depth > 10]. *)
Definition budget (depth : nat) : nat := 11 - depth.
Arguments budget : simpl never.

Section Engine.
Context {number : Type} {NUM : JSNumber number}.
Context {V : Type}.

(** What a value looks like one level down. *)
Variable view : V -> shape number V.

(** The lenient decoder of [@/lib/jsonParser], which is not part of the
    file: [None] stands for a throw. *)
Variable parseLLMJson : string -> option V.

(** [x ?? null] on a property read. *)
Definition or_null (x : option V) : option V :=
  match x with
  | Some v => if is_null (view v) then None else Some v
  | None => None
  end.

(** [Array.isArray(x) ? x : otherwise] on a property read. *)
Definition array_of (x : option V) : option (list V) :=
  match x with
  | Some v => match view v with SArr items => Some items | _ => None end
  | None => None
  end.

(** Direct match: [enriched_data] at this level. *)
Definition direct_match (obj : shape number V) : option (ExtractionResult V) :=
  match array_of (get_prop obj "enriched_data") with
  | Some items =>
      if (0 <? List.length items)%nat
      then Some (mkResult items
                   (or_null (get_prop obj "summary"))
                   (match array_of (get_prop obj "artifact_files") with
                    | Some files => files
                    | None => []
                    end))
      else None
  | None => None
  end.

(** An array of enrichment-like records. *)
Definition record_array (obj : shape number V) : option (ExtractionResult V) :=
  match obj with
  | SArr (first :: rest) =>
      let f := view first in
      if truthy f && typeof_object f
         && (has_prop f "name" || has_prop f "company")
         && (has_prop f "revenue" || has_prop f "sector" || has_prop f "decision_maker")
      then Some (mkResult (first :: rest) None [])
      else None
  | _ => None
  end.

(** The loop over the wrapper keys; [self] is the call one level down. *)
Fixpoint wrapper_probe (self : V -> ExtractionResult V) (obj : shape number V)
         (ks : list string) : option (ExtractionResult V) :=
  match ks with
  | [] => None
  | key :: ks' =>
      match or_null (get_prop obj key) with
      | Some v =>
          let inner := self v in
          if (0 <? List.length (enriched inner))%nat then Some inner
          else wrapper_probe self obj ks'
      | None => wrapper_probe self obj ks'
      end
  end.

(** The loop over [Object.keys(obj)] that looks for [enriched_data]. *)
Fixpoint key_scan (obj : shape number V) (ks : list string)
  : option (ExtractionResult V) :=
  match ks with
  | [] => None
  | key :: ks' =>
      if String.eqb key "enriched_data" then
        match array_of (get_prop obj key) with
        | Some items => Some (mkResult items (or_null (get_prop obj "summary")) [])
        | None => key_scan obj ks'
        end
      else key_scan obj ks'
  end.

(** The last loop over [Object.keys(obj)]: every object-typed value. *)
Fixpoint last_resort (self : V -> ExtractionResult V) (obj : shape number V)
         (ks : list string) : option (ExtractionResult V) :=
  match ks with
  | [] => None
  | key :: ks' =>
      match get_prop obj key with
      | Some v =>
          if typeof_object (view v) && negb (is_null (view v)) then
            let inner := self v in
            if (0 <? List.length (enriched inner))%nat then Some inner
            else last_resort self obj ks'
          else last_resort self obj ks'
      | None => last_resort self obj ks'
      end
  end.

Definition or_else {A : Type} (x : option A) (rest : option A) : option A :=
  match x with Some r => Some r | None => rest end.

(** The body of the function below its depth guard; every recursive
    call of the source is [deepExtractEnrichedData(_, depth + 1)], here
    [self]. *)
Definition extract_level (self : V -> ExtractionResult V) (obj : V)
  : ExtractionResult V :=
  let o := view obj in
  if negb (truthy o) then empty
  else
    match o with
    | SStr str =>
        match parseLLMJson str with
        | Some parsed =>
            if truthy (view parsed) && typeof_object (view parsed)
            then self parsed else empty
        | None => empty
        end
    | SArr _ | SObj _ =>
        match
          or_else (direct_match o)
          (or_else (record_array o)
          (or_else (wrapper_probe self o wrapperKeys)
          (or_else (key_scan o (keys o))
                   (last_resort self o (keys o)))))
        with
        | Some r => r
        | None => empty
        end
    | _ => empty
    end.

(** The level reads [self] and nothing else of the recursion: two
    functions that agree on every value give the same level. *)
Lemma wrapper_probe_ext (f g : V -> ExtractionResult V) (o : shape number V) :
  (forall v, f v = g v) ->
  forall ks, wrapper_probe f o ks = wrapper_probe g o ks.
Proof.
  intros Hfg. induction ks as [|key ks IH]; simpl; [reflexivity|].
  destruct (or_null (get_prop o key)); [|assumption].
  now rewrite Hfg, IH.
Qed.

Lemma last_resort_ext (f g : V -> ExtractionResult V) (o : shape number V) :
  (forall v, f v = g v) ->
  forall ks, last_resort f o ks = last_resort g o ks.
Proof.
  intros Hfg. induction ks as [|key ks IH]; simpl; [reflexivity|].
  destruct (get_prop o key); [|assumption].
  now rewrite Hfg, IH.
Qed.

Lemma extract_level_ext (f g : V -> ExtractionResult V) (obj : V) :
  (forall v, f v = g v) -> extract_level f obj = extract_level g obj.
Proof.
  intros Hfg. unfold extract_level.
  destruct (negb (truthy (view obj))); [reflexivity|].
  destruct (view obj); try reflexivity.
  - destruct (parseLLMJson s); [|reflexivity]. now rewrite Hfg.
  - now rewrite (wrapper_probe_ext f g _ Hfg), (last_resort_ext f g _ Hfg).
  - now rewrite (wrapper_probe_ext f g _ Hfg), (last_resort_ext f g _ Hfg).
Qed.

#[local] Unset Equations With Funext.
#[local] Set Warnings "-solve_obligation_error".

(** The function of the source.  The recursion is on the levels left under
    the guard: a call at [depth <= 10] makes its inner calls at
    [depth + 1].  The second proof below is the unfolding equation, from
    [extract_level_ext]. *)
Equations? deepExtractEnrichedData (obj : V) (depth : nat)
  : ExtractionResult V by wf (budget depth) lt :=
  deepExtractEnrichedData obj depth with le_lt_dec depth 10 := {
    | left _ =>
        extract_level (fun inner => deepExtractEnrichedData inner (depth + 1)) obj
    | right _ => empty
  }.
Proof. unfold budget. lia. Qed.
Next Obligation.
  unfold deepExtractEnrichedData. Subterm.unfold_recursor.
  - destruct (le_lt_dec x0 10); simpl; [|reflexivity].
    apply extract_level_ext. intros v. apply H0.
  - unfold deepExtractEnrichedData_unfold.
    destruct (le_lt_dec depth 10); reflexivity.
Defined.

End Engine.
End Extract.

(** ** The canonical record, the normalizer and the summary of [handleEnrich] *)

Module Records.

Record EnrichedRecord : Type := mkRecord {
  name : string;
  company : string;
  revenue : string;
  sector : string;
  decision_maker : string;
  job_title : string;
  confidence : string
}.

Definition SAMPLE_ENRICHED : list EnrichedRecord :=
  [ mkRecord "Sarah Chen" "TechFlow Inc" "$45M" "Enterprise SaaS" "Yes"
             "VP of Engineering" "High";
    mkRecord "Marcus Johnson" "DataVault Systems" "$120M" "Data Infrastructure" "Yes"
             "CTO" "High";
    mkRecord "Elena Rodriguez" "CloudBridge Solutions" "$28M" "Cloud Computing" "No"
             "Senior Developer" "Low";
    mkRecord "James Park" "NexGen Analytics" "$75M" "Business Intelligence" "Yes"
             "Director of Product" "High";
    mkRecord "Priya Sharma" "InnoWave Corp" "$15M" "IoT Solutions" "No"
             "Data Analyst" "Low" ].

End Records.

Module Normalize.
Import Json Records.

(** The next step runs when the one before it did not throw. *)
Local Notation "x <- a ;; b" :=
  (match a with Some x => b | None => None end)
  (at level 61, a at next level, right associativity).

Section Normalizer.
Context {number : Type} {NUM : JSNumber number}.

Abbreviation value := (Json.value number).

(** [l.map(f)] for a callback that may throw: the first throw ends it. *)
Fixpoint traverse {A B : Type} (f : A -> option B) (l : list A) : option (list B) :=
  match l with
  | [] => Some []
  | x :: l' =>
      match f x with
      | Some y => option_map (cons y) (traverse f l')
      | None => None
      end
  end.

(** [String(v)]; [None] is the [TypeError] of the conversion to a
    primitive.  The values are decoded data, so no property holds a
    function and every object has the default prototype.  An array prints
    through the inherited [join]: its elements joined by commas, with
    [null] printed as nothing, and the conversion of an element may throw
    in its turn.  An object with an own property [toString] hides the
    inherited method behind a value that cannot be called, and the
    inherited [valueOf] returns the object itself, so no primitive is
    reached and the conversion throws; an object without it prints as a
    fixed text. *)
Fixpoint to_String (v : value) : option string :=
  match v with
  | VNull => Some "null"
  | VBool b => Some (if b then "true" else "false")
  | VNum n => Some (num_toString n)
  | VStr s => Some s
  | VArr items =>
      option_map (JS.join ",")
        (traverse (fun x => match x with
                            | VNull => Some EmptyString
                            | _ => to_String x
                            end) items)
  | VObj props =>
      match assoc "toString" props with
      | Some _ => None
      | None => Some "[object Object]"
      end
  end.

(** [r.a1 ?? r.a2 ?? ...]: the first alias whose value is neither
    [undefined] nor [null]. *)
Fixpoint first_present (r : value) (aliases : list string) : option value :=
  match aliases with
  | [] => None
  | a :: rest =>
      match get_prop (view_value r) a with
      | Some v => if is_null (view_value v) then first_present r rest else Some v
      | None => first_present r rest
      end
  end.

(** [String(r.a1 ?? r.a2 ?? ... ?? default)]; [None] when [String]
    throws. *)
Definition coalesce (r : value) (aliases : list string) (default : string)
  : option string :=
  match first_present r aliases with
  | Some v => to_String v
  | None => Some default
  end.

Definition name_aliases : list string :=
  ["name"; "person_name"; "contact_name"; "full_name"].
Definition company_aliases : list string :=
  ["company"; "company_name"; "organization"].
Definition revenue_aliases : list string :=
  ["revenue"; "company_revenue"; "annual_revenue"].
Definition sector_aliases : list string :=
  ["sector"; "industry"; "company_sector"].
Definition decision_maker_aliases : list string :=
  ["decision_maker"; "is_decision_maker"; "decisionMaker"].
Definition job_title_aliases : list string :=
  ["job_title"; "title"; "role"; "position"; "jobTitle"].
Definition confidence_aliases : list string :=
  ["confidence"; "confidence_level"; "confidenceLevel"].

(** The callback of [extracted.enriched.map]; [None] is a throw: reading
    a property of [null] throws, and so does [String] on a value that has
    no text. *)
Definition normalize (r : value) : option EnrichedRecord :=
  match r with
  | VNull => None
  | _ =>
      n <- coalesce r name_aliases EmptyString;;
      c <- coalesce r company_aliases EmptyString;;
      v <- coalesce r revenue_aliases "N/A";;
      s <- coalesce r sector_aliases "N/A";;
      d <- coalesce r decision_maker_aliases "N/A";;
      j <- coalesce r job_title_aliases "N/A";;
      k <- coalesce r confidence_aliases "Low";;
      Some {| name := n; company := c; revenue := v; sector := s;
              decision_maker := d; job_title := j; confidence := k |}
  end.

Fixpoint normalizedEnriched (rs : list value) : option (list EnrichedRecord) :=
  match rs with
  | [] => Some []
  | r :: rs' =>
      match normalize r with
      | Some e => option_map (cons e) (normalizedEnriched rs')
      | None => None
      end
  end.

Record EnrichmentSummary : Type := mkSummary {
  total_records : number;
  decision_makers_found : number;
  low_confidence_count : number;
  high_confidence_rate : string
}.

(** [Number(x)] on a property read; [None] is a throw.  An array or an
    object is first converted to a primitive: the inherited [valueOf]
    returns the value itself (an own [valueOf] cannot be called), so the
    conversion goes on to [toString], as [String] does, and throws where
    [String] throws. *)
Definition Number (x : option value) : option number :=
  match x with
  | None => Some num_nan
  | Some VNull => Some (num_ofNat 0)
  | Some (VBool b) => Some (num_ofNat (if b then 1 else 0))
  | Some (VNum n) => Some n
  | Some (VStr s) => Some (num_ofString s)
  | Some v => option_map num_ofString (to_String v)
  end.

(** [n || fallback] *)
Definition or_number (n fallback : number) : number :=
  if num_truthy n then n else fallback.

(** [String(x ?? fallback)] on a property read. *)
Definition text_or (x : option value) (fallback : string) : option string :=
  match x with
  | Some v => if is_null (view_value v) then Some fallback else to_String v
  | None => Some fallback
  end.

(** The object built from a supplied summary; [None] when one of the four
    conversions throws. *)
Definition supplied_summary (summaryData : value) (normalized : list EnrichedRecord)
  : option EnrichmentSummary :=
  let read := get_prop (view_value summaryData) in
  t <- Number (read "total_records");;
  d <- Number (read "decision_makers_found");;
  l <- Number (read "low_confidence_count");;
  h <- text_or (read "high_confidence_rate") "0%";;
  Some {| total_records := or_number t (num_ofNat (List.length normalized));
          decision_makers_found := or_number d (num_ofNat 0);
          low_confidence_count := or_number l (num_ofNat 0);
          high_confidence_rate := h |}.

Definition count (re : Regex.regex) (f : EnrichedRecord -> string)
           (normalized : list EnrichedRecord) : nat :=
  List.length (filter (fun r => Regex.test re (f r)) normalized).

Definition derived_summary (normalized : list EnrichedRecord) : EnrichmentSummary :=
  {| total_records := num_ofNat (List.length normalized);
     decision_makers_found :=
       num_ofNat (count (Regex.lit "yes") decision_maker normalized);
     low_confidence_count :=
       num_ofNat (count (Regex.lit "low") confidence normalized);
     high_confidence_rate :=
       if (0 <? List.length normalized)%nat
       then num_toString
              (num_percent (count (Regex.lit "high") confidence normalized)
                           (List.length normalized)) +++ "%"
       else "0%" |}.

(** The argument of [setSummary]; [None] when its evaluation throws. *)
Definition summary_of (summaryData : option value) (normalized : list EnrichedRecord)
  : option EnrichmentSummary :=
  match summaryData with
  | Some sd =>
      if truthy (view_value sd) then supplied_summary sd normalized
      else Some (derived_summary normalized)
  | None => Some (derived_summary normalized)
  end.

End Normalizer.
End Normalize.

(** ** The artifact locator: [extractArtifactFiles] *)

Module Artifacts.
Import Json.

Section Locator.
Context {number : Type} {NUM : JSNumber number}.

Abbreviation value := (Json.value number).

(** [JSON.parse]; [None] stands for a throw. *)
Variable JSON_parse : string -> option value.

(** [x?.key], and [x.key] where [x] is known not to be [null]. *)
Definition opt_get (x : option value) (key : string) : option value :=
  match x with
  | Some v => if is_null (view_value v) then None else get_prop (view_value v) key
  | None => None
  end.

(** [x?.module_outputs?.artifact_files] when it is an array. *)
Definition files_under (x : option value) : option (list value) :=
  Extract.array_of view_value (opt_get (opt_get x "module_outputs") "artifact_files").

Definition non_empty (x : option (list value)) : option (list value) :=
  match x with
  | Some files => if (0 <? List.length files)%nat then Some files else None
  | None => None
  end.

Definition extractArtifactFiles (result : value) : list value :=
  if negb (truthy (view_value result)) then []
  else
    match non_empty (files_under (Some result)) with
    | Some files => files
    | None =>
        match non_empty (files_under (opt_get (Some result) "response")) with
        | Some files => files
        | None =>
            match opt_get (Some result) "raw_response" with
            | Some (VStr text) =>
                if JS.truthy text then
                  match JSON_parse text with
                  | Some raw =>
                      match files_under (Some raw) with
                      | Some files => files
                      | None =>
                          match files_under (opt_get (Some raw) "response") with
                          | Some files => files
                          | None => []
                          end
                      end
                  | None => []
                  end
                else []
            | _ => []
            end
        end
    end.

End Locator.
End Artifacts.

(** ** The query engine: [getFilteredData] *)

Module Query.
Import Records.

Inductive FilterMode : Type := all | low_confidence | decision_makers.

Inductive SortField : Type :=
| by_name | by_company | by_revenue | by_sector
| by_confidence | by_job_title | by_decision_maker.

Inductive SortDir : Type := asc | desc.

Inductive View : Type := upload | results.

(** [r[sortField]] *)
Definition field_of (f : SortField) (r : EnrichedRecord) : string :=
  match f with
  | by_name => name r
  | by_company => company r
  | by_revenue => revenue r
  | by_sector => sector r
  | by_confidence => confidence r
  | by_job_title => job_title r
  | by_decision_maker => decision_maker r
  end.

(** The callback of [filtered.sort]. *)
Definition comparator (sortField : SortField) (sortDir : SortDir)
           (a b : EnrichedRecord) : Z :=
  let aVal := JS.toLowerCase (field_of sortField a) in
  let bVal := JS.toLowerCase (field_of sortField b) in
  if JS.str_lt aVal bVal then match sortDir with asc => (-1)%Z | desc => 1%Z end
  else if JS.str_lt bVal aVal then match sortDir with asc => 1%Z | desc => (-1)%Z end
  else 0%Z.

(** [Array.prototype.sort] is stable; with a comparator that is a total
    preorder its result is the one stable arrangement, which a stable
    insertion computes.  [place cmp x l] puts [x], which stood before
    all of [l], in front of the first element it does not come after. *)
Fixpoint place {A : Type} (cmp : A -> A -> Z) (x : A) (l : list A) : list A :=
  match l with
  | [] => [x]
  | y :: l' => if (cmp x y <=? 0)%Z then x :: l else y :: place cmp x l'
  end.

Fixpoint sort {A : Type} (cmp : A -> A -> Z) (l : list A) : list A :=
  match l with
  | [] => []
  | x :: l' => place cmp x (sort cmp l')
  end.

Definition keep (filterMode : FilterMode) (r : EnrichedRecord) : bool :=
  match filterMode with
  | all => true
  | low_confidence => Regex.test (Regex.lit "low") (confidence r)
  | decision_makers => Regex.test (Regex.lit "yes") (decision_maker r)
  end.

(** The filter and the sort of [getFilteredData] on a collection. *)
Definition filter_sort (filterMode : FilterMode) (sortField : SortField)
           (sortDir : SortDir) (data : list EnrichedRecord) : list EnrichedRecord :=
  sort (comparator sortField sortDir) (filter (keep filterMode) data).

(** The state the callback closes over. *)
Record session : Type := mkSession {
  sampleMode : bool;
  view : View;
  enrichedData : list EnrichedRecord;
  filterMode : FilterMode;
  sortField : SortField;
  sortDir : SortDir
}.

Definition getFilteredData (st : session) : list EnrichedRecord :=
  let data :=
    if sampleMode st
       && match view st with results => true | upload => false end
       && (List.length (enrichedData st) =? 0)%nat
    then SAMPLE_ENRICHED else enrichedData st in
  filter_sort (filterMode st) (sortField st) (sortDir st) data.

End Query.

(** ** File handling: [validateFile] and [processFile] *)

Module Upload.
Import JS Csv.

(** What the page reads of a [File]. *)
Record File : Type := mkFile {
  file_name : string;
  file_size : Z
}.

Definition ACCEPTED_EXTENSIONS : list string := [".csv"; ".xlsx"; ".xls"].

(** [s.endsWith(suffix)] *)
Definition endsWith (s suffix : string) : bool :=
  let n := String.length s in
  let m := String.length suffix in
  (m <=? n)%nat && String.eqb (substring (n - m) m s) suffix.

(** The upload state of the page. *)
Record upload_state : Type := mkUpload {
  selectedFile : option File;
  previewRows : list ParsedRow;
  totalRowCount : Z;
  fileError : option string
}.

Definition setFileError (e : option string) (st : upload_state) : upload_state :=
  mkUpload (selectedFile st) (previewRows st) (totalRowCount st) e.

Definition invalid_format : string :=
  "Invalid file format. Please upload a .csv, .xlsx, or .xls file.".
Definition too_large : string := "File too large. Maximum size is 10MB.".
Definition unreadable : string := "Could not read file contents.".
Definition no_rows : string :=
  "No data rows found. Make sure your CSV has Name and Company columns.".
Definition read_error : string := "Error reading file.".

Definition validateFile (file : File) (st : upload_state) : bool * upload_state :=
  let name := toLowerCase (file_name file) in
  let validExt := existsb (fun ext => endsWith name ext) ACCEPTED_EXTENSIONS in
  if negb validExt then (false, setFileError (Some invalid_format) st)
  else if (file_size file >? 10 * 1024 * 1024)%Z
       then (false, setFileError (Some too_large) st)
       else (true, setFileError None st).

(** The synchronous part of [processFile]; the boolean tells whether a read
    of the file as text was started. *)
Definition processFile (file : File) (st : upload_state) : upload_state * bool :=
  let (ok, st1) := validateFile file st in
  if negb ok then (st1, false)
  else
    let st2 := mkUpload (Some file) (previewRows st1) (totalRowCount st1) None in
    if endsWith (toLowerCase (file_name file)) ".csv" then (st2, true)
    else (mkUpload (selectedFile st2) [] (-1)%Z (fileError st2), false).

(** [reader.onload], on the text that was read. *)
Definition onload (text : string) (st : upload_state) : upload_state :=
  if negb (truthy text) then setFileError (Some unreadable) st
  else
    let rows := parseCSV text in
    if (List.length rows =? 0)%nat then setFileError (Some no_rows) st
    else mkUpload (selectedFile st) (firstn 10 rows)
                  (Z.of_nat (List.length rows)) (fileError st).

(** [reader.onerror] *)
Definition onerror (st : upload_state) : upload_state :=
  setFileError (Some read_error) st.

End Upload.

(** ** The export: [exportCSV], and the sort header: [handleSort] *)

Module CsvExport.
Import JS Csv Records Query.

Definition export_headers : list string :=
  ["Name"; "Company"; "Revenue"; "Sector"; "Decision Maker"; "Job Title"; "Confidence"].

(** The fields of a record in the order of the columns. *)
Definition columns (r : EnrichedRecord) : list string :=
  [name r; company r; revenue r; sector r; decision_maker r; job_title r; confidence r].

Definition comma_text : string := String comma EmptyString.
Definition LF_text : string := String LF EmptyString.

(** One pushed line: every field between quotes with its quotes doubled,
    joined by commas. *)
Definition export_row (r : EnrichedRecord) : string :=
  join comma_text (map quoted (columns r)).

(** [csvRows.join('\n')] *)
Definition export_text (data : list EnrichedRecord) : string :=
  join LF_text (join comma_text export_headers :: map export_row data).

(** The content of the file that [exportCSV] offers; [None] when it
    returns without one. *)
Definition exportCSV (st : session) : option string :=
  let data := getFilteredData st in
  if (List.length data =? 0)%nat then None else Some (export_text data).

Definition sort_field_eqb (a b : SortField) : bool :=
  match a, b with
  | by_name, by_name | by_company, by_company | by_revenue, by_revenue
  | by_sector, by_sector | by_confidence, by_confidence
  | by_job_title, by_job_title | by_decision_maker, by_decision_maker => true
  | _, _ => false
  end.

Definition handleSort (field : SortField) (st : session) : session :=
  if sort_field_eqb (sortField st) field
  then mkSession (sampleMode st) (view st) (enrichedData st) (filterMode st)
                 (sortField st)
                 (match sortDir st with asc => desc | desc => asc end)
  else mkSession (sampleMode st) (view st) (enrichedData st) (filterMode st)
                 field asc.

(** [handleNewEnrichment], on the part of the state that the table and the
    export read. *)
Definition handleNewEnrichment (st : session) : session :=
  mkSession (sampleMode st) upload [] all by_name asc.

End CsvExport.

(** ** After the agent call: the views of the response and the outcome of
    [handleEnrich] *)

Module Pipeline.
Import Json Extract Normalize Records Artifacts.

Section Outcome.
Context {number : Type} {NUM : JSNumber number}.

Abbreviation value := (Json.value number).

Variable parseLLMJson : string -> option value.
Variable JSON_parse : string -> option value.

(** [JSON.stringify(v, null, 2)] on a value that is not a text. *)
Variable JSON_stringify : value -> string.

Definition truthy_value (v : value) : bool := truthy (view_value v).

(** The decoded [raw_response], when there is one to push. *)
Definition raw_source (result : value) : list (option value) :=
  match opt_get (Some result) "raw_response" with
  | Some (VStr raw) =>
      if JS.truthy raw then
        match parseLLMJson raw with
        | Some rawParsed => if truthy_value rawParsed then [Some rawParsed] else []
        | None => []
        end
      else []
  | _ => []
  end.

(** [sources]; [None] is [undefined]. *)
Definition sources_of (result : value) : list (option value) :=
  [ opt_get (opt_get (Some result) "response") "result";
    opt_get (Some result) "response";
    Some result ] ++ raw_source result.

Definition productive (r : ExtractionResult value) : bool :=
  (0 <? List.length (enriched r))%nat.

(** The loop over the sources; [extracted] is the variable of the source. *)
Fixpoint extract_loop (sources : list (option value))
         (extracted : ExtractionResult value) : ExtractionResult value :=
  match sources with
  | [] => extracted
  | source :: rest =>
      match source with
      | Some v =>
          if truthy_value v then
            let e := deepExtractEnrichedData view_value parseLLMJson v 0 in
            if productive e then e else extract_loop rest e
          else extract_loop rest extracted
      | None => extract_loop rest extracted
      end
  end.

Definition extracted_of (result : value) : ExtractionResult value :=
  extract_loop (sources_of result) empty.

(** [a ?? b] *)
Definition nullish_or (a b : option value) : option value :=
  match a with
  | Some v => if is_null (view_value v) then b else a
  | None => b
  end.

(** [typeof x === 'string' ? x : ''] *)
Definition string_or_empty (x : option value) : option value :=
  match x with
  | Some (VStr s) => Some (VStr s)
  | _ => Some (VStr EmptyString)
  end.

(** [responseText] *)
Definition responseText (result : value) : option value :=
  let response := opt_get (Some result) "response" in
  nullish_or
    (nullish_or (opt_get response "message")
                (string_or_empty (opt_get response "result")))
    (string_or_empty (opt_get (opt_get response "result") "text")).

Definition truthy_opt (x : option value) : bool :=
  match x with Some v => truthy_value v | None => false end.

(** [typeof responseText === 'string' ? responseText :
    JSON.stringify(responseText, null, 2)] *)
Definition shown_text (responseText : value) : string :=
  match responseText with
  | VStr s => s
  | v => JSON_stringify v
  end.

(** What the page holds when [handleEnrich] is done with a response. *)
Record report : Type := mkReport {
  enrichedData : list EnrichedRecord;
  summary : @EnrichmentSummary number;
  artifactFiles : list value;
  shows_results : bool;              (* [setView('results')] was called *)
  statusMessage : option string;
  errorMessage : option string;
  rawResponse : option string        (* the text handed to [setRawResponseText] *)
}.

(** How [handleEnrich] ends.  A throw inside the [try] ends in the [catch],
    which reports an unexpected error with the message of the engine; when
    the throw comes after [setEnrichedData], the records handed to it stay
    set. *)
Inductive outcome : Type :=
| Failed : string -> outcome        (* the agent reported a failure *)
| Thrown : option (list EnrichedRecord) -> outcome
| Done : report -> outcome.

Definition decimal (n : nat) : string := NilEmpty.string_of_uint (Nat.to_uint n).

Definition parse_failed : string :=
  "Agent responded but could not parse structured enrichment data. Check the response below.".
Definition nothing_returned : string :=
  "No enrichment data was returned. The agent may not have processed the file correctly. Please try again.".

(** [handleEnrich] from the answer of the agent on.  Reading [success]
    from [null] throws; the failure message is built with [+], which
    converts [result.error] as [String] does; the argument of [setSummary]
    is evaluated after [setEnrichedData]. *)
Definition interpret (result : value) : outcome :=
  match result with
  | VNull => Thrown None
  | _ =>
      if negb (truthy_opt (opt_get (Some result) "success")) then
        match nullish_or (opt_get (Some result) "error") None with
        | Some e =>
            match to_String e with
            | Some t => Failed ("Enrichment failed: " +++ t)
            | None => Thrown None
            end
        | None => Failed "Enrichment failed: Unknown error"
        end
      else
        let extracted := extracted_of result in
        let files := extractArtifactFiles JSON_parse result in
        match normalizedEnriched (enriched extracted) with
        | None => Thrown None
        | Some normalized =>
            match summary_of (Extract.summary extracted) normalized with
            | None => Thrown (Some normalized)
            | Some s =>
                if (0 <? List.length normalized)%nat then
                  Done (mkReport normalized s files true
                          (Some ("Successfully enriched "
                                 +++ decimal (List.length normalized) +++ " records."))
                          None None)
                else
                  match responseText result with
                  | Some chosen =>
                      if truthy_value chosen then
                        Done (mkReport normalized s files true (Some parse_failed) None
                                (Some (shown_text chosen)))
                      else
                        Done (mkReport normalized s files false None
                                (Some nothing_returned) None)
                  | None =>
                      Done (mkReport normalized s files false None
                              (Some nothing_returned) None)
                  end
            end
        end
  end.

End Outcome.
End Pipeline.

(** ** The markdown renderer: [renderMarkdown] and [formatInline] *)

Module Markdown.
Import JS.

Definition star : ascii := "*"%char.

(** The lazy [(.*?)] followed by two stars, tried on what follows the two
    opening stars: the capture and what is left after the closing stars.
    The capture grows one character at a time, and a line terminator stops
    it. *)
Fixpoint find_close (s : string) : option (string * string) :=
  match s with
  | EmptyString => None
  | String c s' =>
      match s' with
      | String c' after =>
          if Ascii.eqb c star && Ascii.eqb c' star then Some (EmptyString, after)
          else if Regex.dot_match c then
                 match find_close s' with
                 | Some (cap, rest) => Some (String c cap, rest)
                 | None => None
                 end
               else None
      | EmptyString => None
      end
  end.

(** A match of the pattern of [formatInline] at the start of [s]. *)
Definition match_bold (s : string) : option (string * string) :=
  match s with
  | String c (String c' r) =>
      if Ascii.eqb c star && Ascii.eqb c' star then find_close r else None
  | _ => None
  end.

Definition inspect {A : Type} (a : A) : {b : A | a = b} := exist _ a eq_refl.

Lemma find_close_shorter (s cap after : string) :
  find_close s = Some (cap, after) -> String.length after < String.length s.
Proof.
  revert cap after. induction s as [|c s IH]; intros cap after; simpl; [discriminate|].
  destruct s as [|c' r]; [discriminate|].
  destruct (Ascii.eqb c star && Ascii.eqb c' star).
  - intros H. injection H as <- <-. simpl. lia.
  - destruct (Regex.dot_match c); [|discriminate].
    destruct (find_close (String c' r)) as [[cap' rest]|] eqn:E; [|discriminate].
    intros H. injection H as <- <-. specialize (IH cap' rest eq_refl). simpl in *. lia.
Qed.

Lemma match_bold_shorter (s cap after : string) :
  match_bold s = Some (cap, after) -> String.length after < String.length s.
Proof.
  destruct s as [|c [|c' r]]; simpl; try discriminate.
  destruct (Ascii.eqb c star && Ascii.eqb c' star); [|discriminate].
  intros H. apply find_close_shorter in H. lia.
Qed.

(** [text.split(/\*\*(.*?)\*\*/g)]: the walk over the positions of the
    text.  [rest] is the text from the position on and [pending] the text
    since the end of the last match.  A match at the position closes the
    pending part and adds the capture; otherwise the position moves on by
    one. *)
#[local] Unset Equations With Funext.

Equations? split_bold (rest : string) (pending : string) : list string
  by wf (String.length rest) lt :=
  split_bold EmptyString pending := [pending];
  split_bold (String c rest') pending with inspect (match_bold (String c rest')) := {
    | exist _ (Some (cap, after)) _ => pending :: cap :: split_bold after EmptyString
    | exist _ None _ => split_bold rest' (pending +++ String c EmptyString)
  }.
Proof. now apply (match_bold_shorter (String c rest') cap after). Qed.

(** A piece of a line: text, or text in [strong]. *)
Inductive inline : Type :=
| Plain : string -> inline
| Strong : string -> inline.

(** The parts at the odd places go in [strong]. *)
Fixpoint mark (parts : list string) : list inline :=
  match parts with
  | [] => []
  | [p] => [Plain p]
  | p :: b :: parts' => Plain p :: Strong b :: mark parts'
  end.

(** [formatInline]; a text in one part is returned as it is. *)
Definition formatInline (text : string) : list inline :=
  let parts := split_bold text EmptyString in
  if (List.length parts =? 1)%nat then [Plain text] else mark parts.

(** The element a line is rendered as. *)
Inductive block : Type :=
| H4 : string -> block
| H3 : string -> block
| H2 : string -> block
| Bullet : list inline -> block
| Numbered : list inline -> block
| Spacer : block
| Paragraph : list inline -> block.

(** [line.startsWith(p)] *)
Definition startsWith (line p : string) : bool := String.prefix p line.

(** [line.slice(n)] *)
Fixpoint slice (n : nat) (line : string) : string :=
  match n, line with
  | S n', String _ line' => slice n' line'
  | _, _ => line
  end.

Definition is_digit (c : ascii) : bool :=
  let n := nat_of_ascii c in ((48 <=? n) && (n <=? 57))%nat.

(** What is left of [s] after a full stop and a white space. *)
Definition after_stop (s : string) : option string :=
  match s with
  | String c (String c' r) =>
      if Ascii.eqb c "."%char && is_space c' then Some r else None
  | _ => None
  end.

(** What is left after the digits that [\d+] takes: all of them, since a
    full stop has to follow. *)
Fixpoint after_digits (s : string) : option string :=
  match s with
  | String c s' =>
      if is_digit c then
        match after_digits s' with
        | Some r => Some r
        | None => after_stop s'
        end
      else None
  | EmptyString => None
  end.

(** [line.replace(/^\d+\.\s/, '')] when [/^\d+\.\s/.test(line)]. *)
Definition numbered_item (line : string) : option string := after_digits line.

Definition render_line (line : string) : block :=
  if startsWith line "### " then H4 (slice 4 line)
  else if startsWith line "## " then H3 (slice 3 line)
  else if startsWith line "# " then H2 (slice 2 line)
  else if startsWith line "- " || startsWith line "* "
       then Bullet (formatInline (slice 2 line))
  else match numbered_item line with
       | Some item => Numbered (formatInline item)
       | None =>
           if negb (truthy (trim line)) then Spacer
           else Paragraph (formatInline line)
       end.

(** [renderMarkdown]; [None] is [null]. *)
Definition renderMarkdown (text : string) : option (list block) :=
  if negb (truthy text) then None
  else Some (map render_line (split_on LF text)).

End Markdown.

(** ** A number runtime to run the model on examples

    Integers and [NaN]: exact on the integer literals and counts the
    examples use.  Texts of other numerals read as [NaN] here, and the
    percentage is the exact quotient rounded half up, where the engine
    rounds a double.  The theorems hold for every runtime and use this one
    in their examples only. *)

Module IntRuntime.

Definition number : Type := option Z.

Definition is_digit (c : ascii) : bool :=
  let n := nat_of_ascii c in ((48 <=? n) && (n <=? 57))%nat.

Fixpoint all_digits (s : string) : bool :=
  match s with
  | EmptyString => true
  | String c s' => is_digit c && all_digits s'
  end.

Definition digits_value (s : string) : number :=
  match s with
  | EmptyString => None
  | _ => if all_digits s
         then option_map (fun u => Z.of_N (N.of_uint u)) (NilEmpty.uint_of_string s)
         else None
  end.

Definition ofString (s : string) : number :=
  match JS.trim s with
  | EmptyString => Some 0%Z
  | String "-" d => option_map Z.opp (digits_value d)
  | String "+" d => digits_value d
  | d => digits_value d
  end.

Definition toString (n : number) : string :=
  match n with
  | Some z => NilEmpty.string_of_int (Z.to_int z)
  | None => "NaN"
  end.

#[export] Instance int_number : JSNumber number := {
  num_truthy n := match n with Some z => negb (z =? 0)%Z | None => false end;
  num_toString := toString;
  num_ofString := ofString;
  num_ofNat n := Some (Z.of_nat n);
  num_nan := None;
  num_percent h n := Some ((200 * Z.of_nat h + Z.of_nat n) / (2 * Z.of_nat n))%Z
}.

End IntRuntime.

(** * Properties *)

(** ** Strings *)

Module StringFacts.

Lemma append_empty_r (s : string) : s +++ EmptyString = s.
Proof. induction s as [|c s IH]; simpl; [reflexivity | now rewrite IH]. Qed.

Lemma append_assoc (a b c : string) : (a +++ b) +++ c = a +++ (b +++ c).
Proof. induction a as [|x a IH]; simpl; [reflexivity | now rewrite IH]. Qed.

Lemma append_snoc (a : string) (c : ascii) (b : string) :
  (a +++ String c EmptyString) +++ b = a +++ String c b.
Proof. now rewrite append_assoc. Qed.

Lemma length_append (a b : string) :
  String.length (a +++ b) = String.length a + String.length b.
Proof. induction a as [|x a IH]; simpl; [reflexivity | now rewrite IH]. Qed.

End StringFacts.

(** ** The quoted-field splitter *)

Module CsvLineFacts.
Import JS Csv StringFacts.

(** A character that neither opens a quoted span nor separates. *)
Definition plain_char (c : ascii) : bool :=
  negb (Ascii.eqb c dquote) && negb (Ascii.eqb c comma).

Fixpoint plain (s : string) : bool :=
  match s with
  | EmptyString => true
  | String c s' => plain_char c && plain s'
  end.

(** [rest] does not go on with a quote. *)
Definition no_quote_ahead (rest : string) : bool :=
  match rest with
  | String c _ => negb (Ascii.eqb c dquote)
  | EmptyString => true
  end.

Lemma scan_plain (a rest : string) (result : list string) (current : string) :
  plain a = true ->
  scan (a +++ rest) result current false = scan rest result (current +++ a) false.
Proof.
  revert current.
  induction a as [|c a IH]; intros current Hp; simpl in *.
  - now rewrite append_empty_r.
  - apply andb_prop in Hp as [Hc Ha].
    unfold plain_char in Hc. apply andb_prop in Hc as [Hq Hs].
    apply negb_true_iff in Hq, Hs. rewrite Hq, Hs.
    rewrite IH by assumption. now rewrite append_snoc.
Qed.

Lemma scan_inside (q rest : string) (result : list string) (current : string) :
  no_quote_ahead rest = true ->
  scan (escape_quotes q +++ String dquote rest) result current true
  = scan rest result (current +++ q) false.
Proof.
  intros Hrest. revert current.
  induction q as [|c q IH]; intros current.
  - simpl. rewrite append_empty_r.
    destruct rest as [|c' rest']; [reflexivity|].
    simpl in Hrest. apply negb_true_iff in Hrest.
    change (Ascii.eqb dquote dquote) with true. cbv iota.
    now rewrite Hrest.
  - simpl escape_quotes.
    destruct (Ascii.eqb c dquote) eqn:Hc.
    + apply Ascii.eqb_eq in Hc. subst c.
      cbn [String.append scan]. change (Ascii.eqb dquote dquote) with true.
      cbv iota. rewrite IH. now rewrite append_snoc.
    + cbn [String.append scan]. rewrite Hc.
      rewrite IH. now rewrite append_snoc.
Qed.

Lemma scan_quoted (q rest : string) (result : list string) (current : string) :
  no_quote_ahead rest = true ->
  scan (quoted q +++ rest) result current false
  = scan rest result (current +++ q) false.
Proof.
  intros Hrest. unfold quoted.
  cbn [String.append scan]. change (Ascii.eqb dquote dquote) with true. cbv iota.
  rewrite append_assoc. cbn [String.append].
  now apply scan_inside.
Qed.

Lemma scan_fields (f : string) (fs : list string) (result : list string) :
  scan (join (String comma EmptyString) (map quoted (f :: fs))) result EmptyString false
  = result ++ f :: fs.
Proof.
  revert f result.
  induction fs as [|g fs IH]; intros f result.
  - cbn [map join].
    rewrite <- (append_empty_r (quoted f)).
    rewrite scan_quoted by reflexivity. reflexivity.
  - change (join (String comma EmptyString) (map quoted (f :: g :: fs)))
      with (quoted f +++ String comma EmptyString
              +++ join (String comma EmptyString) (map quoted (g :: fs))).
    rewrite scan_quoted by reflexivity.
    cbn [String.append scan].
    change (Ascii.eqb comma dquote) with false.
    change (Ascii.eqb comma comma) with true. cbv iota.
    rewrite IH. now rewrite <- app_assoc.
Qed.

Lemma plain_no_quote_ahead (c : string) : plain c = true -> no_quote_ahead c = true.
Proof.
  destruct c as [|x c]; simpl; [reflexivity|].
  intros H. apply andb_prop in H as [H _].
  unfold plain_char in H. now apply andb_prop in H as [H _].
Qed.

(** C6. The splitter reads the line of the specification as the one
    field [Acme, Inc.] quote [Global] quote; it reads any fields written
    the way the export writes them (each between quotes, with every quote
    doubled, commas between the fields) back as they were, so a comma in a
    quoted span does not separate and a doubled quote in it is one quote;
    and a quoted span in the middle of a field is read as its content. *)
Theorem parseCSVLine_quoted_fields :
  parseCSVLine acme_line = [acme_field]
  /\ (forall (f : string) (fs : list string),
        parseCSVLine (join (String comma EmptyString) (map quoted (f :: fs))) = f :: fs)
  /\ (forall a q c : string,
        plain a = true -> plain c = true ->
        parseCSVLine (a +++ quoted q +++ c) = [a +++ q +++ c])
  /\ (forall a b : string,
        plain a = true -> plain b = true ->
        parseCSVLine (a +++ String comma b) = [a; b]).
Proof.
  split; [reflexivity|]. split; [|split].
  - intros f fs. unfold parseCSVLine. now rewrite scan_fields.
  - intros a q c Ha Hc. unfold parseCSVLine.
    rewrite scan_plain by assumption.
    rewrite scan_quoted by now apply plain_no_quote_ahead.
    rewrite <- (append_empty_r c) at 1.
    rewrite scan_plain by assumption.
    simpl. now rewrite append_assoc.
  - intros a b Ha Hb. unfold parseCSVLine.
    rewrite scan_plain by assumption.
    cbn [scan]. change (Ascii.eqb comma dquote) with false.
    change (Ascii.eqb comma comma) with true. cbv iota.
    rewrite <- (append_empty_r b) at 1.
    rewrite scan_plain by assumption. reflexivity.
Qed.

Lemma parseCSVLine_quoted_fields_witness :
  plain "ab" = true /\ plain "ef" = true
  /\ parseCSVLine ("ab" +++ quoted "c,d" +++ "ef") = ["ab" +++ "c,d" +++ "ef"].
Proof.
  split; [reflexivity|]. split; [reflexivity|].
  apply (proj1 (proj2 (proj2 parseCSVLine_quoted_fields))); reflexivity.
Defined.

End CsvLineFacts.

(** ** The matcher against the language of a pattern *)

Module RegexFacts.
Import Regex StringFacts.

Lemma matches_chr_inv (p : ascii) (s : string) :
  matches (Chr p) s -> exists a, s = String a EmptyString /\ chr_match p a = true.
Proof. intros H. inversion H; subst. now eexists. Qed.

Lemma matches_dot_inv (s : string) :
  matches Dot s -> exists a, s = String a EmptyString /\ dot_match a = true.
Proof. intros H. inversion H; subst. now eexists. Qed.

Lemma run_matches (r : regex) :
  forall (s : string) (k : string -> bool),
    run r s k = true <->
    exists s1 s2, s = s1 +++ s2 /\ matches r s1 /\ k s2 = true.
Proof.
  induction r as [| p | | r1 IH1 r2 IH2 | r1 IH1 r2 IH2 | r1 IH1]; intros s k; simpl.
  - split.
    + intros H. exists EmptyString, s. repeat split; [constructor | assumption].
    + intros (s1 & s2 & -> & Hm & Hk). inversion Hm; subst. assumption.
  - destruct s as [|a s'].
    + split; [discriminate|].
      intros (s1 & s2 & He & Hm & _).
      apply matches_chr_inv in Hm as (a & -> & _). discriminate.
    + split.
      * intros H. apply andb_prop in H as [Hp Hk].
        exists (String a EmptyString), s'. repeat split; [now constructor | assumption].
      * intros (s1 & s2 & He & Hm & Hk).
        apply matches_chr_inv in Hm as (b & -> & Hb).
        simpl in He. injection He as -> ->. now rewrite Hb, Hk.
  - destruct s as [|a s'].
    + split; [discriminate|].
      intros (s1 & s2 & He & Hm & _).
      apply matches_dot_inv in Hm as (a & -> & _). discriminate.
    + split.
      * intros H. apply andb_prop in H as [Hp Hk].
        exists (String a EmptyString), s'. repeat split; [now constructor | assumption].
      * intros (s1 & s2 & He & Hm & Hk).
        apply matches_dot_inv in Hm as (b & -> & Hb).
        simpl in He. injection He as -> ->. now rewrite Hb, Hk.
  - rewrite IH1. split.
    + intros (s1 & s2 & -> & Hm1 & Hk). apply IH2 in Hk as (t1 & t2 & -> & Hm2 & Hk).
      exists (s1 +++ t1), t2. rewrite append_assoc.
      repeat split; [now constructor | assumption].
    + intros (s1 & s2 & -> & Hm & Hk). inversion Hm; subst.
      exists s0, (s3 +++ s2). rewrite append_assoc. repeat split; [assumption|].
      apply IH2. now exists s3, s2.
  - rewrite orb_true_iff, IH1, IH2. split.
    + intros [(s1 & s2 & -> & Hm & Hk) | (s1 & s2 & -> & Hm & Hk)];
        exists s1, s2; repeat split; try assumption;
        [now apply m_alt_l | now apply m_alt_r].
    + intros (s1 & s2 & -> & Hm & Hk). inversion Hm; subst;
        [left | right]; now exists s1, s2.
  - rewrite orb_true_iff, IH1. split.
    + intros [(s1 & s2 & -> & Hm & Hk) | Hk].
      * exists s1, s2. repeat split; [now apply m_opt_some | assumption].
      * exists EmptyString, s. repeat split; [apply m_opt_none | assumption].
    + intros (s1 & s2 & -> & Hm & Hk). inversion Hm; subst.
      * left. now exists s1, s2.
      * now right.
Qed.

Lemma test_whole_matches (r : regex) (s : string) :
  test_whole r s = true <-> matches r s.
Proof.
  unfold test_whole. rewrite run_matches. split.
  - intros (s1 & s2 & -> & Hm & Hk). destruct s2; [|discriminate].
    now rewrite append_empty_r.
  - intros Hm. exists s, EmptyString. rewrite append_empty_r. now repeat split.
Qed.

(** Equality of two words up to the case of the letters a-z. *)
Fixpoint ci_eqb (s w : string) : bool :=
  match s, w with
  | EmptyString, EmptyString => true
  | String a s', String p w' => chr_match p a && ci_eqb s' w'
  | _, _ => false
  end.

Lemma matches_lit (w s : string) : matches (lit w) s <-> ci_eqb s w = true.
Proof.
  revert s. induction w as [|p w IH]; intros s; simpl.
  - split.
    + intros H. inversion H. reflexivity.
    + destruct s; [constructor | discriminate].
  - split.
    + intros H. inversion H as [| | | ? ? s1 s2 H1 H2 | | | |]; subst.
      inversion H1; subst. simpl. apply IH in H2. now rewrite H3, H2.
    + destruct s as [|a s]; simpl; [discriminate|].
      intros H. apply andb_prop in H as [Hp Hs].
      change (String a s) with (String a EmptyString +++ s).
      constructor; [now constructor | now apply IH].
Qed.

(** [pre], at most one character that is no line terminator, [post]. *)
Definition joined (pre post h : string) : Prop :=
  exists a m b,
    h = a +++ m +++ b /\ ci_eqb a pre = true /\ ci_eqb b post = true
    /\ (m = EmptyString \/ exists c, m = String c EmptyString /\ dot_match c = true).

Lemma matches_joined (pre post h : string) :
  matches (Seq (lit pre) (Seq (Opt Dot) (lit post))) h <-> joined pre post h.
Proof.
  split.
  - intros H. inversion H as [| | | ? ? a t Ha Ht | | | |]; subst.
    inversion Ht as [| | | ? ? m b Hm Hb | | | |]; subst.
    exists a, m, b. repeat split; try now apply matches_lit.
    inversion Hm as [| | | | | | ? ? Hd |]; subst; [|now left].
    inversion Hd; subst. right. now eexists.
  - intros (a & m & b & -> & Ha & Hb & Hm).
    constructor; [now apply matches_lit|].
    constructor; [|now apply matches_lit].
    destruct Hm as [-> | (c & -> & Hc)]; [apply m_opt_none|].
    apply m_opt_some. now constructor.
Qed.

End RegexFacts.

(** ** Header detection and the rows of [parseCSV] *)

Module CsvRowFacts.
Import JS Regex RegexFacts Csv StringFacts.

(** What the first pattern accepts, spelled out. *)
Definition name_header (h : string) : Prop :=
  ci_eqb h "name" = true \/ joined "full" "name" h
  \/ joined "contact" "name" h \/ ci_eqb h "person" = true.

Definition company_header (h : string) : Prop :=
  ci_eqb h "company" = true \/ ci_eqb h "organization" = true
  \/ ci_eqb h "org" = true \/ joined "company" "name" h
  \/ ci_eqb h "employer" = true.

(** The reading of the specification: equality with one of six names. *)
Definition listed_name_header (h : string) : bool :=
  existsb (ci_eqb h)
    ["name"; "full name"; "full.name"; "contact name"; "contact.name"; "person"].

Lemma name_re_spec (h : string) : test_whole name_re h = true <-> name_header h.
Proof.
  rewrite test_whole_matches. unfold name_re, name_header. cbn [alts].
  rewrite <- !matches_joined, <- !matches_lit. split.
  - intros H.
    inversion H as [| | | | ? ? ? H1 | ? ? ? H1 | |]; subst; [now left|].
    inversion H1 as [| | | | ? ? ? H2 | ? ? ? H2 | |]; subst; [now right; left|].
    inversion H2 as [| | | | ? ? ? H3 | ? ? ? H3 | |]; subst;
      [now right; right; left | now right; right; right].
  - intros [H | [H | [H | H]]].
    + now apply m_alt_l.
    + now apply m_alt_r, m_alt_l.
    + now apply m_alt_r, m_alt_r, m_alt_l.
    + now apply m_alt_r, m_alt_r, m_alt_r.
Qed.

Lemma company_re_spec (h : string) :
  test_whole company_re h = true <-> company_header h.
Proof.
  rewrite test_whole_matches. unfold company_re, company_header. cbn [alts].
  rewrite <- !matches_joined, <- !matches_lit. split.
  - intros H.
    inversion H as [| | | | ? ? ? H1 | ? ? ? H1 | |]; subst; [now left|].
    inversion H1 as [| | | | ? ? ? H2 | ? ? ? H2 | |]; subst; [now right; left|].
    inversion H2 as [| | | | ? ? ? H3 | ? ? ? H3 | |]; subst; [now right; right; left|].
    inversion H3 as [| | | | ? ? ? H4 | ? ? ? H4 | |]; subst;
      [now right; right; right; left | now right; right; right; right].
  - intros [H | [H | [H | [H | H]]]].
    + now apply m_alt_l.
    + now apply m_alt_r, m_alt_l.
    + now apply m_alt_r, m_alt_r, m_alt_l.
    + now apply m_alt_r, m_alt_r, m_alt_r, m_alt_l.
    + now apply m_alt_r, m_alt_r, m_alt_r, m_alt_r.
Qed.

(** [i] is the index of the first element of [l] with [P], or [-1]. *)
Definition first_index {A : Type} (P : A -> Prop) (l : list A) (i : Z) : Prop :=
  (i = (-1)%Z /\ forall h, In h l -> ~ P h)
  \/ (exists n h, i = Z.of_nat n /\ nth_error l n = Some h /\ P h
                  /\ forall j h', j < n -> nth_error l j = Some h' -> ~ P h').

Lemma findIndex_from_first {A : Type} (p : A -> bool) (l : list A) :
  forall k : nat,
    (findIndex_from p l (Z.of_nat k) = (-1)%Z /\ forall h, In h l -> p h <> true)
    \/ (exists n h, findIndex_from p l (Z.of_nat k) = Z.of_nat (k + n)
                    /\ nth_error l n = Some h /\ p h = true
                    /\ forall j h', j < n -> nth_error l j = Some h' -> p h' <> true).
Proof.
  induction l as [|x l IH]; intros k; simpl.
  - left. split; [reflexivity | intros h []].
  - destruct (p x) eqn:Hx.
    + right. exists 0, x. rewrite Nat.add_0_r. repeat split; try reflexivity; try assumption.
      intros j h' Hj. lia.
    + replace (Z.of_nat k + 1)%Z with (Z.of_nat (S k)) by lia.
      destruct (IH (S k)) as [[He Hall] | (n & h & He & Hn & Hp & Hbefore)].
      * left. split; [assumption|]. intros h [<- | Hin]; [congruence | now apply Hall].
      * right. exists (S n), h. replace (k + S n) with (S k + n) by lia.
        repeat split; try assumption.
        intros [|j] h' Hj Hnth; simpl in Hnth.
        -- injection Hnth as <-. congruence.
        -- apply (Hbefore j); [lia | assumption].
Qed.

Lemma findIndex_first {A : Type} (p : A -> bool) (P : A -> Prop) (l : list A) :
  (forall h, p h = true <-> P h) -> first_index P l (findIndex p l).
Proof.
  intros HP. unfold findIndex, first_index.
  destruct (findIndex_from_first p l 0) as [[He Hall] | (n & h & He & Hn & Hp & Hb)];
    simpl in He.
  - left. split; [assumption|]. intros h Hin Hh. apply (Hall h Hin). now apply HP.
  - right. exists n, h. repeat split; try assumption; [now apply HP|].
    intros j h' Hj Hnth Hh. apply (Hb j h' Hj Hnth). now apply HP.
Qed.

(** The index is one of [values]. *)
Definition in_range (idx : Z) (values : list string) : Prop :=
  (0 <= idx < Z.of_nat (List.length values))%Z.

Lemma trim_empty : trim EmptyString = EmptyString.
Proof. reflexivity. Qed.

Lemma pick_in_range (idx : Z) (values : list string) (fallback : nat) :
  in_range idx values ->
  pick idx values fallback = trim (nth (Z.to_nat idx) values EmptyString).
Proof.
  unfold in_range, pick. intros [H0 H1].
  apply Z.leb_le in H0. apply Z.ltb_lt in H1. now rewrite H0, H1.
Qed.

Lemma pick_fallback (idx : Z) (values : list string) (fallback : nat) :
  ~ in_range idx values ->
  pick idx values fallback = trim (nth fallback values EmptyString).
Proof.
  unfold in_range, pick. intros H.
  destruct ((0 <=? idx)%Z && (idx <? Z.of_nat (List.length values))%Z) eqn:E.
  - apply andb_prop in E as [H0 H1].
    apply Z.leb_le in H0. apply Z.ltb_lt in H1. lia.
  - destruct (nth_error values fallback) as [v|] eqn:Hn.
    + now rewrite (nth_error_nth _ _ _ Hn).
    + apply nth_error_None in Hn. now rewrite nth_overflow.
Qed.

Lemma get_set (row : ParsedRow) (h v key : string) :
  get (set row h v) key = if String.eqb h key then Some v else get row key.
Proof.
  induction row as [|[k w] row IH]; simpl.
  - reflexivity.
  - destruct (String.eqb k h) eqn:Ekh; simpl.
    + apply String.eqb_eq in Ekh. subst k.
      now destruct (String.eqb h key).
    + rewrite IH. destruct (String.eqb k key) eqn:Ekk; [|reflexivity].
      apply String.eqb_eq in Ekk. subst k. now rewrite String.eqb_sym, Ekh.
Qed.

Lemma field_assign (row : ParsedRow) (h v key : string) :
  field (assign row h v) key
  = if String.eqb h "__proto__" then field row key
    else if String.eqb h key then v else field row key.
Proof.
  unfold assign, field. destruct (String.eqb h "__proto__"); [reflexivity|].
  rewrite get_set. now destruct (String.eqb h key).
Qed.

(** No header that the copy reaches is spelled [key], but the column at
    [idx]. *)
Fixpoint clash_free (key : string) (idx : Z) (headers : list string)
         (j n : nat) : bool :=
  match headers with
  | [] => true
  | h :: hs =>
      (negb (j <? n)%nat || negb (String.eqb h key) || (Z.of_nat j =? idx)%Z)
      && clash_free key idx hs (S j) n
  end.

Lemma copy_headers_field (key : string) (idx : Z) (values : list string) (x : string) :
  (in_range idx values -> trim (nth (Z.to_nat idx) values EmptyString) = x) ->
  forall (hs : list string) (j : nat) (row : ParsedRow),
    clash_free key idx hs j (List.length values) = true ->
    field row key = x ->
    field (copy_headers hs j values row) key = x.
Proof.
  intros Hx. induction hs as [|h hs IH]; intros j row Hc Hrow; simpl in *.
  - assumption.
  - apply andb_prop in Hc as [Hh Hc]. apply IH; [assumption|].
    destruct (j <? List.length values)%nat eqn:Hj; [|assumption].
    rewrite field_assign.
    destruct (String.eqb h "__proto__"); [assumption|].
    destruct (String.eqb h key) eqn:Ek; [|assumption].
    simpl in Hh. apply Z.eqb_eq in Hh. apply Nat.ltb_lt in Hj.
    rewrite <- Hx by (unfold in_range; lia).
    now rewrite <- Hh, Nat2Z.id.
Qed.

Lemma row_name_detected (nameIdx companyIdx : Z) (headers values : list string) :
  clash_free "name" nameIdx headers 0 (List.length values) = true ->
  row_name (build_row nameIdx companyIdx headers values) = pick nameIdx values 0.
Proof.
  intros Hc. unfold row_name, build_row.
  apply (copy_headers_field "name" nameIdx); try assumption; [|reflexivity].
  intros Hr. now rewrite pick_in_range.
Qed.

Lemma row_company_detected (nameIdx companyIdx : Z) (headers values : list string) :
  clash_free "company" companyIdx headers 0 (List.length values) = true ->
  row_company (build_row nameIdx companyIdx headers values) = pick companyIdx values 1.
Proof.
  intros Hc. unfold row_company, build_row.
  apply (copy_headers_field "company" companyIdx); try assumption; [|reflexivity].
  intros Hr. now rewrite pick_in_range.
Qed.

(** C5, as amended.  The name column is the first header that the
    pattern accepts, whatever the case of its letters: name, person, or
    full or contact followed by name with at most one character between
    them (any character but a line terminator: a space, a dot, an
    underscore, or none); the company column likewise with company,
    organization, org, employer, or company and name with at most one
    character between.  When no header that is copied into the row is
    spelled name other than the detected column, the name of the row is
    the trimmed value at the detected index, and the trimmed first value
    (or the empty text) when no column was detected or the index is not
    one of the values; the same holds for company with the second
    value. *)
Theorem detected_columns_fill_row (headers values : list string) :
  let nameIdx := nameIdx_of headers in
  let companyIdx := companyIdx_of headers in
  let row := build_row nameIdx companyIdx headers values in
  first_index name_header headers nameIdx
  /\ first_index company_header headers companyIdx
  /\ (clash_free "name" nameIdx headers 0 (List.length values) = true ->
      (in_range nameIdx values ->
       row_name row = trim (nth (Z.to_nat nameIdx) values EmptyString))
      /\ (~ in_range nameIdx values ->
          row_name row = trim (nth 0 values EmptyString)))
  /\ (clash_free "company" companyIdx headers 0 (List.length values) = true ->
      (in_range companyIdx values ->
       row_company row = trim (nth (Z.to_nat companyIdx) values EmptyString))
      /\ (~ in_range companyIdx values ->
          row_company row = trim (nth 1 values EmptyString))).
Proof.
  intros nameIdx companyIdx row. repeat split.
  - apply findIndex_first, name_re_spec.
  - apply findIndex_first, company_re_spec.
  - intros Hr. unfold row. rewrite row_name_detected by assumption.
    now apply pick_in_range.
  - intros Hr. unfold row. rewrite row_name_detected by assumption.
    now apply pick_fallback.
  - intros Hr. unfold row. rewrite row_company_detected by assumption.
    now apply pick_in_range.
  - intros Hr. unfold row. rewrite row_company_detected by assumption.
    now apply pick_fallback.
Qed.

Lemma detected_columns_fill_row_witness :
  clash_free "name" (nameIdx_of ["Id"; "Full_Name"]) ["Id"; "Full_Name"] 0 2 = true
  /\ in_range (nameIdx_of ["Id"; "Full_Name"]) ["7"; " Bob "]
  /\ row_name (build_row (nameIdx_of ["Id"; "Full_Name"])
                         (companyIdx_of ["Id"; "Full_Name"])
                         ["Id"; "Full_Name"] ["7"; " Bob "])
     = trim (nth 1 ["7"; " Bob "] EmptyString).
Proof.
  split; [reflexivity|]. split; [unfold in_range; vm_compute; split; [discriminate | reflexivity]|].
  apply (proj1 (proj2 (proj2 (detected_columns_fill_row ["Id"; "Full_Name"] ["7"; " Bob "])))).
  - reflexivity.
  - unfold in_range; vm_compute; split; [discriminate | reflexivity].
Defined.

(** The text [id,fullname] / [7,Bob]. *)
Definition fullname_text : string :=
  "id,fullname" +++ String LF "7,Bob".

(** C5 as stated fails: no header of [id,fullname] is equal to one of the
    six listed names, so the row would take its name from the first
    column, [7]; the parser detects [fullname] and the name is [Bob]. *)
Lemma listed_names_counterexample :
  exists row,
    parseCSV fullname_text = [row]
    /\ headers_of "id,fullname" = ["id"; "fullname"]
    /\ findIndex listed_name_header ["id"; "fullname"] = (-1)%Z
    /\ nameIdx_of ["id"; "fullname"] = 1%Z
    /\ row_name row = "Bob"
    /\ row_name row <> pick (findIndex listed_name_header ["id"; "fullname"])
                            (parseCSVLine "7,Bob") 0.
Proof.
  eexists. split; [vm_compute; reflexivity|].
  repeat split; try reflexivity. vm_compute. discriminate.
Qed.

(** *** The number of rows *)

Lemma scan_not_empty (line : string) :
  forall (result : list string) (current : string) (inQuotes : bool),
    scan line result current inQuotes <> [].
Proof.
  enough (H : forall n line, String.length line <= n ->
              forall result current inQuotes, scan line result current inQuotes <> []).
  { intros. now apply (H (String.length line)). }
  clear line. induction n as [|n IH]; intros line Hn result current inQuotes.
  - destruct line; [|simpl in Hn; lia]. simpl. now destruct result.
  - destruct line as [|ch rest]; [simpl; now destruct result|].
    simpl in Hn. simpl.
    destruct inQuotes.
    + destruct (Ascii.eqb ch dquote).
      * destruct rest as [|ch' rest']; [simpl; now destruct result|].
        destruct (Ascii.eqb ch' dquote); apply IH; simpl in *; lia.
      * apply IH; lia.
    + destruct (Ascii.eqb ch dquote); [apply IH; lia|].
      destruct (Ascii.eqb ch comma); apply IH; lia.
Qed.

(** The row a data line gives, when it is kept. *)
Definition row_of (headers : list string) (line : string) : ParsedRow :=
  build_row (nameIdx_of headers) (companyIdx_of headers) headers (parseCSVLine line).

(** Both fields of the row of the line are empty. *)
Definition dropped (headers : list string) (line : string) : bool :=
  negb (truthy (row_name (row_of headers line))
        || truthy (row_company (row_of headers line))).

Lemma data_line_step (headers : list string) (rows : list ParsedRow) (line : string) :
  data_line (nameIdx_of headers) (companyIdx_of headers) headers rows line
  = if dropped headers line then rows else rows ++ [row_of headers line].
Proof.
  unfold data_line, dropped, row_of.
  destruct (parseCSVLine line) as [|v vs] eqn:Hv.
  { exfalso. now apply (scan_not_empty line [] EmptyString false). }
  change (List.length (v :: vs) =? 0)%nat with false. cbv iota zeta.
  now destruct (truthy _ || truthy _).
Qed.

Lemma fold_data_line (headers lines : list string) :
  forall rows,
    fold_left (data_line (nameIdx_of headers) (companyIdx_of headers) headers) lines rows
    = rows ++ map (row_of headers) (filter (fun l => negb (dropped headers l)) lines).
Proof.
  induction lines as [|line lines IH]; intros rows; simpl.
  - now rewrite app_nil_r.
  - rewrite IH, data_line_step.
    destruct (dropped headers line); simpl; [reflexivity | now rewrite <- app_assoc].
Qed.

(** What the parser returns: nothing below two lines that are not blank,
    and otherwise one row for each data line whose row has a name or a
    company, in the order of the lines. *)
Lemma parseCSV_rows (text : string) :
  parseCSV text =
  match lines_of text with
  | headerLine :: d :: ds =>
      map (row_of (headers_of headerLine))
          (filter (fun l => negb (dropped (headers_of headerLine) l)) (d :: ds))
  | _ => []
  end.
Proof.
  unfold parseCSV. cbv zeta.
  destruct (lines_of text) as [|h [|d ds]]; try reflexivity.
  change (List.length (h :: d :: ds) <? 2)%nat with false. cbv iota.
  now rewrite fold_data_line.
Qed.

(** The count of C7 with the fields the rows end up with: the data lines
    less the dropped ones. *)
Lemma parseCSV_row_count (text headerLine : string) (dataLines : list string) :
  lines_of text = headerLine :: dataLines ->
  List.length (parseCSV text)
  + List.length (filter (dropped (headers_of headerLine)) dataLines)
  = List.length dataLines.
Proof.
  intros Hl. rewrite parseCSV_rows, Hl.
  destruct dataLines as [|d ds]; [reflexivity|].
  rewrite length_map.
  generalize (d :: ds) as l. intros l.
  induction l as [|x l IH]; simpl; [reflexivity|].
  destruct (dropped (headers_of headerLine) x); simpl; lia.
Qed.

(** The text [Full Name,name] / [Bob,]. *)
Definition clash_text : string :=
  "Full Name,name" +++ String LF "Bob,".

(** C7 on [clash_text].  The text has a header line and one data line.
    The name column is the first one, [Full Name], and the value there is
    [Bob]; the copy of the second column, spelled [name], then replaces
    the name of the row by the empty text, and the line is dropped: no
    row comes back, where the count of the claim is one. *)
Theorem clash_text_loses_row :
  lines_of clash_text = ["Full Name,name"; "Bob,"]
  /\ headers_of "Full Name,name" = ["Full Name"; "name"]
  /\ nameIdx_of ["Full Name"; "name"] = 0%Z
  /\ pick (nameIdx_of ["Full Name"; "name"]) (parseCSVLine "Bob,") 0 = "Bob"
  /\ row_name (row_of ["Full Name"; "name"] "Bob,") = EmptyString
  /\ parseCSV clash_text = [].
Proof. repeat split; vm_compute; reflexivity. Qed.

End CsvRowFacts.

(** ** The deep extraction *)

Module ExtractFacts.
Import Json Extract.

Section Engine.
Context {number : Type} {NUM : JSNumber number}.
Context {V : Type}.
Variable view : V -> shape number V.
Variable parseLLMJson : string -> option V.

Local Abbreviation extract := (deepExtractEnrichedData view parseLLMJson).
Local Abbreviation level := (extract_level view parseLLMJson).

(** The function obeys the recursion of the source. *)
Lemma extract_unfold (obj : V) (depth : nat) :
  extract obj depth
  = if (10 <? depth)%nat then empty
    else level (fun inner => extract inner (depth + 1)) obj.
Proof.
  simp deepExtractEnrichedData.
  destruct (le_lt_dec depth 10) as [H|H]; simpl.
  - apply Nat.ltb_ge in H. now rewrite H.
  - apply Nat.ltb_lt in H. now rewrite H.
Qed.

(** The recursion of the source has one solution. *)
Lemma extract_unique (f : V -> nat -> ExtractionResult V) :
  (forall obj depth,
      f obj depth = if (10 <? depth)%nat then empty
                    else level (fun inner => f inner (depth + 1)) obj) ->
  forall obj depth, f obj depth = extract obj depth.
Proof.
  intros Hf.
  enough (H : forall n depth, budget depth <= n -> forall obj, f obj depth = extract obj depth).
  { intros obj depth. now apply (H (budget depth)). }
  induction n as [|n IH]; intros depth Hb obj; rewrite Hf, extract_unfold;
    unfold budget in Hb.
  - assert (E : (10 <? depth)%nat = true) by (apply Nat.ltb_lt; lia).
    now rewrite E.
  - destruct (10 <? depth)%nat eqn:E; [reflexivity|].
    apply extract_level_ext. intros v. apply IH. unfold budget. lia.
Qed.

(** C1. The function is defined on every value and every depth by
    recursion on the levels left under the guard, so it returns on
    every input, whether or not the value refers to itself: it obeys
    the recursion of the source, in which every inner call is made at
    [depth + 1], and it is the only function that does; beyond depth 10
    it returns the empty result, whatever the value; each call leaves
    one level less, and none is left exactly beyond depth 10. *)
Theorem extraction_is_depth_bounded :
  (forall obj depth,
      extract obj depth
      = if (10 <? depth)%nat then empty
        else level (fun inner => extract inner (depth + 1)) obj)
  /\ (forall f : V -> nat -> ExtractionResult V,
        (forall obj depth,
            f obj depth = if (10 <? depth)%nat then empty
                          else level (fun inner => f inner (depth + 1)) obj) ->
        forall obj depth, f obj depth = extract obj depth)
  /\ (forall obj k, extract obj (11 + k) = empty)
  /\ (forall depth, budget (depth + 1) = budget depth - 1)
  /\ (forall depth, budget depth = 0 <-> 10 < depth).
Proof.
  split; [exact extract_unfold|]. split; [exact extract_unique|].
  split; [|split].
  - intros obj k. rewrite extract_unfold.
    assert (E : (10 <? 11 + k)%nat = true) by (apply Nat.ltb_lt; lia).
    now rewrite E.
  - intros depth. unfold budget. lia.
  - intros depth. unfold budget. lia.
Qed.

(** *** The steps of one level *)

Lemma assoc_in_keys (key : string) (props : list (string * V)) (v : V) :
  assoc key props = Some v -> In key (map fst props).
Proof.
  induction props as [|[k w] props IH]; simpl; [discriminate|].
  destruct (String.eqb k key) eqn:E.
  - apply String.eqb_eq in E. now left.
  - intros H. right. now apply IH.
Qed.

Lemma array_of_some (x : option V) (items : list V) :
  array_of view x = Some items -> exists v, x = Some v.
Proof. destruct x; [now eexists | discriminate]. Qed.

Lemma key_scan_found (o : shape number V) (items : list V) :
  array_of view (get_prop o "enriched_data") = Some items ->
  forall ks, In "enriched_data" ks ->
    key_scan view o ks
    = Some (mkResult items (or_null view (get_prop o "summary")) []).
Proof.
  intros Ha. induction ks as [|key ks IH]; intros Hin; simpl; [destruct Hin|].
  destruct (String.eqb key "enriched_data") eqn:E.
  - apply String.eqb_eq in E. subst key. now rewrite Ha.
  - destruct Hin as [-> | Hin]; [|now apply IH].
    now rewrite String.eqb_refl in E.
Qed.

Lemma wrapper_probe_none (self : V -> ExtractionResult V) (o : shape number V) :
  forall ks,
    (forall key v, In key ks -> or_null view (get_prop o key) = Some v ->
                   enriched (self v) = []) ->
    wrapper_probe view self o ks = None.
Proof.
  induction ks as [|key ks IH]; intros H; simpl; [reflexivity|].
  destruct (or_null view (get_prop o key)) as [v|] eqn:E.
  - rewrite (H key v (or_introl eq_refl) E). simpl.
    apply IH. intros k w Hin. apply H. now right.
  - apply IH. intros k w Hin. apply H. now right.
Qed.

(** C10. An object, met within the depth limit, that holds an empty
    array under [enriched_data] and whose wrapper keys lead to nothing:
    the search returns the empty array with the summary of the object
    and no artifacts.  The result does not depend on the other
    properties of the object, which are not searched. *)
Theorem empty_enriched_data_ends_search
        (obj : V) (depth : nat) (props : list (string * V)) :
  depth <= 10 ->
  view obj = SObj props ->
  array_of view (get_prop (view obj) "enriched_data") = Some [] ->
  (forall key v,
      In key wrapperKeys ->
      or_null view (get_prop (view obj) key) = Some v ->
      enriched (extract v (depth + 1)) = []) ->
  extract obj depth
  = mkResult [] (or_null view (get_prop (view obj) "summary")) [].
Proof.
  intros Hd Hv Ha Hw. rewrite extract_unfold.
  apply Nat.ltb_ge in Hd. rewrite Hd.
  unfold extract_level. cbv zeta.
  assert (Ht : negb (truthy (view obj)) = false) by now rewrite Hv.
  rewrite Ht.
  assert (Hr : record_array view (view obj) = None) by now rewrite Hv.
  assert (Hdm : direct_match view (view obj) = None)
    by (unfold direct_match; now rewrite Ha).
  assert (Hk : key_scan view (view obj) (keys (view obj))
               = Some (mkResult [] (or_null view (get_prop (view obj) "summary")) [])).
  { destruct (array_of_some _ _ Ha) as (e & He).
    apply (key_scan_found _ _ Ha).
    unfold get_prop in He. unfold keys. now apply (assoc_in_keys _ _ e). }
  rewrite Hdm, Hr, (wrapper_probe_none _ _ wrapperKeys Hw), Hk.
  now rewrite Hv.
Qed.

End Engine.
End ExtractFacts.

(** ** The conversions to text and to a number *)

Module CoercionFacts.
Import Json Normalize Records.

Section Coercion.
Context {number : Type} {NUM : JSNumber number}.

Local Abbreviation value := (Json.value number).

(** A value that has no text: an object with an own property [toString],
    or an array that holds a value without text. *)
Inductive unprintable : value -> Prop :=
| own_toString (props : list (string * value)) (x : value) :
    assoc "toString" props = Some x -> unprintable (VObj props)
| held_by_array (items : list value) (x : value) :
    In x items -> unprintable x -> unprintable (VArr items).

Section Induction.
Variable P : value -> Prop.
Hypothesis Hnull : P VNull.
Hypothesis Hbool : forall b, P (VBool b).
Hypothesis Hnum : forall n, P (VNum n).
Hypothesis Hstr : forall s, P (VStr s).
Hypothesis Harr : forall items, Forall P items -> P (VArr items).
Hypothesis Hobj : forall props, P (VObj props).

(** Induction on a value through the elements of its arrays. *)
Fixpoint value_array_ind (v : value) : P v :=
  match v with
  | VNull => Hnull
  | VBool b => Hbool b
  | VNum n => Hnum n
  | VStr s => Hstr s
  | VArr items =>
      Harr items
        ((fix all (l : list value) : Forall P l :=
            match l with
            | [] => Forall_nil P
            | x :: l' => Forall_cons x (value_array_ind x) (all l')
            end) items)
  | VObj props => Hobj props
  end.

End Induction.

Lemma traverse_none {A B : Type} (f : A -> option B) (l : list A) :
  traverse f l = None <-> Exists (fun x => f x = None) l.
Proof.
  induction l as [|x l IH]; simpl.
  - split; [discriminate | intros H; inversion H].
  - destruct (f x) as [y|] eqn:E.
    + destruct (traverse f l) as [ys|]; simpl.
      * split; [discriminate|]. intros H. inversion H as [? ? H0 | ? ? H0]; subst.
        -- congruence.
        -- now apply IH in H0.
      * split; [|reflexivity]. intros _. apply Exists_cons_tl. now apply IH.
    + split; [|reflexivity]. intros _. now apply Exists_cons_hd.
Qed.

Lemma traverse_some {A B : Type} (f : A -> option B) (l : list A) (out : list B) :
  traverse f l = Some out -> map Some out = map f l.
Proof.
  revert out. induction l as [|x l IH]; simpl; intros out H.
  - injection H as <-. reflexivity.
  - destruct (f x) as [y|]; [|discriminate].
    destruct (traverse f l) as [ys|]; [|discriminate].
    simpl in H. injection H as <-. simpl. now rewrite (IH ys eq_refl).
Qed.

(** [String] throws exactly on the values without text. *)
Lemma to_String_none (v : value) : to_String v = None <-> unprintable v.
Proof.
  induction v as [ | b | n | s | items IH | props ] using value_array_ind;
    try (simpl; split; [discriminate | intros H; inversion H]).
  - cbn [to_String].
    set (text := fun x : value =>
                   match x with VNull => Some EmptyString | _ => to_String x end).
    assert (Ht : forall x, text x = None <-> (x <> VNull /\ to_String x = None)).
    { intros x. destruct x; simpl; split; try discriminate; try tauto;
        try (intros H; split; [discriminate | exact H]). }
    split.
    + intros H. destruct (traverse text items) as [ts|] eqn:E; [discriminate|].
      apply traverse_none in E. apply Exists_exists in E as (x & Hin & Hx).
      apply Ht in Hx as [_ Hx]. rewrite Forall_forall in IH.
      apply (held_by_array items x Hin). now apply IH.
    + intros H. inversion H as [| items' x Hin Hx]; subst.
      assert (E : traverse text items = None).
      { apply traverse_none. apply Exists_exists. exists x. split; [exact Hin|].
        apply Ht. rewrite Forall_forall in IH. split; [|now apply IH].
        intros ->. inversion Hx. }
      now rewrite E.
  - cbn [to_String]. split.
    + destruct (assoc "toString" props) as [x|] eqn:E; [|discriminate].
      intros _. now apply (own_toString props x).
    + intros H. inversion H as [props' x E |]; subst. now rewrite E.
Qed.

Lemma to_String_text (s : string) : to_String (VStr s : value) = Some s.
Proof. reflexivity. Qed.

(** [Number] throws exactly on the values without text. *)
Lemma Number_none (x : option value) :
  Number x = None <-> exists v, x = Some v /\ unprintable v.
Proof.
  destruct x as [v|]; [|split; [discriminate | intros (v & Hv & _); discriminate]].
  assert (Hconv : option_map num_ofString (to_String v) = None
                  <-> exists w, Some v = Some w /\ unprintable w).
  { split.
    - intros H. exists v. split; [reflexivity|]. apply to_String_none.
      destruct (to_String v); [discriminate | reflexivity].
    - intros (w & Hw & H). injection Hw as <-. apply to_String_none in H.
      now rewrite H. }
  destruct v; cbn [Number]; try exact Hconv;
    (split; [discriminate | intros (w & Hw & H); injection Hw as <-; inversion H]).
Qed.

Lemma text_or_none (x : option value) (fallback : string) :
  text_or x fallback = None <-> exists v, x = Some v /\ unprintable v.
Proof.
  unfold text_or. destruct x as [v|].
  - destruct (is_null (view_value v)) eqn:E.
    + split; [discriminate|]. intros (w & Hw & H). injection Hw as <-.
      destruct v; try discriminate. inversion H.
    + rewrite to_String_none. split.
      * intros H. now exists v.
      * intros (w & Hw & H). now injection Hw as <-.
  - split; [discriminate | intros (v & Hv & _); discriminate].
Qed.

(** The seven alias lists of the normalizer, in the order of the fields. *)
Definition alias_lists : list (list string) :=
  [ name_aliases; company_aliases; revenue_aliases; sector_aliases;
    decision_maker_aliases; job_title_aliases; confidence_aliases ].

(** One of the seven values that the record [r] gives to [String] has no
    text. *)
Definition unprintable_field (r : value) : Prop :=
  exists aliases v,
    In aliases alias_lists /\ first_present r aliases = Some v /\ unprintable v.

(** The callback of the normalizer throws on [r]. *)
Definition throws (r : value) : Prop := r = VNull \/ unprintable_field r.

Lemma coalesce_none (r : value) (aliases : list string) (default : string) :
  coalesce r aliases default = None
  <-> exists v, first_present r aliases = Some v /\ unprintable v.
Proof.
  unfold coalesce. destruct (first_present r aliases) as [v|].
  - rewrite to_String_none. split.
    + intros H. now exists v.
    + intros (w & Hw & H). now injection Hw as <-.
  - split; [discriminate | intros (v & Hv & _); discriminate].
Qed.

(** The record of a value that is not [null]. *)
Definition fill (r : value) : option EnrichedRecord :=
  match coalesce r name_aliases EmptyString,
        coalesce r company_aliases EmptyString,
        coalesce r revenue_aliases "N/A",
        coalesce r sector_aliases "N/A",
        coalesce r decision_maker_aliases "N/A",
        coalesce r job_title_aliases "N/A",
        coalesce r confidence_aliases "Low" with
  | Some n, Some c, Some v, Some s, Some d, Some j, Some k =>
      Some (mkRecord n c v s d j k)
  | _, _, _, _, _, _, _ => None
  end.

Lemma normalize_fill (r : value) : r <> VNull -> normalize r = fill r.
Proof.
  intros Hr. unfold fill.
  destruct r; [congruence | | | | |]; cbn [normalize];
    repeat match goal with
           | |- context [coalesce ?a ?b ?c] => destruct (coalesce a b c)
           end; reflexivity.
Qed.

Lemma fill_none (r : value) : fill r = None <-> unprintable_field r.
Proof.
  unfold fill, unprintable_field, alias_lists. split.
  - intros H.
    destruct (coalesce r name_aliases EmptyString) eqn:E1;
      [|apply coalesce_none in E1 as (v & Hv & Hu); exists name_aliases, v; simpl; tauto].
    destruct (coalesce r company_aliases EmptyString) eqn:E2;
      [|apply coalesce_none in E2 as (v & Hv & Hu); exists company_aliases, v; simpl; tauto].
    destruct (coalesce r revenue_aliases "N/A") eqn:E3;
      [|apply coalesce_none in E3 as (v & Hv & Hu); exists revenue_aliases, v; simpl; tauto].
    destruct (coalesce r sector_aliases "N/A") eqn:E4;
      [|apply coalesce_none in E4 as (v & Hv & Hu); exists sector_aliases, v; simpl; tauto].
    destruct (coalesce r decision_maker_aliases "N/A") eqn:E5;
      [|apply coalesce_none in E5 as (v & Hv & Hu);
        exists decision_maker_aliases, v; simpl; tauto].
    destruct (coalesce r job_title_aliases "N/A") eqn:E6;
      [|apply coalesce_none in E6 as (v & Hv & Hu); exists job_title_aliases, v; simpl; tauto].
    destruct (coalesce r confidence_aliases "Low") eqn:E7;
      [|apply coalesce_none in E7 as (v & Hv & Hu); exists confidence_aliases, v; simpl; tauto].
    discriminate.
  - intros (aliases & v & Hin & Hv & Hu).
    assert (E : forall d, coalesce r aliases d = None).
    { intros d. apply coalesce_none. now exists v. }
    simpl in Hin.
    destruct Hin as [<- | [<- | [<- | [<- | [<- | [<- | [<- | []]]]]]]];
      rewrite E;
      repeat match goal with
             | |- context [match coalesce ?a ?b ?c with _ => _ end] =>
                 destruct (coalesce a b c)
             end; reflexivity.
Qed.

Lemma normalize_throws (r : value) : normalize r = None <-> throws r.
Proof.
  unfold throws. destruct (is_null (view_value r)) eqn:E.
  - destruct r; try discriminate. split; [now left | reflexivity].
  - assert (Hr : r <> VNull) by (intros ->; discriminate).
    rewrite (normalize_fill r Hr), fill_none. split; [now right | now intros [H | H]].
Qed.

Lemma normalizedEnriched_throws (rs : list value) :
  normalizedEnriched rs = None <-> Exists throws rs.
Proof.
  induction rs as [|r rs IH]; simpl.
  - split; [discriminate | intros H; inversion H].
  - destruct (normalize r) as [e|] eqn:E.
    + destruct (normalizedEnriched rs) as [l|]; simpl.
      * split; [discriminate|]. intros H. inversion H as [? ? H0 | ? ? H0]; subst.
        -- apply normalize_throws in H0. congruence.
        -- now apply IH in H0.
      * split; [|reflexivity]. intros _. apply Exists_cons_tl. now apply IH.
    + split; [|reflexivity]. intros _. apply Exists_cons_hd. now apply normalize_throws.
Qed.

Lemma normalizedEnriched_some (rs : list value) (l : list EnrichedRecord) :
  normalizedEnriched rs = Some l ->
  map Some l = map normalize rs /\ List.length l = List.length rs.
Proof.
  revert l. induction rs as [|r rs IH]; simpl; intros l H.
  - injection H as <-. now split.
  - destruct (normalize r) as [e|]; [|discriminate].
    destruct (normalizedEnriched rs) as [l'|]; [|discriminate].
    simpl in H. injection H as <-. destruct (IH l' eq_refl) as [H1 H2].
    simpl. now rewrite H1, H2.
Qed.

End Coercion.
End CoercionFacts.

(** ** Extraction and normalization of decoded JSON *)

Module TreeFacts.
Import Json Extract ExtractFacts Normalize Records CoercionFacts.

Section Tree.
Context {number : Type} {NUM : JSNumber number}.
Variable parseLLMJson : string -> option (value number).

Local Abbreviation extract := (deepExtractEnrichedData view_value parseLLMJson).





Lemma extract_direct (items : list (value number)) (x : value number) (depth : nat) :
  depth <= 10 ->
  extract (VObj [("enriched_data", VArr (x :: items))]) depth
  = mkResult (x :: items) None [].
Proof.
  intros Hd. rewrite extract_unfold. apply Nat.ltb_ge in Hd. rewrite Hd.
  reflexivity.
Qed.





End Tree.
End TreeFacts.

(** ** The record normalizer and the supplied summary *)

Module NormalizeFacts.
Import Json Normalize Records CoercionFacts.

Section Normalizer.
Context {number : Type} {NUM : JSNumber number}.

Local Abbreviation value := (Json.value number).

(** The alias is missing from the record, or holds [null]. *)
Definition absent (r : value) (a : string) : Prop :=
  match get_prop (view_value r) a with
  | Some v => is_null (view_value v) = true
  | None => True
  end.

(** How a field of the canonical record is filled from its aliases:
    with the default when every alias is absent, and otherwise with
    the text of the first alias that is not. *)
Definition field_rule (r : value) (aliases : list string) (default out : string)
  : Prop :=
  (Forall (absent r) aliases -> out = default)
  /\ (forall pre a post v,
         aliases = pre ++ a :: post ->
         Forall (absent r) pre ->
         get_prop (view_value r) a = Some v ->
         is_null (view_value v) = false ->
         to_String v = Some out).

Lemma first_present_none (r : value) (aliases : list string) :
  Forall (absent r) aliases -> first_present r aliases = None.
Proof.
  induction 1 as [|a aliases Ha _ IH]; simpl; [reflexivity|].
  unfold absent in Ha.
  destruct (get_prop (view_value r) a); [now rewrite Ha | assumption].
Qed.

Lemma first_present_some (r : value) (pre : list string) (a : string)
      (post : list string) (v : value) :
  Forall (absent r) pre ->
  get_prop (view_value r) a = Some v ->
  is_null (view_value v) = false ->
  first_present r (pre ++ a :: post) = Some v.
Proof.
  intros Hpre Ha Hv.
  induction Hpre as [|b pre Hb _ IH]; simpl.
  - now rewrite Ha, Hv.
  - unfold absent in Hb.
    destruct (get_prop (view_value r) b); [now rewrite Hb | assumption].
Qed.

Lemma coalesce_rule (r : value) (aliases : list string) (default out : string) :
  coalesce r aliases default = Some out -> field_rule r aliases default out.
Proof.
  intros H. split.
  - intros Ha. unfold coalesce in H. rewrite first_present_none in H by assumption.
    now injection H as <-.
  - intros pre a post v -> Hpre Ha Hv. unfold coalesce in H.
    now rewrite (first_present_some r pre a post v) in H.
Qed.

(** C3, as amended.  A record object normalizes to a canonical record,
    whose seven fields are texts by its type, unless one of the seven
    values it gives to [String] has no text; then the normalization
    throws.  Each field takes the text of the first of its aliases that is
    present and not [null]; when there is none, [name] and [company] are
    the empty text, [revenue], [sector], [decision_maker] and [job_title]
    are [N/A], and [confidence] is [Low]. *)
Theorem normalize_fills_every_field (props : list (string * value)) :
  (normalize (VObj props) = None <-> unprintable_field (VObj props))
  /\ (forall e : EnrichedRecord,
        normalize (VObj props) = Some e ->
        field_rule (VObj props) name_aliases EmptyString (name e)
        /\ field_rule (VObj props) company_aliases EmptyString (company e)
        /\ field_rule (VObj props) revenue_aliases "N/A" (revenue e)
        /\ field_rule (VObj props) sector_aliases "N/A" (sector e)
        /\ field_rule (VObj props) decision_maker_aliases "N/A" (decision_maker e)
        /\ field_rule (VObj props) job_title_aliases "N/A" (job_title e)
        /\ field_rule (VObj props) confidence_aliases "Low" (confidence e)).
Proof.
  assert (Hr : VObj props <> VNull) by discriminate.
  rewrite (normalize_fill (VObj props) Hr). split; [apply fill_none|].
  intros e. unfold fill.
  destruct (coalesce (VObj props) name_aliases EmptyString) eqn:E1; [|discriminate].
  destruct (coalesce (VObj props) company_aliases EmptyString) eqn:E2; [|discriminate].
  destruct (coalesce (VObj props) revenue_aliases "N/A") eqn:E3; [|discriminate].
  destruct (coalesce (VObj props) sector_aliases "N/A") eqn:E4; [|discriminate].
  destruct (coalesce (VObj props) decision_maker_aliases "N/A") eqn:E5; [|discriminate].
  destruct (coalesce (VObj props) job_title_aliases "N/A") eqn:E6; [|discriminate].
  destruct (coalesce (VObj props) confidence_aliases "Low") eqn:E7; [|discriminate].
  intros H. injection H as <-.
  cbn [name company revenue sector decision_maker job_title confidence].
  do 6 (split; [now apply coalesce_rule|]). now apply coalesce_rule.
Qed.

(** *** The supplied summary *)

(** How a numeric field of the summary is read from the supplied value
    [x]: the number it coerces to when that number is neither zero nor
    [NaN], and the fallback otherwise. *)
Definition numeric_rule (x : option value) (fallback out : number) : Prop :=
  (forall n, x = Some (VNum n) -> num_truthy n = true -> out = n)
  /\ (forall n, x = Some (VNum n) -> num_truthy n = false -> out = fallback)
  /\ (x = None \/ x = Some VNull -> out = fallback)
  /\ (forall n, Number x = Some n -> num_truthy n = true -> out = n)
  /\ (forall n, Number x = Some n -> num_truthy n = false -> out = fallback).

Definition text_rule (x : option value) (fallback out : string) : Prop :=
  (x = None \/ x = Some VNull -> out = fallback)
  /\ (forall v, x = Some v -> is_null (view_value v) = false ->
      to_String v = Some out).

Lemma or_number_rule (x : option value) (fallback n : number) :
  num_truthy num_nan = false ->
  num_truthy (num_ofNat 0) = false ->
  Number x = Some n ->
  numeric_rule x fallback (or_number n fallback).
Proof.
  intros Hnan Hzero Hx. unfold numeric_rule, or_number. repeat split.
  - intros m -> Hm. simpl in Hx. injection Hx as <-. now rewrite Hm.
  - intros m -> Hm. simpl in Hx. injection Hx as <-. now rewrite Hm.
  - intros [-> | ->]; simpl in Hx; injection Hx as <-;
      [now rewrite Hnan | now rewrite Hzero].
  - intros m Hm Ht. rewrite Hx in Hm. injection Hm as <-. now rewrite Ht.
  - intros m Hm Ht. rewrite Hx in Hm. injection Hm as <-. now rewrite Ht.
Qed.

Lemma text_or_rule (x : option value) (fallback out : string) :
  text_or x fallback = Some out -> text_rule x fallback out.
Proof.
  unfold text_or, text_rule. intros H. split.
  - intros [-> | ->]; simpl in H; now injection H as <-.
  - intros v -> Hv. now rewrite Hv in H.
Qed.

(** The four properties that are read from a supplied summary. *)
Definition summary_keys : list string :=
  [ "total_records"; "decision_makers_found"; "low_confidence_count";
    "high_confidence_rate" ].

(** One of the four values read from the summary has no text. *)
Definition unprintable_summary (summaryData : value) : Prop :=
  exists key v,
    In key summary_keys
    /\ get_prop (view_value summaryData) key = Some v /\ unprintable v.

Lemma supplied_summary_none (summaryData : value) (normalized : list EnrichedRecord) :
  supplied_summary summaryData normalized = None <-> unprintable_summary summaryData.
Proof.
  unfold supplied_summary, unprintable_summary, summary_keys. cbv zeta. split.
  - intros H.
    destruct (Number (get_prop (view_value summaryData) "total_records")) eqn:E1;
      [|apply Number_none in E1 as (v & Hv & Hu);
        exists "total_records", v; simpl; tauto].
    destruct (Number (get_prop (view_value summaryData) "decision_makers_found")) eqn:E2;
      [|apply Number_none in E2 as (v & Hv & Hu);
        exists "decision_makers_found", v; simpl; tauto].
    destruct (Number (get_prop (view_value summaryData) "low_confidence_count")) eqn:E3;
      [|apply Number_none in E3 as (v & Hv & Hu);
        exists "low_confidence_count", v; simpl; tauto].
    destruct (text_or (get_prop (view_value summaryData) "high_confidence_rate") "0%")
      eqn:E4;
      [|apply text_or_none in E4 as (v & Hv & Hu);
        exists "high_confidence_rate", v; simpl; tauto].
    discriminate.
  - intros (key & v & Hin & Hv & Hu).
    assert (En : Number (get_prop (view_value summaryData) key) = None).
    { apply Number_none. now exists v. }
    assert (Et : forall d, text_or (get_prop (view_value summaryData) key) d = None).
    { intros d. apply text_or_none. now exists v. }
    simpl in Hin. destruct Hin as [<- | [<- | [<- | [<- | []]]]];
      rewrite ?En, ?Et;
      repeat match goal with
             | |- context [match Number ?a with _ => _ end] => destruct (Number a)
             end; reflexivity.
Qed.

(** C4, as amended.  With a summary supplied (a truthy value), the
    summary is built unless one of the four values read from it has no
    text; then its coercion throws.  Each numeric field is the number the
    supplied value coerces to whenever that number is neither zero nor
    [NaN]; the fallback (the count of the records for [total_records],
    zero for the other two) is used when the value is absent, [null], or
    coerces to zero or [NaN].  [high_confidence_rate] is the text of the
    supplied value, and [0%] when it is absent or [null]. *)
Theorem supplied_summary_fields
        (summaryData : value) (normalized : list EnrichedRecord) :
  num_truthy num_nan = false ->
  num_truthy (num_ofNat 0) = false ->
  truthy (view_value summaryData) = true ->
  let read := get_prop (view_value summaryData) in
  (summary_of (Some summaryData) normalized = None
   <-> unprintable_summary summaryData)
  /\ (forall s, summary_of (Some summaryData) normalized = Some s ->
      numeric_rule (read "total_records") (num_ofNat (List.length normalized))
                   (total_records s)
      /\ numeric_rule (read "decision_makers_found") (num_ofNat 0)
                      (decision_makers_found s)
      /\ numeric_rule (read "low_confidence_count") (num_ofNat 0)
                      (low_confidence_count s)
      /\ text_rule (read "high_confidence_rate") "0%" (high_confidence_rate s)).
Proof.
  intros Hnan Hzero Ht read. unfold summary_of. rewrite Ht.
  split; [apply supplied_summary_none|].
  intros s. unfold supplied_summary. cbv zeta. fold read.
  destruct (Number (read "total_records")) eqn:E1; [|discriminate].
  destruct (Number (read "decision_makers_found")) eqn:E2; [|discriminate].
  destruct (Number (read "low_confidence_count")) eqn:E3; [|discriminate].
  destruct (text_or (read "high_confidence_rate") "0%") eqn:E4; [|discriminate].
  intros H. injection H as <-.
  cbn [total_records decision_makers_found low_confidence_count high_confidence_rate].
  split; [now apply or_number_rule|]. split; [now apply or_number_rule|].
  split; [now apply or_number_rule | now apply text_or_rule].
Qed.

End Normalizer.
End NormalizeFacts.

(** ** The artifact locator *)

Module ArtifactFacts.
Import Json Artifacts.

Section Locator.
Context {number : Type} {NUM : JSNumber number}.
Variable JSON_parse : string -> option (value number).

Local Abbreviation locate := (extractArtifactFiles JSON_parse).

(** [{ module_outputs: { artifact_files: [] },
       response: { module_outputs: { artifact_files: [file] } } }] *)
Definition empty_then_files (file : value number) : value number :=
  VObj [ ("module_outputs", VObj [("artifact_files", VArr [])]);
         ("response", VObj [("module_outputs", VObj [("artifact_files", VArr [file])])]) ].

(** C8 on an envelope that only carries [raw_response], a text that
    [JSON.parse] reads as [empty_then_files file].  The first path of
    the decoded text holds an empty array and the second one holds
    [file]; the locator returns the empty array of the first path, not
    the first array that is not empty. *)
Theorem raw_empty_array_hides_files (text : string) (file : value number) :
  text <> EmptyString ->
  JSON_parse text = Some (empty_then_files file) ->
  files_under (Some (empty_then_files file)) = Some []
  /\ files_under (opt_get (Some (empty_then_files file)) "response") = Some [file]
  /\ locate (VObj [("raw_response", VStr text)]) = [].
Proof.
  intros Ht Hp. split; [reflexivity|]. split; [reflexivity|].
  unfold extractArtifactFiles. cbn [view_value truthy negb].
  change (non_empty (files_under (Some (VObj [("raw_response", VStr text)]))))
    with (@None (list (value number))).
  change (non_empty (files_under (opt_get (Some (VObj [("raw_response", VStr text)])) "response")))
    with (@None (list (value number))).
  change (opt_get (Some (VObj [("raw_response", VStr text)])) "raw_response")
    with (Some (@VStr number text)).
  cbv iota. destruct text as [|c text]; [congruence|]. cbn [JS.truthy].
  now rewrite Hp.
Qed.

(** The same shape met on the envelope itself: there the empty array is
    passed over and the files under [response] are returned. *)
Lemma envelope_empty_array_is_passed_over (file : value number) :
  locate (empty_then_files file) = [file].
Proof. reflexivity. Qed.

(** A text that [JSON.parse] rejects counts for nothing. *)
Lemma raw_decode_failure_is_swallowed (text : string) :
  JSON_parse text = None ->
  locate (VObj [("raw_response", VStr text)]) = [].
Proof.
  intros Hp. unfold extractArtifactFiles. cbn [view_value truthy negb].
  change (non_empty (files_under (Some (VObj [("raw_response", VStr text)]))))
    with (@None (list (value number))).
  change (non_empty (files_under (opt_get (Some (VObj [("raw_response", VStr text)])) "response")))
    with (@None (list (value number))).
  change (opt_get (Some (VObj [("raw_response", VStr text)])) "raw_response")
    with (Some (@VStr number text)).
  cbv iota. destruct (JS.truthy text); [now rewrite Hp | reflexivity].
Qed.

End Locator.
End ArtifactFacts.

(** ** Filtering and sorting *)

Module SortFacts.
Import Query.

Inductive subsequence {A : Type} : list A -> list A -> Prop :=
| sub_nil : subsequence [] []
| sub_skip x l1 l2 : subsequence l1 l2 -> subsequence l1 (x :: l2)
| sub_keep x l1 l2 : subsequence l1 l2 -> subsequence (x :: l1) (x :: l2).

Lemma filter_subsequence {A : Type} (p : A -> bool) (l : list A) :
  subsequence (filter p l) l.
Proof.
  induction l as [|x l IH]; simpl; [constructor|].
  destruct (p x); now constructor.
Qed.

Section Insertion.
Context {A : Type}.
Variable cmp : A -> A -> Z.

Definition before (x y : A) : Prop := (cmp x y <= 0)%Z.

Lemma place_perm (x : A) (l : list A) : Permutation (place cmp x l) (x :: l).
Proof.
  induction l as [|y l IH]; simpl; [reflexivity|].
  destruct (cmp x y <=? 0)%Z; [reflexivity|].
  rewrite IH. apply perm_swap.
Qed.

Lemma sort_perm (l : list A) : Permutation (sort cmp l) l.
Proof.
  induction l as [|x l IH]; simpl; [reflexivity|].
  rewrite place_perm. now constructor.
Qed.

Lemma sort_fixes_sorted (l : list A) : Sorted before l -> sort cmp l = l.
Proof.
  induction 1 as [|x l Hs IH Hhd]; simpl; [reflexivity|].
  rewrite IH. destruct Hhd as [|y l Hxy]; simpl; [reflexivity|].
  unfold before in Hxy. apply Z.leb_le in Hxy. now rewrite Hxy.
Qed.

Lemma filter_place (p : A -> bool) (x : A) (l : list A) :
  (p x = true -> forall y, In y l -> p y = true -> before x y) ->
  filter p (place cmp x l) = filter p (x :: l).
Proof.
  induction l as [|y l IH]; intros H; [reflexivity|].
  cbn [place]. destruct (cmp x y <=? 0)%Z eqn:E; [reflexivity|].
  assert (IH' : filter p (place cmp x l) = filter p (x :: l)).
  { apply IH. intros Hx z Hz. apply H; [assumption | now right]. }
  cbn [filter] in *. rewrite IH'.
  destruct (p x) eqn:Hx; [|reflexivity].
  destruct (p y) eqn:Hy; [|reflexivity].
  exfalso. apply Z.leb_gt in E.
  specialize (H eq_refl y (or_introl eq_refl) Hy). unfold before in H. lia.
Qed.

Lemma sort_keeps_order_within (p : A -> bool) (l : list A) :
  (forall x y, p x = true -> p y = true -> before x y) ->
  filter p (sort cmp l) = filter p l.
Proof.
  intros H. induction l as [|x l IH]; [reflexivity|].
  cbn [sort]. rewrite filter_place by (intros Hx y _ Hy; now apply H).
  cbn [filter]. now rewrite IH.
Qed.

Hypothesis before_total : forall x y, before x y \/ before y x.

Lemma place_sorted (x : A) (l : list A) :
  Sorted before l -> Sorted before (place cmp x l).
Proof.
  induction 1 as [|y l Hs IH Hhd]; simpl; [now repeat constructor|].
  destruct (cmp x y <=? 0)%Z eqn:E.
  - apply Z.leb_le in E. constructor; [now constructor | now constructor].
  - apply Z.leb_gt in E. constructor; [assumption|].
    assert (Hyx : before y x) by (destruct (before_total x y); [unfold before in *; lia | assumption]).
    destruct Hhd as [|z l Hyz]; simpl; [now constructor|].
    destruct (cmp x z <=? 0)%Z; now constructor.
Qed.

Lemma sort_sorted (l : list A) : Sorted before (sort cmp l).
Proof.
  induction l as [|x l IH]; simpl; [constructor | now apply place_sorted].
Qed.

Lemma sort_idempotent (l : list A) : sort cmp (sort cmp l) = sort cmp l.
Proof. apply sort_fixes_sorted, sort_sorted. Qed.

End Insertion.
End SortFacts.

Module QueryFacts.
Import Records Query SortFacts.

(** *** The order of code units on strings *)

Lemma ltb_lt (a b : string) :
  String.ltb a b = true <-> OrderedTypeEx.String_as_OT.lt a b.
Proof.
  rewrite <- OrderedTypeEx.String_as_OT.cmp_lt.
  unfold String.ltb, OrderedTypeEx.String_as_OT.cmp.
  destruct (String.compare a b); split; congruence.
Qed.

Lemma leb_not_ltb (a b : string) : String.leb a b = negb (String.ltb b a).
Proof.
  unfold String.leb, String.ltb. rewrite (String.compare_antisym a b).
  now destruct (String.compare b a).
Qed.

Lemma ltb_asym (a b : string) : String.ltb a b = true -> String.ltb b a = false.
Proof.
  unfold String.ltb. rewrite (String.compare_antisym a b).
  now destruct (String.compare b a).
Qed.

Lemma ltb_irrefl (a : string) : String.ltb a a = false.
Proof.
  destruct (String.ltb a a) eqn:E; [|reflexivity].
  now rewrite (ltb_asym a a E) in E.
Qed.

Lemma leb_cases (a b : string) :
  String.leb a b = true <-> a = b \/ String.ltb a b = true.
Proof.
  unfold String.leb, String.ltb.
  destruct (String.compare a b) eqn:E; split; intros H; try reflexivity.
  - left. now apply String.compare_eq_iff.
  - now right.
  - discriminate.
  - destruct H as [-> | H]; [|discriminate].
    assert (F : String.ltb b b = false) by apply ltb_irrefl.
    unfold String.ltb in F. rewrite (String.compare_antisym b b) in E.
    destruct (String.compare b b); discriminate.
Qed.

Lemma leb_trans (a b c : string) :
  String.leb a b = true -> String.leb b c = true -> String.leb a c = true.
Proof.
  rewrite !leb_cases. intros [-> | Hab] [-> | Hbc]; auto.
  right. apply ltb_lt. apply ltb_lt in Hab, Hbc.
  eapply OrderedTypeEx.String_as_OT.lt_trans; eassumption.
Qed.

(** *** The comparator *)

(** The text the comparator looks at. *)
Definition key (f : SortField) (r : EnrichedRecord) : string :=
  JS.toLowerCase (field_of f r).

(** [a] may stand before [b]. *)
Definition ordered (f : SortField) (d : SortDir) (a b : EnrichedRecord) : Prop :=
  match d with
  | asc => String.leb (key f a) (key f b) = true
  | desc => String.leb (key f b) (key f a) = true
  end.

Lemma comparator_before (f : SortField) (d : SortDir) (a b : EnrichedRecord) :
  before (comparator f d) a b <-> ordered f d a b.
Proof.
  unfold before, comparator, ordered, JS.str_lt. fold (key f a) (key f b).
  rewrite !leb_not_ltb.
  destruct (String.ltb (key f a) (key f b)) eqn:Eab.
  - rewrite (ltb_asym _ _ Eab). destruct d; simpl; split; (lia || congruence).
  - destruct (String.ltb (key f b) (key f a)); destruct d; simpl; split;
      (lia || congruence).
Qed.

Lemma before_total (f : SortField) (d : SortDir) (a b : EnrichedRecord) :
  before (comparator f d) a b \/ before (comparator f d) b a.
Proof.
  rewrite !comparator_before. unfold ordered.
  destruct d; [apply String.leb_total | apply String.leb_total].
Qed.

Lemma before_same_key (f : SortField) (d : SortDir) (a b : EnrichedRecord) :
  key f a = key f b -> before (comparator f d) a b.
Proof.
  intros H. apply comparator_before. unfold ordered. rewrite H.
  destruct d; apply leb_cases; now left.
Qed.

#[local] Instance ordered_transitive (f : SortField) (d : SortDir) :
  Transitive (ordered f d).
Proof.
  intros a b c. unfold ordered. destruct d; intros H1 H2.
  - eapply leb_trans; eassumption.
  - eapply leb_trans; eassumption.
Qed.

Lemma sorted_ordered (f : SortField) (d : SortDir) (l : list EnrichedRecord) :
  Sorted (before (comparator f d)) l -> StronglySorted (ordered f d) l.
Proof.
  intros H. apply Sorted_StronglySorted; [apply ordered_transitive|].
  induction H as [|x l Hs IH Hhd]; constructor; [assumption|].
  destruct Hhd; constructor. now apply comparator_before.
Qed.

Lemma filter_all {A : Type} (p : A -> bool) (l : list A) :
  (forall x, In x l -> p x = true) -> filter p l = l.
Proof.
  induction l as [|x l IH]; intros H; simpl; [reflexivity|].
  rewrite (H x (or_introl eq_refl)), IH; [reflexivity|].
  intros y Hy. apply H. now right.
Qed.

(** C9. Filtering keeps a subsequence of the collection, in its order.
    The result of the sort is an arrangement of the filtered records in
    which every record may stand before every later one under the
    comparison of the lower-cased texts of the chosen field (ascending or
    descending); the records with one and the same lower-cased text keep
    the order they had; and filtering and sorting the result again, with
    the same filter, field and direction, returns it unchanged. *)
Theorem filter_sort_stable_idempotent
        (mode : FilterMode) (f : SortField) (d : SortDir)
        (data : list EnrichedRecord) :
  let kept := filter (keep mode) data in
  let out := filter_sort mode f d data in
  subsequence kept data
  /\ Permutation out kept
  /\ StronglySorted (ordered f d) out
  /\ (forall k : string,
         filter (fun r => String.eqb (key f r) k) out
         = filter (fun r => String.eqb (key f r) k) kept)
  /\ filter_sort mode f d out = out.
Proof.
  intros kept out. unfold out, filter_sort. fold kept.
  split; [apply filter_subsequence|].
  split; [apply sort_perm|].
  split; [apply sorted_ordered, sort_sorted, before_total|].
  split.
  - intros k. apply sort_keeps_order_within.
    intros x y Hx Hy. apply before_same_key.
    apply String.eqb_eq in Hx, Hy. congruence.
  - rewrite filter_all.
    + apply sort_idempotent, before_total.
    + intros x Hx.
      apply (Permutation_in _ (sort_perm (comparator f d) kept)) in Hx.
      unfold kept in Hx. now apply filter_In in Hx.
Qed.

(** What the callback returns is the filter and the sort of the records
    of the session, or of the sample when the session shows none. *)
Lemma getFilteredData_of_records (st : session) :
  enrichedData st <> [] ->
  getFilteredData st
  = filter_sort (filterMode st) (sortField st) (sortDir st) (enrichedData st).
Proof.
  intros H. unfold getFilteredData.
  destruct (enrichedData st); [congruence|].
  cbn [List.length Nat.eqb]. now rewrite !andb_false_r.
Qed.

End QueryFacts.

(** ** The theorems on concrete responses *)

Module Examples.
Import Json Extract Normalize Records Artifacts.
Import ExtractFacts CoercionFacts TreeFacts NormalizeFacts ArtifactFacts.
Import IntRuntime.

Local Abbreviation value := (Json.value number).

(** A text between two double quotes. *)
Definition q (s : string) : string :=
  String JS.dquote (s +++ String JS.dquote EmptyString).

(** A decoder that knows the texts of a table and fails on the others. *)
Fixpoint decode_table (table : list (string * value)) (s : string) : option value :=
  match table with
  | [] => None
  | (t, v) :: table' => if String.eqb t s then Some v else decode_table table' s
  end.

Definition jane : value :=
  VObj [ ("name", VStr "Jane Doe"); ("company", VStr "Acme Corp");
         ("revenue", VStr "$10M"); ("sector", VStr "SaaS");
         ("decision_maker", VStr "Yes"); ("job_title", VStr "CTO");
         ("confidence", VStr "High") ].

(** The text of a property whose value is a text. *)
Definition member (key text : string) : string := q key +++ ":" +++ q text.

(** The text of the object that holds [jane] in an array under
    [enriched_data], after a few words of prose. *)
Definition jane_text : string :=
  "Here is the result: {" +++ q "enriched_data" +++ ":[{"
    +++ member "name" "Jane Doe" +++ "," +++ member "company" "Acme Corp" +++ ","
    +++ member "revenue" "$10M" +++ "," +++ member "sector" "SaaS" +++ ","
    +++ member "decision_maker" "Yes" +++ "," +++ member "job_title" "CTO" +++ ","
    +++ member "confidence" "High" +++ "}]}".

Definition jane_decoder : string -> option value :=
  decode_table [(jane_text, VObj [("enriched_data", VArr [jane])])].


(** The three shapes of the witness give the one record of [jane]. *)
Example three_shapes_of_jane :
  let records := Some [mkRecord "Jane Doe" "Acme Corp" "$10M" "SaaS" "Yes" "CTO" "High"] in
  normalizedEnriched
    (enriched (deepExtractEnrichedData view_value jane_decoder
                 (VObj [("result", VObj [("enriched_data", VArr [jane])])]) 0))
  = records
  /\ normalizedEnriched
       (enriched (deepExtractEnrichedData view_value jane_decoder
                    (VObj [("response", VStr jane_text)]) 0))
     = records
  /\ normalizedEnriched
       (enriched (deepExtractEnrichedData view_value jane_decoder (VArr [jane]) 0))
     = records.
Proof. vm_compute. repeat split. Qed.

(** A record whose name is an object with an own [toString]. *)
Definition nameless : value :=
  VObj [ ("name", VObj [("toString", VNum (Some 1%Z))]); ("revenue", VStr "$1M") ].

(** The text of the object that holds [nameless] in an array under
    [enriched_data]. *)
Definition nameless_text : string :=
  "{" +++ q "enriched_data" +++ ":[{" +++ q "name" +++ ":{" +++ q "toString" +++ ":1},"
    +++ member "revenue" "$1M" +++ "}]}".

Definition nameless_decoder : string -> option value :=
  decode_table [(nameless_text, VObj [("enriched_data", VArr [nameless])])].

(** [String] throws on the name of [nameless], in each of the shapes. *)
Example three_shapes_throw_alike :
  normalize nameless = None
  /\ normalizedEnriched
       (enriched (deepExtractEnrichedData view_value nameless_decoder
                    (VObj [("result", VObj [("enriched_data", VArr [nameless])])]) 0))
     = None
  /\ normalizedEnriched
       (enriched (deepExtractEnrichedData view_value nameless_decoder
                    (VObj [("response", VStr nameless_text)]) 0))
     = None
  /\ normalizedEnriched
       (enriched (deepExtractEnrichedData view_value nameless_decoder
                    (VArr [nameless]) 0))
     = None.
Proof. vm_compute. repeat split. Qed.

(** *** Values that refer to themselves, and deep nesting *)

(** A heap with one object, at address 0, whose two properties are the
    object itself. *)
Definition loop_heap (a : nat) : shape number nat :=
  match a with
  | 0 => SObj [("self", 0); ("data", 0)]
  | _ => SNull
  end.

Example self_reference_returns_empty :
  deepExtractEnrichedData loop_heap (fun _ => None) 0 0 = empty.
Proof. vm_compute. reflexivity. Qed.

Fixpoint nest (n : nat) (v : value) : value :=
  match n with
  | 0 => v
  | S n' => VObj [("level", nest n' v)]
  end.

Example nesting_15_returns_empty :
  deepExtractEnrichedData view_value (fun _ => None)
    (nest 15 (VObj [("enriched_data", VArr [jane])])) 0 = empty.
Proof. vm_compute. reflexivity. Qed.

Example nesting_10_is_found :
  deepExtractEnrichedData view_value (fun _ => None)
    (nest 10 (VObj [("enriched_data", VArr [jane])])) 0 = mkResult [jane] None [].
Proof. vm_compute. reflexivity. Qed.

(** *** An empty [enriched_data] beside a full one *)

Definition stalled : value :=
  VObj [ ("enriched_data", VArr []);
         ("summary", VStr "pending");
         ("backup", VObj [("enriched_data", VArr [jane])]) ].

Lemma empty_enriched_data_ends_search_witness :
  0 <= 10
  /\ array_of view_value (get_prop (view_value stalled) "enriched_data") = Some []
  /\ deepExtractEnrichedData view_value (fun _ => None) stalled 0
     = mkResult [] (Some (VStr "pending")) [].
Proof.
  split; [lia|]. split; [reflexivity|].
  apply (empty_enriched_data_ends_search view_value (fun _ => None) stalled 0
           [ ("enriched_data", VArr []); ("summary", VStr "pending");
             ("backup", VObj [("enriched_data", VArr [jane])]) ]).
  - lia.
  - reflexivity.
  - reflexivity.
  - intros key v Hin H.
    repeat (destruct Hin as [<- | Hin]; [vm_compute in H; discriminate|]).
    destruct Hin.
Defined.

(** *** Normalization *)

(** C3 as stated fails: a record with no alias of [name] or [company]
    gets the empty text in these two fields, not [N/A]. *)
Lemma missing_name_is_not_NA :
  exists e : EnrichedRecord,
    normalize (VObj [("revenue", @VStr number "$1M")]) = Some e
    /\ Forall (absent (VObj [("revenue", @VStr number "$1M")])) name_aliases
    /\ Forall (absent (VObj [("revenue", @VStr number "$1M")])) company_aliases
    /\ name e = EmptyString /\ name e <> "N/A"
    /\ company e = EmptyString /\ company e <> "N/A".
Proof.
  eexists. split; [reflexivity|].
  split; [repeat constructor|]. split; [repeat constructor|].
  repeat split; try reflexivity; vm_compute; discriminate.
Qed.

Definition full_summary : value :=
  VObj [ ("total_records", VNum (Some 7%Z));
         ("decision_makers_found", VNum (Some 0%Z));
         ("high_confidence_rate", VStr "60%") ].

Lemma supplied_summary_fields_witness :
  num_truthy (num_nan : number) = false
  /\ num_truthy (num_ofNat 0 : number) = false
  /\ truthy (view_value full_summary) = true
  /\ exists s,
       summary_of (Some full_summary) SAMPLE_ENRICHED = Some s
       /\ numeric_rule (get_prop (view_value full_summary) "total_records")
            (num_ofNat (List.length SAMPLE_ENRICHED)) (total_records s)
       /\ numeric_rule (get_prop (view_value full_summary) "decision_makers_found")
            (num_ofNat 0) (decision_makers_found s)
       /\ numeric_rule (get_prop (view_value full_summary) "low_confidence_count")
            (num_ofNat 0) (low_confidence_count s)
       /\ text_rule (get_prop (view_value full_summary) "high_confidence_rate")
            "0%" (high_confidence_rate s).
Proof.
  split; [reflexivity|]. split; [reflexivity|]. split; [reflexivity|].
  eexists. split; [reflexivity|].
  apply (supplied_summary_fields full_summary SAMPLE_ENRICHED); reflexivity.
Defined.

(** The summary that [full_summary] gives over the five sample records. *)
Example full_summary_is_read :
  summary_of (Some full_summary) SAMPLE_ENRICHED
  = Some (mkSummary (Some 7%Z) (Some 0%Z) (Some 0%Z) "60%").
Proof. reflexivity. Qed.

(** A supplied count that is an object with an own [toString]: [Number]
    throws and no summary is built. *)
Example unprintable_count_throws :
  summary_of (Some (VObj [("total_records", VObj [("toString", VNum (Some 1%Z))])]))
             SAMPLE_ENRICHED
  = None.
Proof. reflexivity. Qed.

(** C4 as stated fails: a supplied [total_records] of zero is present and
    numeric, and the summary carries the count of the records. *)
Lemma supplied_zero_total_is_replaced :
  get_prop (view_value (VObj [("total_records", VNum (Some 0%Z))])) "total_records"
  = Some (VNum (Some 0%Z))
  /\ option_map total_records
       (summary_of (Some (VObj [("total_records", VNum (Some 0%Z))])) SAMPLE_ENRICHED)
     = Some (Some 5%Z)
  /\ option_map total_records
       (summary_of (Some (VObj [("total_records", VNum (Some 0%Z))])) SAMPLE_ENRICHED)
     <> Some (Some 0%Z).
Proof. repeat split; try reflexivity. vm_compute. discriminate. Qed.

(** *** Artifact files *)

Definition csv_file : value :=
  VObj [ ("file_url", VStr "https://files.example/enriched.csv");
         ("name", VStr "enriched.csv"); ("format_type", VStr "csv") ].

(** The text of [empty_then_files csv_file]. *)
Definition raw_text : string :=
  "{" +++ q "module_outputs" +++ ":{" +++ q "artifact_files" +++ ":[]},"
    +++ q "response" +++ ":{" +++ q "module_outputs" +++ ":{" +++ q "artifact_files"
    +++ ":[{" +++ q "file_url" +++ ":" +++ q "https://files.example/enriched.csv"
    +++ "," +++ q "name" +++ ":" +++ q "enriched.csv"
    +++ "," +++ q "format_type" +++ ":" +++ q "csv" +++ "}]}}}".

Definition raw_decoder : string -> option value :=
  decode_table [(raw_text, empty_then_files csv_file)].

Lemma raw_empty_array_hides_files_witness :
  raw_text <> EmptyString
  /\ raw_decoder raw_text = Some (empty_then_files csv_file)
  /\ extractArtifactFiles raw_decoder (VObj [("raw_response", VStr raw_text)]) = [].
Proof.
  split; [vm_compute; discriminate|]. split; [reflexivity|].
  apply (raw_empty_array_hides_files raw_decoder raw_text csv_file);
    [vm_compute; discriminate | reflexivity].
Defined.

End Examples.

(** * Further properties of the code *)

(** ** More on the quoted-field splitter and on the rows *)

Module CsvMoreFacts.
Import JS Csv StringFacts CsvLineFacts CsvRowFacts.

Fixpoint count_commas (s : string) : nat :=
  match s with
  | EmptyString => 0
  | String c s' => (if Ascii.eqb c comma then 1 else 0) + count_commas s'
  end.

Fixpoint no_dquote (s : string) : bool :=
  match s with
  | EmptyString => true
  | String c s' => negb (Ascii.eqb c dquote) && no_dquote s'
  end.

Lemma scan_length_bounds :
  forall (n : nat) (line : string), String.length line <= n ->
  forall (result : list string) (current : string) (inQuotes : bool),
    List.length result + 1 <= List.length (scan line result current inQuotes)
    /\ List.length (scan line result current inQuotes)
       <= List.length result + 1 + count_commas line.
Proof.
  induction n as [|n IH]; intros line Hn result current inQuotes.
  - destruct line; [|simpl in Hn; lia]. simpl. rewrite length_app. simpl. lia.
  - destruct line as [|ch rest]; [simpl; rewrite length_app; simpl; lia|].
    simpl in Hn. cbn [scan count_commas].
    destruct inQuotes.
    + destruct (Ascii.eqb ch dquote) eqn:Eq.
      * apply Ascii.eqb_eq in Eq. subst ch.
        change (Ascii.eqb dquote comma) with false. cbv iota.
        destruct rest as [|ch' rest'].
        -- specialize (IH EmptyString ltac:(simpl; lia) result current false).
           simpl in *. lia.
        -- destruct (Ascii.eqb ch' dquote) eqn:Eq'.
           ++ apply Ascii.eqb_eq in Eq'. subst ch'.
              specialize (IH rest' ltac:(simpl in *; lia) result
                             (current +++ String dquote EmptyString) true).
              cbn [count_commas]. change (Ascii.eqb dquote comma) with false.
              cbv iota. lia.
           ++ specialize (IH (String ch' rest') ltac:(simpl in *; lia) result current false).
              lia.
      * specialize (IH rest ltac:(lia) result (current +++ String ch EmptyString) true).
        lia.
    + destruct (Ascii.eqb ch dquote) eqn:Eq.
      * apply Ascii.eqb_eq in Eq. subst ch.
        change (Ascii.eqb dquote comma) with false. cbv iota.
        specialize (IH rest ltac:(lia) result current true). lia.
      * destruct (Ascii.eqb ch comma) eqn:Ec.
        -- specialize (IH rest ltac:(lia) (result ++ [current]) EmptyString false).
           rewrite length_app in IH. simpl in IH. lia.
        -- specialize (IH rest ltac:(lia) result (current +++ String ch EmptyString) false).
           lia.
Qed.

(** X1. Every line splits into at least one field and at most one more
    than it has commas; in particular the test [values.length === 0] of
    [parseCSV] never holds. *)
Theorem parseCSVLine_field_count (line : string) :
  1 <= List.length (parseCSVLine line) <= 1 + count_commas line.
Proof.
  unfold parseCSVLine.
  destruct (scan_length_bounds (String.length line) line (le_n _) [] EmptyString false)
    as [H1 H2].
  simpl in *. lia.
Qed.

Lemma split_on_cons (sep : ascii) (s : string) :
  exists h t, split_on sep s = h :: t.
Proof.
  destruct s as [|c s]; simpl; [now eexists; eexists|].
  destruct (Ascii.eqb c sep); [now eexists; eexists|].
  destruct (split_on sep s); now eexists; eexists.
Qed.

Lemma scan_without_quotes (line : string) :
  no_dquote line = true ->
  forall (result : list string) (current h : string) (t : list string),
    split_on comma line = h :: t ->
    scan line result current false = result ++ (current +++ h) :: t.
Proof.
  induction line as [|ch rest IH]; intros Hq result current h t Hs.
  - simpl in *. injection Hs as <- <-. now rewrite append_empty_r.
  - simpl in Hq. apply andb_prop in Hq as [Hch Hrest].
    apply negb_true_iff in Hch. cbn [scan]. rewrite Hch.
    cbn [split_on] in Hs.
    destruct (split_on_cons comma rest) as (h' & t' & Hr). rewrite Hr in Hs.
    destruct (Ascii.eqb ch comma) eqn:Ec.
    + injection Hs as <- <-.
      rewrite (IH Hrest _ _ h' t' Hr). rewrite append_empty_r, <- app_assoc.
      reflexivity.
    + injection Hs as <- <-.
      rewrite (IH Hrest _ _ h' t' Hr). now rewrite append_snoc.
Qed.

(** X2. On a line that holds no double quote the splitter of the data
    lines returns what [split(',')], the splitter of the header line,
    returns. *)
Theorem parseCSVLine_without_quotes (line : string) :
  no_dquote line = true -> parseCSVLine line = split_on comma line.
Proof.
  intros Hq. unfold parseCSVLine.
  destruct (split_on_cons comma line) as (h & t & Hs).
  now rewrite (scan_without_quotes line Hq [] EmptyString h t Hs), Hs.
Qed.

Lemma parseCSVLine_without_quotes_witness :
  no_dquote "Jane Doe, Acme Corp ,,x" = true
  /\ parseCSVLine "Jane Doe, Acme Corp ,,x" = split_on comma "Jane Doe, Acme Corp ,,x".
Proof.
  split; [reflexivity|]. apply (parseCSVLine_without_quotes "Jane Doe, Acme Corp ,,x").
  reflexivity.
Defined.

Lemma scan_unclosed (b : string) :
  no_dquote b = true ->
  forall (result : list string) (current : string),
    scan b result current true = result ++ [current +++ b].
Proof.
  induction b as [|ch rest IH]; intros Hq result current.
  - simpl. now rewrite append_empty_r.
  - simpl in Hq. apply andb_prop in Hq as [Hch Hrest].
    apply negb_true_iff in Hch. cbn [scan]. rewrite Hch.
    rewrite IH by assumption. now rewrite append_snoc.
Qed.

(** X3. A quote that is opened and never closed takes the rest of the
    line into the field, commas included: after a text [a] without quote
    or comma, an opening quote and a text [b] without quote, the line is
    the single field [a] followed by [b]. *)
Theorem parseCSVLine_unclosed_quote (a b : string) :
  plain a = true -> no_dquote b = true ->
  parseCSVLine (a +++ String dquote b) = [a +++ b].
Proof.
  intros Ha Hb. unfold parseCSVLine.
  rewrite scan_plain by assumption.
  cbn [scan]. change (Ascii.eqb dquote dquote) with true. cbv iota.
  now rewrite scan_unclosed.
Qed.

Lemma parseCSVLine_unclosed_quote_witness :
  plain "Acme " = true /\ no_dquote "Inc, Global,EU" = true
  /\ parseCSVLine ("Acme " +++ String dquote "Inc, Global,EU") = ["Acme " +++ "Inc, Global,EU"].
Proof.
  split; [reflexivity|]. split; [reflexivity|].
  apply (parseCSVLine_unclosed_quote "Acme " "Inc, Global,EU"); reflexivity.
Defined.

(** *** Trimming *)

Definition starts_clean (s : string) : Prop :=
  match s with
  | String c _ => is_space c = false
  | EmptyString => True
  end.

Lemma trimStart_clean (s : string) : starts_clean (trimStart s).
Proof.
  induction s as [|c s IH]; simpl; [exact I|].
  destruct (is_space c) eqn:E; [assumption | exact E].
Qed.

Lemma trimStart_fixed (s : string) : starts_clean s -> trimStart s = s.
Proof. destruct s as [|c s]; simpl; [reflexivity | now intros ->]. Qed.

Lemma trimEnd_clean (s : string) : starts_clean s -> starts_clean (trimEnd s).
Proof.
  destruct s as [|c s]; simpl; [trivial|]. intros Hc.
  destruct (trimEnd s); [now rewrite Hc | exact Hc].
Qed.

Lemma trimEnd_idempotent (s : string) : trimEnd (trimEnd s) = trimEnd s.
Proof.
  induction s as [|c s IH]; [reflexivity|]. cbn [trimEnd].
  destruct (trimEnd s) as [|d t] eqn:E.
  - destruct (is_space c) eqn:Ec; [reflexivity|]. cbn [trimEnd]. now rewrite Ec.
  - change (trimEnd (String c (String d t)))
      with (match trimEnd (String d t) with
            | EmptyString => if is_space c then EmptyString else String c EmptyString
            | String a u => String c (String a u)
            end).
    now rewrite IH.
Qed.

Lemma trim_idempotent (s : string) : trim (trim s) = trim s.
Proof.
  unfold trim.
  rewrite (trimStart_fixed (trimEnd (trimStart s)))
    by apply trimEnd_clean, trimStart_clean.
  apply trimEnd_idempotent.
Qed.

(** Every value of the row is its own trim. *)
Definition trimmed_row (row : ParsedRow) : Prop :=
  Forall (fun kv => trim (snd kv) = snd kv) row.

Lemma set_trimmed (row : ParsedRow) (h v : string) :
  trimmed_row row -> trim v = v -> trimmed_row (set row h v).
Proof.
  intros Hrow Hv. induction Hrow as [|[k w] row Hk Hrow IH]; simpl.
  - now repeat constructor.
  - destruct (String.eqb k h); constructor; assumption.
Qed.

Lemma copy_headers_trimmed (values : list string) :
  forall (headers : list string) (idx : nat) (row : ParsedRow),
    trimmed_row row -> trimmed_row (copy_headers headers idx values row).
Proof.
  induction headers as [|h hs IH]; intros idx row Hrow; simpl; [assumption|].
  apply IH. destruct (idx <? List.length values)%nat; [|assumption].
  unfold assign. destruct (String.eqb h "__proto__"); [assumption|].
  apply set_trimmed; [assumption | apply trim_idempotent].
Qed.

Lemma pick_trimmed (idx : Z) (values : list string) (fallback : nat) :
  trim (pick idx values fallback) = pick idx values fallback.
Proof.
  unfold pick. destruct (_ && _); [apply trim_idempotent|].
  destruct (nth_error values fallback); [apply trim_idempotent | reflexivity].
Qed.

Lemma build_row_trimmed (nameIdx companyIdx : Z) (headers values : list string) :
  trimmed_row (build_row nameIdx companyIdx headers values).
Proof.
  unfold build_row. apply copy_headers_trimmed.
  repeat constructor; apply pick_trimmed.
Qed.

Lemma parseCSV_row_origin (text : string) (row : ParsedRow) :
  In row (parseCSV text) ->
  exists headers line,
    row = row_of headers line /\ dropped headers line = false.
Proof.
  rewrite parseCSV_rows.
  destruct (lines_of text) as [|h [|d ds]]; try (intros []).
  intros Hin. apply in_map_iff in Hin as (line & <- & Hl).
  apply filter_In in Hl as [_ Hd]. apply negb_true_iff in Hd.
  now exists (headers_of h), line.
Qed.

(** X4. No value of a returned row has a space at either end: the name,
    the company and every copied column are stored trimmed. *)
Theorem parseCSV_values_are_trimmed (text : string) (row : ParsedRow) (k v : string) :
  In row (parseCSV text) -> In (k, v) row -> trim v = v.
Proof.
  intros Hrow Hkv.
  destruct (parseCSV_row_origin text row Hrow) as (headers & line & -> & _).
  pose proof (build_row_trimmed (nameIdx_of headers) (companyIdx_of headers) headers
                (parseCSVLine line)) as Ht.
  unfold trimmed_row in Ht. rewrite Forall_forall in Ht.
  exact (Ht (k, v) Hkv).
Qed.

Lemma parseCSV_values_are_trimmed_witness :
  In [("name", "Bob"); ("company", "Acme"); ("Name", "Bob"); ("Org", "Acme")]
     (parseCSV ("Name,Org" +++ String LF "  Bob ,Acme  "))
  /\ trim "Bob" = "Bob".
Proof.
  split; [vm_compute; now left|].
  apply (parseCSV_values_are_trimmed ("Name,Org" +++ String LF "  Bob ,Acme  ")
           [("name", "Bob"); ("company", "Acme"); ("Name", "Bob"); ("Org", "Acme")]
           "name" "Bob").
  - vm_compute. now left.
  - now left.
Defined.

Lemma copy_headers_keeps_key (values : list string) (key : string) :
  forall (headers : list string) (idx : nat) (row : ParsedRow),
    get row key <> None -> get (copy_headers headers idx values row) key <> None.
Proof.
  induction headers as [|h hs IH]; intros idx row Hrow; simpl; [assumption|].
  apply IH. destruct (idx <? List.length values)%nat; [|assumption].
  unfold assign. destruct (String.eqb h "__proto__"); [assumption|].
  rewrite get_set. now destruct (String.eqb h key).
Qed.

(** X5. Every returned row carries the two properties [name] and
    [company], and at least one of the two is not empty. *)
Theorem parseCSV_rows_have_a_subject (text : string) (row : ParsedRow) :
  In row (parseCSV text) ->
  get row "name" <> None /\ get row "company" <> None
  /\ (row_name row <> EmptyString \/ row_company row <> EmptyString).
Proof.
  intros Hrow.
  destruct (parseCSV_row_origin text row Hrow) as (headers & line & -> & Hd).
  split; [|split].
  - unfold row_of, build_row. apply copy_headers_keeps_key. simpl. discriminate.
  - unfold row_of, build_row. apply copy_headers_keeps_key. simpl. discriminate.
  - unfold dropped in Hd. apply negb_false_iff, orb_prop in Hd.
    destruct Hd as [H | H]; [left | right]; intros E; rewrite E in H; discriminate.
Qed.

Lemma parseCSV_rows_have_a_subject_witness :
  In [("name", "Bob"); ("company", ""); ("Name", "Bob")]
     (parseCSV ("Name" +++ String LF "Bob" +++ String LF " , "))
  /\ row_name [("name", "Bob"); ("company", ""); ("Name", "Bob")] <> EmptyString.
Proof.
  split; [vm_compute; now left|].
  destruct (parseCSV_rows_have_a_subject
              ("Name" +++ String LF "Bob" +++ String LF " , ")
              [("name", "Bob"); ("company", ""); ("Name", "Bob")]) as (_ & _ & H).
  - vm_compute. now left.
  - destruct H as [H | H]; [exact H | exfalso; now apply H].
Defined.

(** X6. A text with fewer than two lines that are not blank gives no row.
    Otherwise the first such line is the header and each later one gives
    one row, in the order of the lines, unless the row built for it has
    an empty name and an empty company: the rows returned and the lines
    dropped add up to the data lines. *)
Theorem parseCSV_rows_and_dropped_lines (text : string) :
  match lines_of text with
  | headerLine :: dataLines =>
      parseCSV text
      = map (row_of (headers_of headerLine))
            (filter (fun l => negb (dropped (headers_of headerLine) l)) dataLines)
      /\ List.length (parseCSV text)
         + List.length (filter (dropped (headers_of headerLine)) dataLines)
         = List.length dataLines
  | [] => parseCSV text = []
  end.
Proof.
  destruct (lines_of text) as [|h ds] eqn:E.
  - now rewrite parseCSV_rows, E.
  - split.
    + rewrite parseCSV_rows, E. now destruct ds.
    + now apply parseCSV_row_count.
Qed.

End CsvMoreFacts.

(** ** The export, read back by the parser *)

Module ExportFacts.
Import JS Csv Records Query CsvExport StringFacts CsvLineFacts CsvRowFacts CsvMoreFacts.

Fixpoint lf_free (s : string) : bool :=
  match s with
  | EmptyString => true
  | String c s' => negb (Ascii.eqb c LF) && lf_free s'
  end.

(** The text does not end with a carriage return. *)
Fixpoint no_final_CR (s : string) : bool :=
  match s with
  | EmptyString => true
  | String c EmptyString => negb (Ascii.eqb c CR)
  | String _ s' => no_final_CR s'
  end.

Lemma split_lines_cons (c : ascii) (s' : string) :
  split_lines (String c s')
  = if Ascii.eqb c LF then EmptyString :: split_lines s'
    else match s' with
         | String c' s'' =>
             if Ascii.eqb c CR && Ascii.eqb c' LF
             then EmptyString :: split_lines s''
             else match split_lines s' with
                  | l :: ls => String c l :: ls
                  | [] => [String c EmptyString]
                  end
         | EmptyString => [String c EmptyString]
         end.
Proof. destruct s'; reflexivity. Qed.

Lemma split_lines_line (a rest : string) :
  lf_free a = true -> no_final_CR a = true ->
  split_lines (a +++ String LF rest) = a :: split_lines rest.
Proof.
  induction a as [|c a IH]; intros Hlf Hcr.
  - cbn [String.append]. rewrite split_lines_cons.
    change (Ascii.eqb LF LF) with true. reflexivity.
  - cbn [lf_free] in Hlf. apply andb_prop in Hlf as [Hc Hlf].
    apply negb_true_iff in Hc.
    cbn [String.append]. rewrite split_lines_cons, Hc.
    destruct a as [|c' a'].
    + cbn [String.append]. cbn [no_final_CR] in Hcr. apply negb_true_iff in Hcr.
      rewrite Hcr. cbn [andb]. rewrite split_lines_cons.
      change (Ascii.eqb LF LF) with true. reflexivity.
    + assert (Hc' : Ascii.eqb c' LF = false).
      { cbn [lf_free] in Hlf. apply andb_prop in Hlf as [H _]. now apply negb_true_iff. }
      cbn [String.append]. rewrite Hc', andb_false_r.
      change (String c' (a' +++ String LF rest)) with (String c' a' +++ String LF rest).
      now rewrite IH.
Qed.

Lemma split_lines_last (a : string) : lf_free a = true -> split_lines a = [a].
Proof.
  induction a as [|c a IH]; intros Hlf; [reflexivity|].
  cbn [lf_free] in Hlf. apply andb_prop in Hlf as [Hc Hlf].
  apply negb_true_iff in Hc. rewrite split_lines_cons, Hc.
  destruct a as [|c' a']; [reflexivity|].
  assert (Hc' : Ascii.eqb c' LF = false).
  { cbn [lf_free] in Hlf. apply andb_prop in Hlf as [H _]. now apply negb_true_iff. }
  rewrite Hc', andb_false_r. now rewrite IH.
Qed.

Definition good_line (l : string) : bool := lf_free l && no_final_CR l.

Lemma split_lines_join (l : string) (ls : list string) :
  forallb good_line (l :: ls) = true ->
  split_lines (join LF_text (l :: ls)) = l :: ls.
Proof.
  revert l. induction ls as [|l' ls IH]; intros l Hg.
  - simpl in *. rewrite andb_true_r in Hg. apply andb_prop in Hg as [Hlf _].
    now apply split_lines_last.
  - cbn [forallb] in Hg. apply andb_prop in Hg as [Hl Hg].
    apply andb_prop in Hl as [Hlf Hcr].
    change (join LF_text (l :: l' :: ls)) with (l +++ String LF (join LF_text (l' :: ls))).
    rewrite split_lines_line by assumption. now rewrite IH.
Qed.

Lemma lf_free_append (a b : string) : lf_free (a +++ b) = lf_free a && lf_free b.
Proof.
  induction a as [|c a IH]; simpl; [reflexivity|]. now rewrite IH, andb_assoc.
Qed.

Lemma lf_free_escape (s : string) : lf_free (escape_quotes s) = lf_free s.
Proof.
  induction s as [|c s IH]; simpl; [reflexivity|].
  destruct (Ascii.eqb c dquote) eqn:E; simpl; rewrite IH; [|reflexivity].
  apply Ascii.eqb_eq in E. now subst c.
Qed.

Lemma lf_free_quoted (s : string) : lf_free (quoted s) = lf_free s.
Proof.
  unfold quoted. cbn [lf_free]. rewrite lf_free_append, lf_free_escape.
  simpl. now rewrite andb_true_r.
Qed.

Lemma no_final_CR_append (a : string) (c : ascii) (b : string) :
  no_final_CR (a +++ String c b) = no_final_CR (String c b).
Proof.
  induction a as [|x a IH]; [reflexivity|].
  cbn [String.append]. destruct a as [|y a']; [reflexivity|].
  cbn [String.append] in *. exact IH.
Qed.

Lemma quoted_row_good (f : string) (fs : list string) :
  forallb lf_free (f :: fs) = true ->
  good_line (join comma_text (map quoted (f :: fs))) = true.
Proof.
  revert f. induction fs as [|g fs IH]; intros f Hlf.
  - simpl in Hlf. rewrite andb_true_r in Hlf. cbn [map join]. unfold good_line.
    rewrite lf_free_quoted, Hlf. unfold quoted.
    change (String dquote (escape_quotes f +++ String dquote EmptyString))
      with (String dquote (escape_quotes f) +++ String dquote EmptyString).
    now rewrite no_final_CR_append.
  - cbn [forallb] in Hlf. apply andb_prop in Hlf as [Hf Hlf].
    specialize (IH g Hlf). unfold good_line in *. apply andb_prop in IH as [IH1 IH2].
    change (join comma_text (map quoted (f :: g :: fs)))
      with (quoted f +++ String comma (join comma_text (map quoted (g :: fs)))).
    rewrite lf_free_append, lf_free_quoted, Hf. cbn [lf_free andb].
    change (Ascii.eqb comma LF) with false. cbn [negb andb]. rewrite IH1.
    rewrite no_final_CR_append.
    destruct (join comma_text (map quoted (g :: fs))) eqn:E; [reflexivity | exact IH2].
Qed.

Lemma non_blank_clean_start (c : ascii) (l : string) :
  is_space c = false -> non_blank (String c l) = true.
Proof.
  intros Hc. unfold non_blank, trim. cbn [trimStart]. rewrite Hc. cbn [trimEnd].
  destruct (trimEnd l); [now rewrite Hc | reflexivity].
Qed.

(** The fields of a record hold no line feed. *)
Definition one_line (r : EnrichedRecord) : bool := forallb lf_free (columns r).

Lemma export_row_good (r : EnrichedRecord) :
  one_line r = true -> good_line (export_row r) = true.
Proof. intros H. now apply quoted_row_good. Qed.

Lemma export_row_non_blank (r : EnrichedRecord) : non_blank (export_row r) = true.
Proof.
  unfold export_row, columns. cbn [map join]. unfold quoted at 1.
  cbn [String.append]. now apply non_blank_clean_start.
Qed.

Definition header_line : string := join comma_text export_headers.

Lemma lines_of_export (data : list EnrichedRecord) :
  forallb one_line data = true ->
  lines_of (export_text data) = header_line :: map export_row data.
Proof.
  intros Hd. unfold lines_of, export_text. fold header_line.
  rewrite split_lines_join.
  - cbn [filter]. change (non_blank header_line) with true. cbv iota. f_equal.
    clear Hd. induction data as [|r data IH]; [reflexivity|].
    cbn [map filter]. now rewrite export_row_non_blank, IH.
  - cbn [forallb]. change (good_line header_line) with true. cbn [andb].
    induction data as [|r data IH]; [reflexivity|].
    cbn [forallb] in Hd. apply andb_prop in Hd as [Hr Hd].
    cbn [map forallb]. now rewrite export_row_good, IH.
Qed.

(** The row that [parseCSV] builds from the exported line of a record. *)
Definition reread (r : EnrichedRecord) : ParsedRow :=
  [ ("name", trim (name r)); ("company", trim (company r));
    ("Name", trim (name r)); ("Company", trim (company r));
    ("Revenue", trim (revenue r)); ("Sector", trim (sector r));
    ("Decision Maker", trim (decision_maker r)); ("Job Title", trim (job_title r));
    ("Confidence", trim (confidence r)) ].

Lemma row_of_export_row (r : EnrichedRecord) :
  row_of (headers_of header_line) (export_row r) = reread r.
Proof.
  unfold row_of.
  assert (Hv : parseCSVLine (export_row r) = columns r).
  { unfold parseCSVLine, export_row, columns. now rewrite scan_fields. }
  rewrite Hv.
  change (headers_of header_line) with export_headers.
  change (nameIdx_of export_headers) with 0%Z.
  change (companyIdx_of export_headers) with 1%Z.
  reflexivity.
Qed.

(** A record whose name or company is more than spaces. *)
Definition has_subject (r : EnrichedRecord) : bool :=
  truthy (trim (name r)) || truthy (trim (company r)).

Lemma filter_map_swap {A B : Type} (f : A -> B) (p : B -> bool) (l : list A) :
  filter p (map f l) = map f (filter (fun x => p (f x)) l).
Proof.
  induction l as [|x l IH]; simpl; [reflexivity|].
  destruct (p (f x)); simpl; now rewrite IH.
Qed.

(** X7. The exported text can be read back.  For records whose fields hold
    no line feed, [parseCSV] on the text that [exportCSV] writes returns,
    in order, one row for each record whose trimmed name or company is not
    empty; the row holds the trimmed name and company and the seven
    trimmed fields under the headers of the export.  Commas and quotes in
    the fields come back as they were. *)
Theorem export_is_read_back (data : list EnrichedRecord) :
  forallb one_line data = true ->
  parseCSV (export_text data) = map reread (filter has_subject data).
Proof.
  intros Hd. rewrite parseCSV_rows, (lines_of_export data Hd).
  destruct data as [|r data]; [reflexivity|].
  change (map export_row (r :: data)) with (export_row r :: map export_row data).
  cbv iota.
  change (export_row r :: map export_row data) with (map export_row (r :: data)).
  rewrite filter_map_swap, map_map.
  assert (Hf : forall x, negb (dropped (headers_of header_line) (export_row x)) = has_subject x).
  { intros x. unfold dropped. rewrite row_of_export_row, negb_involutive. reflexivity. }
  rewrite (filter_ext _ _ Hf).
  apply map_ext. intros x. apply row_of_export_row.
Qed.

(** A record with a comma and quotes in its fields. *)
Definition tricky : EnrichedRecord :=
  mkRecord ("Doe, " +++ String dquote ("Jane" +++ String dquote EmptyString))
           " Acme, Inc. " "$10M" "SaaS" "Yes" "CTO" "High".

Lemma export_is_read_back_witness :
  forallb one_line [tricky] = true
  /\ parseCSV (export_text [tricky]) = map reread (filter has_subject [tricky]).
Proof.
  split; [reflexivity|]. apply (export_is_read_back [tricky]). reflexivity.
Defined.

(** X8. A click on a column header only reorders: the rows shown after
    [handleSort] are a rearrangement of the rows shown before, the clicked
    field becomes the sort field, and a second click on the field that is
    already the sort field restores the state. *)
Theorem handleSort_only_reorders (field : SortField) (st : session) :
  Permutation (getFilteredData (handleSort field st)) (getFilteredData st)
  /\ sortField (handleSort field st) = field
  /\ (sortField st = field -> handleSort field (handleSort field st) = st).
Proof.
  split; [|split].
  - unfold getFilteredData, handleSort, filter_sort.
    destruct (sort_field_eqb (sortField st) field); cbn [sampleMode view enrichedData
      filterMode sortField sortDir];
      (etransitivity; [apply SortFacts.sort_perm | symmetry; apply SortFacts.sort_perm]).
  - unfold handleSort. destruct (sort_field_eqb (sortField st) field) eqn:E; [|reflexivity].
    cbn [sortField]. destruct (sortField st), field; try discriminate; reflexivity.
  - intros <-. unfold handleSort.
    assert (E : forall f, sort_field_eqb f f = true) by (intros []; reflexivity).
    rewrite E. cbn [sortField]. rewrite E. destruct st as [? ? ? ? ? []]; reflexivity.
Qed.

Lemma handleSort_only_reorders_witness :
  sortField (mkSession false results SAMPLE_ENRICHED all by_company desc) = by_company
  /\ handleSort by_company
       (handleSort by_company (mkSession false results SAMPLE_ENRICHED all by_company desc))
     = mkSession false results SAMPLE_ENRICHED all by_company desc.
Proof.
  split; [reflexivity|].
  apply (proj2 (proj2 (handleSort_only_reorders by_company
           (mkSession false results SAMPLE_ENRICHED all by_company desc)))).
  reflexivity.
Defined.

End ExportFacts.

(** ** More on the normalizer and the derived summary *)

Module NormalizeMoreFacts.
Import Json Normalize Records Query CoercionFacts.

Section Normalizer.
Context {number : Type} {NUM : JSNumber number}.

Local Abbreviation value := (Json.value number).

(** X9. Normalization of the extracted array throws exactly when one of
    its elements is [null] or gives [String] a value without text, an
    object with an own [toString] or an array that holds one; otherwise it
    returns one record for each element, in order, each the normalization
    of its element. *)
Theorem normalizedEnriched_pointwise (rs : list value) :
  (normalizedEnriched rs = None
   <-> Exists (fun r => r = VNull \/ unprintable_field r) rs)
  /\ (forall v : value, to_String v = None <-> unprintable v)
  /\ (forall l, normalizedEnriched rs = Some l ->
      map Some l = map normalize rs /\ List.length l = List.length rs).
Proof.
  split; [apply normalizedEnriched_throws|].
  split; [apply to_String_none|]. intros l. apply normalizedEnriched_some.
Qed.

(** The object that holds a canonical record under the canonical names. *)
Definition record_value (e : EnrichedRecord) : value :=
  VObj [ ("name", VStr (name e)); ("company", VStr (company e));
         ("revenue", VStr (revenue e)); ("sector", VStr (sector e));
         ("decision_maker", VStr (decision_maker e)); ("job_title", VStr (job_title e));
         ("confidence", VStr (confidence e)) ].

Lemma normalize_record_value (e : EnrichedRecord) : normalize (record_value e) = Some e.
Proof. destruct e. reflexivity. Qed.

Lemma normalized_record_values (es : list EnrichedRecord) :
  normalizedEnriched (map record_value es) = Some es.
Proof.
  induction es as [|e es IH]; [reflexivity|].
  cbn [map normalizedEnriched]. now rewrite normalize_record_value, IH.
Qed.

(** X10. Records that already have the canonical shape, with texts under
    the seven canonical names, pass through the normalizer unchanged, and
    so does what the normalizer returned. *)
Theorem canonical_records_pass_through (es : list EnrichedRecord) (rs : list value) :
  normalizedEnriched (map record_value es) = Some es
  /\ (normalizedEnriched rs = Some es ->
      normalizedEnriched (map record_value es) = normalizedEnriched rs).
Proof.
  split; [apply normalized_record_values|].
  intros ->. apply normalized_record_values.
Qed.

(** X11. When no summary is supplied (none, or a falsy one), the counts of
    the derived summary are the numbers of rows that the table shows under
    the matching filter, whatever the sort: all rows for [total_records],
    the filter [decision_makers] for [decision_makers_found] and the filter
    [low_confidence] for [low_confidence_count]. *)
Theorem derived_summary_counts_filtered_rows
        (summaryData : option value) (normalized : list EnrichedRecord)
        (f : SortField) (d : SortDir) :
  match summaryData with
  | Some sd => truthy (view_value sd) = false
  | None => True
  end ->
  exists s,
    summary_of summaryData normalized = Some s
    /\ total_records s = num_ofNat (List.length (filter_sort all f d normalized))
    /\ decision_makers_found s
       = num_ofNat (List.length (filter_sort decision_makers f d normalized))
    /\ low_confidence_count s
       = num_ofNat (List.length (filter_sort low_confidence f d normalized)).
Proof.
  intros Hs. exists (derived_summary normalized). split.
  { unfold summary_of. destruct summaryData as [sd|]; [now rewrite Hs | reflexivity]. }
  unfold derived_summary, filter_sort, count.
  cbn [total_records decision_makers_found low_confidence_count].
  rewrite !(Permutation_length (SortFacts.sort_perm _ _)).
  repeat split. f_equal. symmetry. f_equal.
  clear. induction normalized as [|r l IH]; simpl; now rewrite ?IH.
Qed.

End Normalizer.
End NormalizeMoreFacts.

(** ** More on the deep extraction *)

Module ExtractMoreFacts.
Import Json Extract ExtractFacts.

Section Engine.
Context {number : Type} {NUM : JSNumber number}.
Context {V : Type}.
Variable view : V -> shape number V.
Variable parseLLMJson : string -> option V.

Local Abbreviation extract := (deepExtractEnrichedData view parseLLMJson).

Lemma get_prop_truthy (o : shape number V) (key : string) (v : V) :
  get_prop o key = Some v -> truthy o = true.
Proof. destruct o; simpl; try discriminate; reflexivity. Qed.

Lemma extract_direct_match (obj : V) (depth : nat) (x : V) (items : list V) :
  depth <= 10 ->
  array_of view (get_prop (view obj) "enriched_data") = Some (x :: items) ->
  extract obj depth
  = mkResult (x :: items)
      (or_null view (get_prop (view obj) "summary"))
      (match array_of view (get_prop (view obj) "artifact_files") with
       | Some files => files
       | None => []
       end).
Proof.
  intros Hd Ha. rewrite extract_unfold. apply Nat.ltb_ge in Hd. rewrite Hd.
  unfold extract_level. cbv zeta.
  destruct (array_of_some view _ _ Ha) as (e & He).
  rewrite (get_prop_truthy _ _ _ He). cbn [negb].
  assert (Hdm : direct_match view (view obj)
                = Some (mkResult (x :: items)
                          (or_null view (get_prop (view obj) "summary"))
                          (match array_of view (get_prop (view obj) "artifact_files") with
                           | Some files => files
                           | None => []
                           end))).
  { unfold direct_match. now rewrite Ha. }
  rewrite Hdm. cbn [or_else].
  destruct (view obj); try discriminate; reflexivity.
Qed.

(** X12. The exact match comes first: within the depth limit, a value that
    holds an array with at least one element under [enriched_data] extracts
    to that array, with the value under [summary] (or [null]) and the array
    under [artifact_files] (or none), whatever its other properties, the
    wrapper keys among them, hold. *)
Theorem direct_match_comes_first (obj : V) (depth : nat) (x : V) (items : list V) :
  depth <= 10 ->
  array_of view (get_prop (view obj) "enriched_data") = Some (x :: items) ->
  extract obj depth
  = mkResult (x :: items)
      (or_null view (get_prop (view obj) "summary"))
      (match array_of view (get_prop (view obj) "artifact_files") with
       | Some files => files
       | None => []
       end).
Proof. exact (extract_direct_match obj depth x items). Qed.

End Engine.
End ExtractMoreFacts.

Module NestingFacts.
Import Json Extract ExtractFacts TreeFacts.

Section Tree.
Context {number : Type} {NUM : JSNumber number}.
Variable parseLLMJson : string -> option (value number).

Local Abbreviation extract := (deepExtractEnrichedData view_value parseLLMJson).
Local Abbreviation level := (extract_level view_value parseLLMJson).

Definition productive (r : ExtractionResult (value number)) : bool :=
  (0 <? List.length (enriched r))%nat.

(** [k] objects with the one property [key] around [v]. *)
Fixpoint nest (key : string) (k : nat) (v : value number) : value number :=
  match k with
  | 0 => v
  | S k' => VObj [(key, nest key k' v)]
  end.

Lemma wrapper_probe_single (self : value number -> ExtractionResult (value number))
      (key : string) (props : list (string * value number)) :
  forall ks,
    wrapper_probe view_value self (SObj [(key, VObj props)]) ks
    = if existsb (String.eqb key) ks && productive (self (VObj props))
      then Some (self (VObj props)) else None.
Proof.
  induction ks as [|wk ks IH]; [reflexivity|].
  cbn [wrapper_probe existsb]. unfold get_prop at 1. cbn [entries assoc].
  destruct (String.eqb key wk); cbn [or_null view_value is_null orb andb]; cbv zeta.
  - rewrite IH. unfold productive.
    destruct (0 <? List.length (enriched (self (VObj props))))%nat; [reflexivity|].
    now rewrite andb_false_r.
  - exact IH.
Qed.

Lemma single_property_level (self : value number -> ExtractionResult (value number))
      (key : string) (props : list (string * value number)) :
  level self (VObj [(key, VObj props)])
  = if productive (self (VObj props)) then self (VObj props) else empty.
Proof.
  unfold extract_level. cbn [view_value truthy negb].
  assert (Hd : direct_match view_value (SObj [(key, VObj props)]) = None).
  { unfold direct_match, get_prop. cbn [entries assoc].
    now destruct (String.eqb key "enriched_data"). }
  assert (Hk : key_scan view_value (SObj [(key, VObj props)]) [key] = None).
  { cbn [key_scan]. destruct (String.eqb key "enriched_data"); [|reflexivity].
    unfold get_prop. cbn [entries assoc]. now rewrite String.eqb_refl. }
  assert (Hl : last_resort view_value self (SObj [(key, VObj props)]) [key]
               = if productive (self (VObj props)) then Some (self (VObj props)) else None).
  { cbn [last_resort]. unfold get_prop. cbn [entries assoc]. rewrite String.eqb_refl.
    cbn [view_value typeof_object is_null negb andb]. cbv zeta. unfold productive.
    now destruct (0 <? List.length (enriched (self (VObj props))))%nat. }
  rewrite Hd. cbn [or_else record_array]. rewrite wrapper_probe_single.
  change (keys (SObj [(key, VObj props)])) with [key]. rewrite Hk, Hl.
  destruct (productive (self (VObj props)));
    [now destruct (existsb (String.eqb key) wrapperKeys) | now rewrite andb_false_r].
Qed.

Lemma nest_is_object (key : string) (k : nat) (props : list (string * value number)) :
  exists props', nest key k (VObj props) = VObj props'.
Proof. destruct k; simpl; now eexists. Qed.

Lemma extract_nested (key : string) (x : value number) (items : list (value number)) :
  forall k depth,
    extract (nest key k (VObj [("enriched_data", VArr (x :: items))])) depth
    = if (k + depth <=? 10)%nat then mkResult (x :: items) None [] else empty.
Proof.
  induction k as [|k IH]; intros depth.
  - cbn [nest Nat.add]. destruct (depth <=? 10)%nat eqn:E.
    + apply Nat.leb_le in E. now apply extract_direct.
    + apply Nat.leb_gt in E. rewrite extract_unfold.
      assert (G : (10 <? depth)%nat = true) by now apply Nat.ltb_lt.
      now rewrite G.
  - cbn [nest]. rewrite extract_unfold.
    destruct (10 <? depth)%nat eqn:G.
    + apply Nat.ltb_lt in G.
      assert (E : (S k + depth <=? 10)%nat = false) by (apply Nat.leb_gt; lia).
      now rewrite E.
    + destruct (nest_is_object key k [("enriched_data", VArr (x :: items))]) as (props & Hp).
      rewrite Hp, single_property_level, <- Hp, IH.
      replace (k + (depth + 1)) with (S k + depth) by lia.
      now destruct (S k + depth <=? 10)%nat.
Qed.

(** X13. The depth limit is exact.  An object that holds a non-empty
    array under [enriched_data], wrapped in [k] objects of one property
    each (a wrapper key or any other name), is found from the top exactly
    when [k] is at most 10; deeper than that the search returns the empty
    result. *)
Theorem nesting_is_searched_ten_levels_deep
        (key : string) (k : nat) (x : value number) (items : list (value number)) :
  extract (nest key k (VObj [("enriched_data", VArr (x :: items))])) 0
  = if (k <=? 10)%nat then mkResult (x :: items) None [] else empty.
Proof. rewrite extract_nested. now rewrite Nat.add_0_r. Qed.

End Tree.
End NestingFacts.

(** ** The views of the response and the outcome of [handleEnrich] *)

Module PipelineFacts.
Import Json Extract Normalize Records Artifacts Pipeline.
Import ExtractFacts ExtractMoreFacts NormalizeMoreFacts.

Section Outcome.
Context {number : Type} {NUM : JSNumber number}.

Local Abbreviation value := (Json.value number).

Variable parseLLMJson : string -> option value.
Variable JSON_parse : string -> option value.
Variable JSON_stringify : value -> string.

Local Abbreviation interpret := (Pipeline.interpret parseLLMJson JSON_parse JSON_stringify).

Local Abbreviation extract := (deepExtractEnrichedData view_value parseLLMJson).
Local Abbreviation loop := (extract_loop parseLLMJson).

(** A view that the loop passes: [undefined], falsy, or without records. *)
Definition idle (s : option value) : bool :=
  match s with
  | Some v => if truthy_value v then negb (productive (extract v 0)) else true
  | None => true
  end.

Lemma loop_some (v : value) (rest : list (option value)) (e0 : ExtractionResult value) :
  loop (Some v :: rest) e0
  = if truthy_value v
    then if productive (extract v 0) then extract v 0 else loop rest (extract v 0)
    else loop rest e0.
Proof. reflexivity. Qed.

Lemma loop_first_productive (pre : list (option value)) (v : value)
      (post : list (option value)) :
  forallb idle pre = true ->
  truthy_value v = true ->
  productive (extract v 0) = true ->
  forall e0, loop (pre ++ Some v :: post) e0 = extract v 0.
Proof.
  intros Hpre Hv Hp. induction pre as [|s pre IH]; intros e0.
  - cbn [Datatypes.app]. now rewrite loop_some, Hv, Hp.
  - cbn [forallb] in Hpre. apply andb_prop in Hpre as [Hs Hpre].
    cbn [Datatypes.app]. destruct s as [w|]; [|now apply IH].
    rewrite loop_some. unfold idle in Hs.
    destruct (truthy_value w); [|now apply IH].
    apply negb_true_iff in Hs. rewrite Hs. now apply IH.
Qed.

Lemma loop_all_idle (srcs : list (option value)) :
  forallb idle srcs = true ->
  forall e0, productive e0 = false -> productive (loop srcs e0) = false.
Proof.
  induction srcs as [|s srcs IH]; intros Hs e0 He; [assumption|].
  cbn [forallb] in Hs. apply andb_prop in Hs as [H Hs].
  destruct s as [w|]; [|now apply IH].
  rewrite loop_some. unfold idle in H.
  destruct (truthy_value w); [|now apply IH].
  apply negb_true_iff in H. rewrite H. now apply IH.
Qed.

(** X14. The views of the response are tried in order and the first one
    whose extraction has a record decides: after views that are
    [undefined], falsy or without records, a truthy view with records gives
    the result, and the views behind it are not consulted.  When every
    view is passed, the result has no record. *)
Theorem first_productive_view_decides
        (pre : list (option value)) (v : value) (post : list (option value))
        (e0 : ExtractionResult value) :
  forallb idle pre = true ->
  (truthy_value v = true -> productive (extract v 0) = true ->
   loop (pre ++ Some v :: post) e0 = extract v 0)
  /\ (productive e0 = false -> enriched (loop pre e0) = []).
Proof.
  intros Hpre. split.
  - intros Hv Hp. now apply loop_first_productive.
  - intros He. pose proof (loop_all_idle pre Hpre e0 He) as H.
    unfold productive in H. destruct (enriched (loop pre e0)); [reflexivity | discriminate].
Qed.

Lemma truthy_object (props : list (string * value)) :
  truthy_value (VObj props) = true.
Proof. reflexivity. Qed.

Lemma success_not_null (result : value) :
  truthy_opt (opt_get (Some result) "success") = true -> result <> VNull.
Proof. intros H ->. discriminate. Qed.

Lemma interpret_success (result : value) :
  truthy_opt (opt_get (Some result) "success") = true ->
  interpret result
  = let extracted := extracted_of parseLLMJson result in
    let files := extractArtifactFiles JSON_parse result in
    match normalizedEnriched (enriched extracted) with
    | None => Thrown None
    | Some normalized =>
        match summary_of (Extract.summary extracted) normalized with
        | None => Thrown (Some normalized)
        | Some s =>
            if (0 <? List.length normalized)%nat then
              Done (mkReport normalized s files true
                      (Some ("Successfully enriched "
                             +++ decimal (List.length normalized) +++ " records."))
                      None None)
            else
              match responseText result with
              | Some chosen =>
                  if truthy_value chosen then
                    Done (mkReport normalized s files true (Some parse_failed) None
                            (Some (shown_text JSON_stringify chosen)))
                  else
                    Done (mkReport normalized s files false None
                            (Some nothing_returned) None)
              | None =>
                  Done (mkReport normalized s files false None
                          (Some nothing_returned) None)
              end
        end
    end.
Proof.
  intros Hs. unfold Pipeline.interpret. rewrite Hs. cbn [negb].
  destruct result; [discriminate | | | | |]; reflexivity.
Qed.

(** X15. A response that follows the requested structure is shown in
    full.  When the agent reports success, [response] is an object that
    holds canonical records under [enriched_data], and [response.result] is
    absent, falsy or without records, the page shows exactly these records,
    with the summary coerced from [response.summary] and the status that
    counts them, whatever [raw_response] and the rest of the envelope
    hold.  When the coercion of the summary throws, the records are set
    all the same and the run ends in the [catch]. *)
Theorem structured_response_is_shown
        (result : value) (rprops : list (string * value))
        (e : EnrichedRecord) (es : list EnrichedRecord) :
  truthy_opt (opt_get (Some result) "success") = true ->
  opt_get (Some result) "response" = Some (VObj rprops) ->
  idle (opt_get (Some (VObj rprops)) "result") = true ->
  assoc "enriched_data" rprops = Some (VArr (map record_value (e :: es))) ->
  interpret result
  = match summary_of (or_null view_value (assoc "summary" rprops)) (e :: es) with
    | Some s =>
        Done (mkReport (e :: es) s (extractArtifactFiles JSON_parse result) true
                (Some ("Successfully enriched " +++ decimal (S (List.length es))
                       +++ " records."))
                None None)
    | None => Thrown (Some (e :: es))
    end.
Proof.
  intros Hs Hr Hidle Ha. rewrite (interpret_success result Hs).
  assert (Hx : extract (VObj rprops) 0
               = mkResult (map record_value (e :: es))
                   (or_null view_value (assoc "summary" rprops))
                   (match array_of view_value (assoc "artifact_files" rprops) with
                    | Some files => files
                    | None => []
                    end)).
  { apply (extract_direct_match view_value parseLLMJson (VObj rprops) 0
             (record_value e) (map record_value es)); [lia|].
    cbn [view_value]. unfold get_prop. cbn [entries]. now rewrite Ha. }
  assert (He : extracted_of parseLLMJson result = extract (VObj rprops) 0).
  { unfold extracted_of, sources_of. rewrite Hr.
    apply (loop_first_productive [opt_get (Some (VObj rprops)) "result"]).
    - cbn [forallb]. now rewrite Hidle.
    - reflexivity.
    - now rewrite Hx. }
  cbv zeta. rewrite He, Hx. cbn [enriched Extract.summary].
  rewrite normalized_record_values.
  destruct (summary_of (or_null view_value (assoc "summary" rprops)) (e :: es));
    reflexivity.
Qed.

Lemma responseText_choice (result : value) :
  responseText result
  = match opt_get (opt_get (Some result) "response") "message" with
    | Some m =>
        if is_null (view_value m)
        then string_or_empty (opt_get (opt_get (Some result) "response") "result")
        else Some m
    | None => string_or_empty (opt_get (opt_get (Some result) "response") "result")
    end.
Proof.
  unfold responseText. cbv zeta.
  destruct (opt_get (opt_get (Some result) "response") "message") as [m|];
    cbn [nullish_or].
  - destruct (is_null (view_value m)) eqn:E.
    + destruct (opt_get (opt_get (Some result) "response") "result") as [[]|]; reflexivity.
    + cbn [nullish_or]. now rewrite E.
  - destruct (opt_get (opt_get (Some result) "response") "result") as [[]|]; reflexivity.
Qed.

(** X16. When the agent reports success and no view has a record, what
    the page does is decided by [response.message] alone whenever that is
    present and not [null]: a truthy message is shown as the raw response,
    as it is when it is a text and through [JSON.stringify] otherwise, and
    a falsy one (such as the empty text) gives the error that no data was
    returned, even when [response.result] is a text.  Only without a
    message is [response.result] shown, when it is a text that is not
    empty.  The text under [response.result.text] is never shown.  When
    the coercion of the summary throws, the run ends in the [catch] after
    the empty list of records was set. *)
Theorem unparsed_response_outcome (result : value) :
  truthy_opt (opt_get (Some result) "success") = true ->
  enriched (extracted_of parseLLMJson result) = [] ->
  let response := opt_get (Some result) "response" in
  let chosen :=
    match opt_get response "message" with
    | Some m => if is_null (view_value m)
                then string_or_empty (opt_get response "result") else Some m
    | None => string_or_empty (opt_get response "result")
    end in
  let files := extractArtifactFiles JSON_parse result in
  interpret result
  = match summary_of (Extract.summary (extracted_of parseLLMJson result)) [] with
    | Some s =>
        if truthy_opt chosen
        then Done (mkReport [] s files true (Some parse_failed) None
                     (option_map (shown_text JSON_stringify) chosen))
        else Done (mkReport [] s files false None (Some nothing_returned) None)
    | None => Thrown (Some [])
    end.
Proof.
  intros Hs He response chosen files. rewrite (interpret_success result Hs).
  cbv zeta. rewrite He. cbn [normalizedEnriched List.length Nat.ltb Nat.leb].
  rewrite responseText_choice. fold response. fold chosen. fold files.
  destruct (summary_of (Extract.summary (extracted_of parseLLMJson result)) []);
    [|reflexivity].
  destruct chosen as [c|]; [|reflexivity]. cbn [truthy_opt option_map].
  destruct (truthy_value c); reflexivity.
Qed.

End Outcome.
End PipelineFacts.

(** ** More on the artifact locator *)

Module ArtifactMoreFacts.
Import Json Artifacts.

Section Locator.
Context {number : Type} {NUM : JSNumber number}.
Variable JSON_parse : string -> option (value number).

Local Abbreviation locate := (extractArtifactFiles JSON_parse).

Lemma non_empty_some (x : option (list (value number))) (files : list (value number)) :
  non_empty x = Some files -> x = Some files /\ files <> [].
Proof.
  destruct x as [l|]; simpl; [|discriminate].
  destruct l; simpl; [discriminate|]. intros H. injection H as <-. now split.
Qed.

Lemma files_under_truthy (result : value number) (files : list (value number)) :
  files_under (Some result) = Some files -> truthy (view_value result) = true.
Proof. destruct result; simpl; try discriminate; reflexivity. Qed.

(** X17. The files come from a probed path, and the envelope goes first.
    Whatever the locator returns, if it is not empty it is the array at
    [module_outputs.artifact_files] of the envelope, of its [response], of
    the decoded [raw_response] or of the [response] of the decoded
    [raw_response].  A non-empty array at the first path of the envelope is
    returned whatever the other paths hold. *)
Theorem artifact_files_come_from_a_probe (result : value number) :
  (locate result <> [] ->
   files_under (Some result) = Some (locate result)
   \/ files_under (opt_get (Some result) "response") = Some (locate result)
   \/ exists text raw,
        opt_get (Some result) "raw_response" = Some (VStr text)
        /\ JSON_parse text = Some raw
        /\ (files_under (Some raw) = Some (locate result)
            \/ files_under (opt_get (Some raw) "response") = Some (locate result)))
  /\ (forall f fs, files_under (Some result) = Some (f :: fs) -> locate result = f :: fs).
Proof.
  split.
  - unfold extractArtifactFiles.
    destruct (negb (truthy (view_value result))); [congruence|].
    destruct (non_empty (files_under (Some result))) as [files|] eqn:E1.
    { apply non_empty_some in E1 as [E1 _]. now left. }
    destruct (non_empty (files_under (opt_get (Some result) "response"))) as [files|] eqn:E2.
    { apply non_empty_some in E2 as [E2 _]. now right; left. }
    destruct (opt_get (Some result) "raw_response") as [[| | |text| |]|]; try congruence.
    destruct (JS.truthy text); [|congruence].
    destruct (JSON_parse text) as [raw|] eqn:Ep; [|congruence].
    destruct (files_under (Some raw)) as [files|] eqn:E3.
    { intros _. right; right. exists text, raw. now repeat split; try left. }
    destruct (files_under (opt_get (Some raw) "response")) as [files|] eqn:E4; [|congruence].
    intros _. right; right. exists text, raw. now repeat split; try right.
  - intros f fs H. unfold extractArtifactFiles.
    rewrite (files_under_truthy _ _ H), H. reflexivity.
Qed.

End Locator.
End ArtifactMoreFacts.

(** ** File handling *)

Module UploadFacts.
Import JS Csv Upload StringFacts ExportFacts.

Lemma substring_all (s : string) : substring 0 (String.length s) s = s.
Proof. induction s as [|c s IH]; simpl; [reflexivity | now rewrite IH]. Qed.

Lemma substring_skip (a suffix : string) :
  substring (String.length a) (String.length suffix) (a +++ suffix) = suffix.
Proof.
  induction a as [|c a IH]; simpl; [apply substring_all | exact IH].
Qed.

Lemma substring_split (s : string) :
  forall k, k <= String.length s ->
    s = substring 0 k s +++ substring k (String.length s - k) s.
Proof.
  induction s as [|c s IH]; intros k Hk.
  - simpl in Hk. assert (k = 0) by lia. subst k. reflexivity.
  - destruct k as [|k].
    + cbn [substring String.append]. rewrite Nat.sub_0_r.
      change (String.length (String c s)) with (S (String.length s)).
      cbn [substring]. now rewrite substring_all.
    + simpl in Hk. cbn [substring String.length Nat.sub String.append].
      f_equal. apply IH. lia.
Qed.

Lemma endsWith_spec (s suffix : string) :
  endsWith s suffix = true <-> exists a, s = a +++ suffix.
Proof.
  unfold endsWith. cbv zeta. split.
  - intros H. apply andb_prop in H as [Hm He].
    apply Nat.leb_le in Hm. apply String.eqb_eq in He.
    exists (substring 0 (String.length s - String.length suffix) s).
    rewrite <- He at 2.
    replace (String.length suffix)
      with (String.length s - (String.length s - String.length suffix)) at 3 by lia.
    apply substring_split. lia.
  - intros (a & ->). rewrite length_append.
    replace (String.length a + String.length suffix - String.length suffix)
      with (String.length a) by lia.
    rewrite substring_skip, String.eqb_refl.
    assert (H : (String.length suffix <=? String.length a + String.length suffix)%nat = true)
      by (apply Nat.leb_le; lia).
    now rewrite H.
Qed.

(** The lower-cased name ends with one of the three extensions. *)
Definition accepted_name (file : File) : Prop :=
  exists stem ext,
    In ext ACCEPTED_EXTENSIONS /\ toLowerCase (file_name file) = stem +++ ext.

Lemma accepted_name_spec (file : File) :
  existsb (fun ext => endsWith (toLowerCase (file_name file)) ext) ACCEPTED_EXTENSIONS = true
  <-> accepted_name file.
Proof.
  rewrite existsb_exists. unfold accepted_name. split.
  - intros (ext & Hin & He). apply endsWith_spec in He as (a & He). now exists a, ext.
  - intros (a & ext & Hin & He). exists ext. split; [assumption|].
    apply endsWith_spec. now exists a.
Qed.

Lemma validateFile_untouched (file : File) (st : upload_state) :
  previewRows (snd (validateFile file st)) = previewRows st
  /\ totalRowCount (snd (validateFile file st)) = totalRowCount st.
Proof.
  unfold validateFile. cbv zeta.
  destruct (negb _); [now split|]. destruct (_ >? _)%Z; now split.
Qed.

(** X18. A file is accepted exactly when its name, whatever the case of
    its letters, ends with [.csv], [.xlsx] or [.xls] and it has at most
    10 * 1024 * 1024 bytes.  The error is cleared exactly then; a wrong
    extension is reported before the size; and validation touches nothing
    but the error. *)
Theorem validateFile_accepts (file : File) (st : upload_state) :
  (fst (validateFile file st) = true
   <-> accepted_name file /\ (file_size file <= 10485760)%Z)
  /\ (fst (validateFile file st) = true <-> fileError (snd (validateFile file st)) = None)
  /\ (~ accepted_name file ->
      fileError (snd (validateFile file st)) = Some invalid_format)
  /\ selectedFile (snd (validateFile file st)) = selectedFile st
  /\ previewRows (snd (validateFile file st)) = previewRows st
  /\ totalRowCount (snd (validateFile file st)) = totalRowCount st.
Proof.
  pose proof (accepted_name_spec file) as Hn.
  unfold validateFile. cbv zeta.
  destruct (existsb _ ACCEPTED_EXTENSIONS) eqn:E; cbn [negb].
  - assert (Ha : accepted_name file) by now apply Hn.
    change (10 * 1024 * 1024)%Z with 10485760%Z.
    destruct (file_size file >? 10485760)%Z eqn:Es; cbn [fst snd setFileError fileError
      selectedFile previewRows totalRowCount].
    + apply Z.gtb_lt in Es.
      repeat split; try discriminate; try reflexivity; try tauto.
      intros [_ H]. lia.
    + assert (file_size file <= 10485760)%Z.
      { destruct (Z.gtb_spec (file_size file) 10485760); [discriminate | assumption]. }
      repeat split; try reflexivity; try tauto.
  - assert (Ha : ~ accepted_name file).
    { intros H. apply Hn in H. discriminate. }
    cbn [fst snd setFileError fileError selectedFile previewRows totalRowCount].
    repeat split; try discriminate; try reflexivity; try tauto.
Qed.

Lemma validateFile_accepts_witness :
  toLowerCase "Leads.CSV" = "leads" +++ ".csv"
  /\ fst (validateFile (mkFile "Leads.CSV" 10485760) (mkUpload None [] 0 (Some read_error)))
     = true.
Proof.
  split; [reflexivity|].
  apply (proj1 (validateFile_accepts (mkFile "Leads.CSV" 10485760)
                  (mkUpload None [] 0 (Some read_error)))).
  split; [|simpl; lia].
  exists "leads", ".csv". split; [now left | reflexivity].
Defined.

(** X19. Reading an accepted CSV file.  The file stays selected whatever
    the read gives.  When the text has no row, an error is set and the
    preview and the count are those of before the file was chosen.  When
    it has rows, the count is their number, the preview is their first
    ten (all of them when there are fewer), and no error is left. *)
Theorem csv_file_preview (file : File) (st : upload_state) (text : string) :
  fst (validateFile file st) = true ->
  endsWith (toLowerCase (file_name file)) ".csv" = true ->
  let st' := onload text (fst (processFile file st)) in
  snd (processFile file st) = true
  /\ selectedFile st' = Some file
  /\ (parseCSV text = [] ->
      fileError st' <> None
      /\ previewRows st' = previewRows st /\ totalRowCount st' = totalRowCount st)
  /\ (parseCSV text <> [] ->
      fileError st' = None
      /\ previewRows st' = firstn 10 (parseCSV text)
      /\ totalRowCount st' = Z.of_nat (List.length (parseCSV text))
      /\ List.length (previewRows st') = Nat.min 10 (List.length (parseCSV text))).
Proof.
  intros Hok Hcsv st'. unfold st', processFile.
  destruct (validateFile file st) as [ok st1] eqn:Ev. simpl in Hok. subst ok.
  cbn [negb]. cbv zeta. rewrite Hcsv. cbn [fst snd].
  assert (Hp : previewRows st1 = previewRows st /\ totalRowCount st1 = totalRowCount st).
  { pose proof (validateFile_untouched file st) as H. rewrite Ev in H. exact H. }
  destruct Hp as [Hp Ht].
  split; [reflexivity|].
  unfold onload. destruct text as [|c text].
  - cbn [truthy negb setFileError selectedFile fileError previewRows totalRowCount].
    split; [reflexivity|]. split.
    + intros _. split; [discriminate | now split].
    + intros H. exfalso. now apply H.
  - cbn [truthy negb]. cbv zeta.
    destruct (parseCSV (String c text)) as [|row rows] eqn:Er.
    + cbn [List.length Nat.eqb setFileError selectedFile fileError previewRows totalRowCount].
      split; [reflexivity|]. split.
      * intros _. split; [discriminate | now split].
      * intros H. exfalso. now apply H.
    + cbn [List.length Nat.eqb selectedFile fileError previewRows totalRowCount].
      split; [reflexivity|]. split; [discriminate|].
      intros _. split; [reflexivity|]. split; [reflexivity|]. split; [reflexivity|].
      now rewrite length_firstn.
Qed.

Lemma csv_file_preview_witness :
  fst (validateFile (mkFile "leads.csv" 20) (mkUpload None [] 0 None)) = true
  /\ endsWith (toLowerCase "leads.csv") ".csv" = true
  /\ selectedFile (onload "Name" (fst (processFile (mkFile "leads.csv" 20)
                                         (mkUpload None [] 0 None))))
     = Some (mkFile "leads.csv" 20).
Proof.
  split; [reflexivity|]. split; [reflexivity|].
  apply (csv_file_preview (mkFile "leads.csv" 20) (mkUpload None [] 0 None) "Name");
    reflexivity.
Defined.

(** *** Line ends *)

Definition CRLF_text : string := String CR (String LF EmptyString).

Lemma split_lines_crlf_line (a rest : string) :
  lf_free a = true ->
  split_lines (a +++ String CR (String LF rest)) = a :: split_lines rest.
Proof.
  induction a as [|c a IH]; intros Hlf.
  - cbn [String.append]. rewrite split_lines_cons.
    change (Ascii.eqb CR LF) with false. change (Ascii.eqb CR CR) with true.
    change (Ascii.eqb LF LF) with true. reflexivity.
  - cbn [lf_free] in Hlf. apply andb_prop in Hlf as [Hc Hlf].
    apply negb_true_iff in Hc. specialize (IH Hlf).
    cbn [String.append]. rewrite split_lines_cons, Hc.
    destruct a as [|c' a'].
    + cbn [String.append] in *. change (Ascii.eqb CR LF) with false.
      rewrite andb_false_r. now rewrite IH.
    + assert (Hc' : Ascii.eqb c' LF = false).
      { cbn [lf_free] in Hlf. apply andb_prop in Hlf as [H _]. now apply negb_true_iff. }
      cbn [String.append] in *. rewrite Hc', andb_false_r. now rewrite IH.
Qed.

Lemma split_lines_crlf_join (l : string) (ls : list string) :
  forallb good_line (l :: ls) = true ->
  split_lines (join CRLF_text (l :: ls)) = l :: ls.
Proof.
  revert l. induction ls as [|l' ls IH]; intros l Hg.
  - simpl in *. rewrite andb_true_r in Hg. apply andb_prop in Hg as [Hlf _].
    now apply split_lines_last.
  - cbn [forallb] in Hg. apply andb_prop in Hg as [Hl Hg].
    apply andb_prop in Hl as [Hlf Hcr].
    change (join CRLF_text (l :: l' :: ls))
      with (l +++ String CR (String LF (join CRLF_text (l' :: ls)))).
    rewrite split_lines_crlf_line by assumption. now rewrite IH.
Qed.

(** X20. Line ends do not matter: lines that hold no line feed and do
    not end with a carriage return give the same rows whether they are
    joined by a carriage return and a line feed or by a line feed alone. *)
Theorem line_ends_do_not_matter (l : string) (ls : list string) :
  forallb good_line (l :: ls) = true ->
  parseCSV (join CRLF_text (l :: ls)) = parseCSV (join CsvExport.LF_text (l :: ls)).
Proof.
  intros Hg. unfold parseCSV, lines_of.
  now rewrite split_lines_crlf_join, split_lines_join.
Qed.

Lemma line_ends_do_not_matter_witness :
  forallb good_line ["Name,Company"; "Jane Doe,Acme Corp"] = true
  /\ parseCSV (join CRLF_text ["Name,Company"; "Jane Doe,Acme Corp"])
     = parseCSV (join CsvExport.LF_text ["Name,Company"; "Jane Doe,Acme Corp"]).
Proof.
  split; [reflexivity|].
  apply (line_ends_do_not_matter "Name,Company" ["Jane Doe,Acme Corp"]). reflexivity.
Defined.

End UploadFacts.

(** ** The markdown renderer *)

Module MarkdownFacts.
Import JS Markdown StringFacts.

Definition two_stars : string := String star (String star EmptyString).

(** The text a list of pieces was made from: the strong pieces go back
    between two pairs of stars. *)
Fixpoint source (l : list inline) : string :=
  match l with
  | [] => EmptyString
  | Plain p :: l' => p +++ source l'
  | Strong b :: l' => two_stars +++ b +++ two_stars +++ source l'
  end.

Fixpoint no_terminator (s : string) : bool :=
  match s with
  | EmptyString => true
  | String c s' => Regex.dot_match c && no_terminator s'
  end.

Definition strong_on_one_line (i : inline) : Prop :=
  match i with
  | Strong b => no_terminator b = true
  | Plain _ => True
  end.

Lemma find_close_spec (s cap after : string) :
  find_close s = Some (cap, after) ->
  s = cap +++ two_stars +++ after /\ no_terminator cap = true.
Proof.
  revert cap after. induction s as [|c s IH]; intros cap after; simpl; [discriminate|].
  destruct s as [|c' r]; [discriminate|].
  destruct (Ascii.eqb c star && Ascii.eqb c' star) eqn:E.
  - intros H. injection H as <- <-. apply andb_prop in E as [E1 E2].
    apply Ascii.eqb_eq in E1, E2. subst. now split.
  - destruct (Regex.dot_match c) eqn:Ed; [|discriminate].
    destruct (find_close (String c' r)) as [[cap' rest]|] eqn:Ef; [|discriminate].
    intros H. injection H as <- <-.
    destruct (IH cap' rest eq_refl) as [Hs Hn].
    split; [rewrite Hs; reflexivity | simpl; now rewrite Ed, Hn].
Qed.

Lemma match_bold_spec (s cap after : string) :
  match_bold s = Some (cap, after) ->
  s = two_stars +++ cap +++ two_stars +++ after /\ no_terminator cap = true.
Proof.
  destruct s as [|c [|c' r]]; simpl; try discriminate.
  destruct (Ascii.eqb c star && Ascii.eqb c' star) eqn:E; [|discriminate].
  apply andb_prop in E as [E1 E2]. apply Ascii.eqb_eq in E1, E2. subst.
  intros H. apply find_close_spec in H as [-> Hn]. now split.
Qed.

Lemma split_bold_cons (c : ascii) (rest pending : string) :
  split_bold (String c rest) pending
  = match match_bold (String c rest) with
    | Some (cap, after) => pending :: cap :: split_bold after EmptyString
    | None => split_bold rest (pending +++ String c EmptyString)
    end.
Proof.
  simp split_bold. unfold inspect.
  enough (H : forall o (e : match_bold (String c rest) = o),
             split_bold_unfold_clause_2 c rest (exist _ o e) pending
             = match o with
               | Some (cap, after) => pending :: cap :: split_bold after EmptyString
               | None => split_bold rest (pending +++ String c EmptyString)
               end) by apply H.
  intros [[cap after]|] e; reflexivity.
Qed.

Lemma split_bold_source :
  forall (n : nat) (rest pending : string), String.length rest <= n ->
    source (mark (split_bold rest pending)) = pending +++ rest
    /\ Forall strong_on_one_line (mark (split_bold rest pending))
    /\ Nat.Odd (List.length (split_bold rest pending)).
Proof.
  induction n as [|n IH]; intros rest pending Hn.
  - destruct rest; [|simpl in Hn; lia]. simp split_bold. simpl.
    rewrite !append_empty_r. repeat split; [now repeat constructor | now exists 0].
  - destruct rest as [|c rest].
    { simp split_bold. simpl. rewrite !append_empty_r.
      repeat split; [now repeat constructor | now exists 0]. }
    rewrite split_bold_cons.
    destruct (match_bold (String c rest)) as [[cap after]|] eqn:E.
    + pose proof (Markdown.match_bold_shorter _ _ _ E) as Hlen.
      apply match_bold_spec in E as [E Hcap].
      destruct (IH after EmptyString ltac:(simpl in *; lia)) as (H1 & H2 & H3).
      cbn [mark source]. rewrite H1. cbn [String.append]. rewrite E.
      repeat split.
      * constructor; [exact I|]. constructor; [exact Hcap | exact H2].
      * cbn [List.length]. destruct H3 as (m & ->). exists (S m). lia.
    + destruct (IH rest (pending +++ String c EmptyString) ltac:(simpl in *; lia))
        as (H1 & H2 & H3).
      rewrite H1, append_snoc. now repeat split.
Qed.

Lemma formatInline_text (text : string) :
  source (formatInline text) = text
  /\ Forall strong_on_one_line (formatInline text).
Proof.
  unfold formatInline. cbv zeta.
  destruct (List.length (split_bold text EmptyString) =? 1)%nat.
  - simpl. rewrite append_empty_r. now repeat constructor.
  - destruct (split_bold_source (String.length text) text EmptyString (le_n _))
      as (H1 & H2 & _).
    now split.
Qed.

(** X21. Formatting loses nothing.  The pieces that [formatInline] returns,
    with every strong piece written back between two pairs of stars, make
    up the text again; no strong piece runs over a line terminator, and
    the split has an odd number of parts. *)
Theorem formatInline_keeps_the_text (text : string) :
  source (formatInline text) = text
  /\ Forall strong_on_one_line (formatInline text)
  /\ Nat.Odd (List.length (split_bold text EmptyString)).
Proof.
  destruct (formatInline_text text) as [H1 H2].
  destruct (split_bold_source (String.length text) text EmptyString (le_n _))
    as (_ & _ & H3).
  now repeat split.
Qed.

Lemma prefix_slice (p line : string) :
  String.prefix p line = true -> line = p +++ slice (String.length p) line.
Proof.
  revert line. induction p as [|a p IH]; intros [|b line]; simpl;
    try reflexivity; try discriminate.
  destruct (ascii_dec a b) as [<-|]; [|discriminate].
  intros H. now rewrite <- (IH line H).
Qed.

Fixpoint all_digits (s : string) : bool :=
  match s with
  | EmptyString => true
  | String c s' => is_digit c && all_digits s'
  end.

Lemma after_stop_spec (s item : string) :
  after_stop s = Some item ->
  exists w, is_space w = true /\ s = String "."%char (String w item).
Proof.
  destruct s as [|c [|c' r]]; simpl; try discriminate.
  destruct (Ascii.eqb c "."%char) eqn:E; [|discriminate].
  destruct (is_space c') eqn:Ew; [|discriminate].
  intros H. injection H as <-. apply Ascii.eqb_eq in E. subst c. now exists c'.
Qed.

Lemma after_digits_spec (s item : string) :
  after_digits s = Some item ->
  exists digits w,
    digits <> EmptyString /\ all_digits digits = true /\ is_space w = true
    /\ s = digits +++ String "."%char (String w item).
Proof.
  revert item. induction s as [|c s IH]; intros item; simpl; [discriminate|].
  destruct (is_digit c) eqn:Ed; [|discriminate].
  destruct (after_digits s) as [r|] eqn:Ea.
  - intros H. injection H as <-.
    destruct (IH r eq_refl) as (digits & w & _ & Hd & Hw & ->).
    exists (String c digits), w. repeat split; try assumption; try discriminate.
    simpl. now rewrite Ed, Hd.
  - intros H. apply after_stop_spec in H as (w & Hw & ->).
    exists (String c EmptyString), w. repeat split; try assumption; try discriminate.
    simpl. now rewrite Ed.
Qed.

(** What a block says of the line it was rendered from. *)
Definition renders (line : string) (b : block) : Prop :=
  match b with
  | H4 s => line = "### " +++ s
  | H3 s => line = "## " +++ s
  | H2 s => line = "# " +++ s
  | Bullet l => line = "- " +++ source l \/ line = "* " +++ source l
  | Numbered l =>
      exists digits w,
        digits <> EmptyString /\ all_digits digits = true /\ is_space w = true
        /\ line = digits +++ String "."%char (String w (source l))
  | Spacer => trim line = EmptyString
  | Paragraph l => line = source l /\ trim line <> EmptyString
  end.

Lemma render_line_renders (line : string) : renders line (render_line line).
Proof.
  unfold render_line, startsWith.
  destruct (String.prefix "### " line) eqn:E4; [exact (prefix_slice _ _ E4)|].
  destruct (String.prefix "## " line) eqn:E3; [exact (prefix_slice _ _ E3)|].
  destruct (String.prefix "# " line) eqn:E2; [exact (prefix_slice _ _ E2)|].
  destruct (String.prefix "- " line) eqn:Ed.
  { cbn [orb renders]. left.
    rewrite (proj1 (formatInline_text (slice 2 line))). exact (prefix_slice _ _ Ed). }
  destruct (String.prefix "* " line) eqn:Es.
  { cbn [orb renders]. right.
    rewrite (proj1 (formatInline_text (slice 2 line))). exact (prefix_slice _ _ Es). }
  cbn [orb]. destruct (numbered_item line) as [item|] eqn:En.
  { cbn [renders]. rewrite (proj1 (formatInline_text item)).
    now apply after_digits_spec. }
  destruct (truthy (trim line)) eqn:Et; cbn [negb renders].
  - split; [now rewrite (proj1 (formatInline_text line))|].
    intros H. rewrite H in Et. discriminate.
  - now destruct (trim line).
Qed.

(** X22. The rendering keeps the lines apart and loses nothing but the
    markers.  An empty text renders as nothing.  Otherwise there is one
    block for each line of the text, in order, and each block tells its
    line: a heading is the line less its hashes and the space, a bullet the
    line less its dash or star and the space, a numbered item the line
    less its digits, the full stop and the white space, a spacer a line of
    white space only, and a paragraph the line itself, the strong pieces
    standing for the text between stars. *)
Theorem renderMarkdown_keeps_the_lines (text : string) :
  (renderMarkdown text = None <-> text = EmptyString)
  /\ (forall blocks, renderMarkdown text = Some blocks ->
        Forall2 renders (split_on LF text) blocks).
Proof.
  unfold renderMarkdown. destruct text as [|c text].
  - split; [now split | discriminate].
  - cbn [truthy negb]. generalize (split_on LF (String c text)). intros lines.
    split; [split; discriminate|].
    intros blocks H. injection H as <-.
    induction lines as [|l ls IH]; constructor; [|exact IH].
    apply render_line_renders.
Qed.

End MarkdownFacts.

(** ** The added properties on examples *)

Module MoreExamples.
Import Json Extract Normalize Records Artifacts Query Pipeline.
Import NormalizeMoreFacts ExtractMoreFacts PipelineFacts.
Import IntRuntime.

Local Abbreviation value := (Json.value number).

Definition no_decoder : string -> option value := fun _ => None.

Definition ann : EnrichedRecord :=
  mkRecord "Ann Lee" "Initech" "$2M" "Retail" "Yes" "CEO" "Low".

Definition raj : EnrichedRecord :=
  mkRecord "Raj Patel" "Globex" "N/A" "Energy" "No" "Analyst" "High".

Lemma derived_summary_counts_filtered_rows_witness :
  truthy (view_value (VStr EmptyString : value)) = false
  /\ exists s,
       summary_of (Some (VStr EmptyString)) [ann; raj] = Some s
       /\ total_records s
          = num_ofNat (List.length (filter_sort all by_name asc [ann; raj]))
       /\ decision_makers_found s
          = num_ofNat (List.length (filter_sort decision_makers by_name asc [ann; raj]))
       /\ low_confidence_count s
          = num_ofNat (List.length (filter_sort low_confidence by_name asc [ann; raj])).
Proof.
  split; [reflexivity|].
  exact (derived_summary_counts_filtered_rows
           (Some (VStr EmptyString)) [ann; raj] by_name asc eq_refl).
Defined.

(** The derived summary of the two records. *)
Example derived_summary_of_two :
  summary_of (Some (VStr EmptyString)) [ann; raj]
  = Some (mkSummary (Some 2%Z) (Some 1%Z) (Some 1%Z) "50%").
Proof. reflexivity. Qed.

(** An object with records under [enriched_data] and, under the wrapper key
    [result], another object with other records. *)
Definition both_places : value :=
  VObj [ ("result", VObj [("enriched_data", VArr [record_value raj])]);
         ("enriched_data", VArr [record_value ann]);
         ("summary", VNull) ].

Lemma direct_match_comes_first_witness :
  3 <= 10
  /\ array_of view_value (get_prop (view_value both_places) "enriched_data")
     = Some [record_value ann]
  /\ deepExtractEnrichedData view_value no_decoder both_places 3
     = mkResult [record_value ann] None [].
Proof.
  split; [lia|]. split; [reflexivity|].
  apply (direct_match_comes_first view_value no_decoder both_places 3
           (record_value ann) []); [lia | reflexivity].
Defined.

Definition ann_table : value := VObj [("data", VArr [record_value ann])].
Definition raj_table : value := VObj [("data", VArr [record_value raj])].

Lemma first_productive_view_decides_witness :
  forallb (idle no_decoder) [None; Some (VStr EmptyString); Some (VObj [])] = true
  /\ (truthy_value ann_table = true ->
      productive (deepExtractEnrichedData view_value no_decoder ann_table 0) = true ->
      extract_loop no_decoder
        ([None; Some (VStr EmptyString); Some (VObj [])]
           ++ Some ann_table :: [Some raj_table]) empty
      = deepExtractEnrichedData view_value no_decoder ann_table 0)
  /\ (productive (@empty value) = false ->
      enriched (extract_loop no_decoder
                  [None; Some (VStr EmptyString); Some (VObj [])] empty) = []).
Proof.
  split; [vm_compute; reflexivity|].
  apply (first_productive_view_decides no_decoder
           [None; Some (VStr EmptyString); Some (VObj [])] ann_table [Some raj_table] empty).
  vm_compute; reflexivity.
Defined.

(** [JSON.stringify(v, null, 2)] on the values of the examples, which
    hold no text with a character to escape and no number that is not
    finite. *)
Fixpoint stringify_at (indent : string) (v : value) : string :=
  match v with
  | VNull => "null"
  | VBool b => if b then "true" else "false"
  | VNum n => num_toString n
  | VStr t => Examples.q t
  | VArr [] => "[]"
  | VArr items =>
      "[" +++ CsvExport.LF_text +++ indent +++ "  "
        +++ JS.join ("," +++ CsvExport.LF_text +++ indent +++ "  ")
              (map (stringify_at (indent +++ "  ")) items)
        +++ CsvExport.LF_text +++ indent +++ "]"
  | VObj [] => "{}"
  | VObj props =>
      "{" +++ CsvExport.LF_text +++ indent +++ "  "
        +++ JS.join ("," +++ CsvExport.LF_text +++ indent +++ "  ")
              (map (fun kv => Examples.q (fst kv) +++ ": "
                              +++ stringify_at (indent +++ "  ") (snd kv)) props)
        +++ CsvExport.LF_text +++ indent +++ "}"
  end.

Definition stringify : value -> string := stringify_at EmptyString.

(** A response in the requested structure, with a raw text beside it. *)
Definition structured_response : list (string * value) :=
  [ ("status", VStr "ok");
    ("enriched_data", VArr (map record_value [ann; raj]));
    ("summary", VObj [("total_records", VStr "2")]) ].

Definition structured : value :=
  VObj [ ("success", VBool true);
         ("response", VObj structured_response);
         ("raw_response", VStr "not a value") ].

Lemma structured_response_is_shown_witness :
  truthy_opt (opt_get (Some structured) "success") = true
  /\ opt_get (Some structured) "response" = Some (VObj structured_response)
  /\ idle no_decoder (opt_get (Some (VObj structured_response)) "result") = true
  /\ assoc "enriched_data" structured_response
     = Some (VArr (map record_value [ann; raj]))
  /\ interpret no_decoder no_decoder stringify structured
     = Done (mkReport [ann; raj]
               (mkSummary (Some 2%Z) (Some 0%Z) (Some 0%Z) "0%")
               [] true (Some "Successfully enriched 2 records.") None None).
Proof.
  repeat (split; [reflexivity|]).
  refine (eq_trans
            (structured_response_is_shown no_decoder no_decoder stringify structured
               structured_response ann [raj] _ _ _ _) _);
    vm_compute; reflexivity.
Defined.

(** The same response with a count that has no text: the records are set
    and the run ends in the [catch]. *)
Example unprintable_summary_is_caught :
  interpret no_decoder no_decoder stringify
    (VObj [ ("success", VBool true);
            ("response",
             VObj [ ("enriched_data", VArr (map record_value [ann; raj]));
                    ("summary",
                     VObj [("total_records", VObj [("toString", VNum (Some 1%Z))])]) ]) ])
  = Thrown (Some [ann; raj]).
Proof. vm_compute. reflexivity. Qed.

(** A response with an empty message and a text under [result]. *)
Definition empty_message : value :=
  VObj [ ("success", VBool true);
         ("response", VObj [ ("message", VStr EmptyString);
                             ("result", VStr "The file could not be read.") ]) ].

Lemma unparsed_response_outcome_witness :
  truthy_opt (opt_get (Some empty_message) "success") = true
  /\ enriched (extracted_of no_decoder empty_message) = []
  /\ interpret no_decoder no_decoder stringify empty_message
     = Done (mkReport [] (mkSummary (Some 0%Z) (Some 0%Z) (Some 0%Z) "0%")
               [] false None (Some nothing_returned) None).
Proof.
  split; [reflexivity|]. split; [vm_compute; reflexivity|].
  refine (eq_trans
            (unparsed_response_outcome no_decoder no_decoder stringify empty_message
               _ _) _);
    vm_compute; reflexivity.
Defined.

(** A message that is an object is shown as its indented text. *)
Example object_message_is_printed :
  interpret no_decoder no_decoder stringify
    (VObj [ ("success", VBool true);
            ("response", VObj [("message", VObj [("note", VStr "no rows")])]) ])
  = Done (mkReport [] (mkSummary (Some 0%Z) (Some 0%Z) (Some 0%Z) "0%")
            [] true (Some parse_failed) None
            (Some ("{" +++ CsvExport.LF_text +++ "  " +++ Examples.q "note" +++ ": "
                   +++ Examples.q "no rows" +++ CsvExport.LF_text +++ "}"))).
Proof. vm_compute. reflexivity. Qed.

(** The answer [null]: reading [success] throws. *)
Example null_result_is_caught :
  interpret no_decoder no_decoder stringify VNull = Thrown None.
Proof. reflexivity. Qed.

(** A failure whose [error] has no text: building the message throws. *)
Example unprintable_error_is_caught :
  interpret no_decoder no_decoder stringify
    (VObj [ ("success", VBool false);
            ("error", VArr [VObj [("toString", VBool false)]]) ])
  = Thrown None.
Proof. reflexivity. Qed.

End MoreExamples.
